(** * run_pretrained_openfold: the batch inference driver

    A shallow embedding of [run_pretrained_openfold.py]: the alignment
    statistics of [get_msa_stats], the scratch-file handling of
    [precompute_alignments] and [generate_feature_dict], the bucket
    rounding of [round_up_seqlen], and the control flow of [main]
    (configuration, target discovery and ordering, the model x target
    loops with their feature cache, tracing state and per-target
    [try]/[except]).

    Python exceptions are results of type [res]; mutable state (files
    and directories, the feature cache, the locals of [main] that
    survive an exception) is threaded through a state-and-exception
    monad [M]; calls into the libraries the script imports are fields
    of a record [Ext], and the model generator is a sequence of pulls,
    each made when the loop over the models asks for it. *)

From Stdlib Require Import ZArith Lia Ascii String Sorting.Sorted.
From stdpp Require Import base strings list gmap.

Local Open Scope string_scope.
Local Open Scope list_scope.
Local Open Scope nat_scope.

(** ** Exceptions and results *)

Inductive Exn : Type :=
  | ValueError (msg : string)
  | AssertionError
  | IndexError
  | KeyError (key : string)
  | AttributeError (name : string)
  | UnboundLocalError (name : string)
  | FileNotFoundError (path : string)
  | FileExistsError (path : string)
  | NotADirectoryError (path : string)
  | IsADirectoryError (path : string)
  | OverflowError
  | ExternalError (msg : string).

Inductive res (A : Type) : Type :=
  | Raise (e : Exn)
  | Ok (a : A).
Arguments Raise {A} e.
Arguments Ok {A} a.

Definition res_bind {A B} (r : res A) (f : A -> res B) : res B :=
  match r with
  | Raise e => Raise e
  | Ok a => f a
  end.

Definition is_ok {A} (r : res A) : bool :=
  match r with Ok _ => true | Raise _ => false end.

(** ** Strings and paths *)

Module Str.

(** [s.endswith(suf)] *)
Fixpoint endswith (suf s : string) : bool :=
  String.eqb s suf ||
  match s with
  | EmptyString => false
  | String _ s' => endswith suf s'
  end.

(** [sub in s] *)
Fixpoint contains (sub s : string) : bool :=
  String.prefix sub s ||
  match s with
  | EmptyString => false
  | String _ s' => contains sub s'
  end.

(** [s.split(".")[0]] *)
Fixpoint before_dot (s : string) : string :=
  match s with
  | EmptyString => EmptyString
  | String c s' =>
      if Ascii.eqb c "."%char then EmptyString else String c (before_dot s')
  end.

(** [sep.join(l)] *)
Definition join (sep : string) (l : list string) : string :=
  String.concat sep l.

(** [os.path.join(a, b)] on a POSIX system *)
Definition path_join (a b : string) : string :=
  if String.prefix "/" b then b
  else if String.eqb a "" then b
  else if endswith "/" a then a +:+ b
  else a +:+ "/" +:+ b.

Definition newline : string := String (Ascii.ascii_of_nat 10) EmptyString.

(** The directories above [s]: the prefixes of [s] that stop before
    a ["/"], the empty prefix left out. *)
Fixpoint ancestors_from (cur s : string) : list string :=
  match s with
  | EmptyString => []
  | String c s' =>
      (if Ascii.eqb c "/"%char && negb (String.eqb cur "") then [cur] else [])
      ++ ancestors_from (cur +:+ String c EmptyString) s'
  end.

Definition ancestors (s : string) : list string := ancestors_from "" s.

(** The directory a file at [s] lies in, [s] up to its last ["/"]:
    empty for a name in the working directory or right under the
    root. *)
Definition parent (s : string) : string := List.last (ancestors s) "".

End Str.

(** ** Tensors

    A 2-D tensor is a list of rows with its number of columns (the
    shape is kept because a tensor without rows still has columns); a
    3-D alignment tensor is indexed [row][column][recycle]. *)

Record Tensor2 := mkT2 { ncols : nat; rows : list (list Z) }.

Record Tensor3 := mkT3 { ncols3 : nat; nrec : nat; rows3 : list (list (list Z)) }.

Inductive Tensor := T2 (t : Tensor2) | T3 (t : Tensor3).

Definition wf2 (t : Tensor2) : Prop :=
  Forall (fun r => length r = ncols t) (rows t).

(** [t[:, :, i]] *)
Definition slice_recycle (t : Tensor3) (i : nat) : res Tensor2 :=
  if i <? nrec t then
    Ok (mkT2 (ncols3 t) (map (map (fun cell => nth i cell 0%Z)) (rows3 t)))
  else Raise IndexError.

(** [t[:, :k]] and [t[:, k:]] *)
Definition cols_to (k : nat) (t : Tensor2) : Tensor2 :=
  mkT2 (Nat.min k (ncols t)) (map (take k) (rows t)).

Definition cols_from (k : nat) (t : Tensor2) : Tensor2 :=
  mkT2 (ncols t - k) (map (drop k) (rows t)).

(** ** [get_msa_stats] *)

Module MsaStats.

Record DataFrame := mkDF {
  df_columns : list string;
  df_rows : list (nat * list nat)   (* index label, one value per column *)
}.

(** [(batch_msa != 0).any(dim=1)] for one row *)
Definition any_nonzero (r : list Z) : bool :=
  existsb (fun x => negb (x =? 0)%Z) r.

(** [batch_msa[mask, :]] *)
Definition keep_masked (t : Tensor2) : Tensor2 :=
  mkT2 (ncols t) (List.filter any_nonzero (rows t)).

(** [~(msa == 21).all(dim=1)] *)
Definition have_msa (t : Tensor2) : list bool :=
  map (fun r => negb (forallb (fun x => (x =? 21)%Z) r)) (rows t).

(** [mask.sum().item()] *)
Definition count_true (l : list bool) : nat :=
  length (List.filter (fun b : bool => b) l).

Definition stat_names : list string :=
  ["paired"; "unpaired_chain_1"; "unpaired_chain_2"].

(** Lines 72-75: the 2-D tensor the statistics of iteration [i] are
    taken from: a 2-D tensor under the prefix ["total_"], taken
    whole, and slice [i] of a 3-D tensor under another prefix;
    [main] calls the function in these two ways.  Indexing a 2-D
    tensor by three indices raises [IndexError].  A 3-D tensor under
    ["total_"] is taken whole as well, and is no 2-D batch:
    [iteration_counts] treats it apart and does not come here. *)
Definition select_batch (all_msa : Tensor) (prefix : string) (i : nat)
  : res Tensor2 :=
  if String.eqb prefix "total_" then
    match all_msa with
    | T2 t => Ok t
    | T3 _ => Raise IndexError
    end
  else
    match all_msa with
    | T2 _ => Raise IndexError
    | T3 t => slice_recycle t i
    end.

(** Lines 76-77 on a 3-D tensor taken whole.  The mask
    [(t != 0).any(dim=1)] has a row per alignment row and a column
    per recycling slice; as an index it is matched against the first
    two dimensions of [t], and [t[mask, :]] raises [IndexError]
    unless [t] has as many columns as recycling slices.  When it
    has, the result is 2-D, with the row [t[r, c, :]] for each
    [mask[r, c]] that holds. *)
Definition mask_whole (t : Tensor3) : res Tensor2 :=
  if ncols3 t =? nrec t then
    Ok (mkT2 (nrec t)
          (flat_map
             (fun row =>
                map (fun c => nth c row [])
                  (List.filter
                     (fun c =>
                        existsb (fun cell => negb (nth c cell 0 =? 0)%Z) row)
                     (seq 0 (ncols3 t))))
             (rows3 t)))
  else Raise IndexError.

(** Lines 78-94: the three counts, from the rows the mask has kept. *)
Definition masked_counts (batch_msa : Tensor2)
    (seq_length_1 seq_length_2 : nat) (if_homo : bool) : res (list nat) :=
  let msa_1 := cols_to seq_length_1 batch_msa in
  res_bind
    (if negb if_homo then
       let msa_2 := cols_from seq_length_1 batch_msa in
       if ncols msa_2 =? seq_length_2 then Ok msa_2 else Raise AssertionError
     else
       if ncols batch_msa =? seq_length_1 then Ok msa_1 else Raise AssertionError)
    (fun msa_2 =>
       let have_msa_1 := have_msa msa_1 in
       let have_msa_2 := have_msa msa_2 in
       let pair_msa := zip_with andb have_msa_1 have_msa_2 in
       let unpair_msa_1 := zip_with xorb have_msa_1 pair_msa in
       let unpair_msa_2 := zip_with xorb have_msa_2 pair_msa in
       Ok [count_true pair_msa; count_true unpair_msa_1; count_true unpair_msa_2]).

(** Lines 76-94 on a 2-D batch. *)
Definition batch_counts (batch_msa : Tensor2)
    (seq_length_1 seq_length_2 : nat) (if_homo : bool) : res (list nat) :=
  masked_counts (keep_masked batch_msa) seq_length_1 seq_length_2 if_homo.

(** Lines 72-94: the three counts of iteration [i]. *)
Definition iteration_counts (all_msa : Tensor)
    (seq_length_1 seq_length_2 : nat) (if_homo : bool) (prefix : string)
    (i : nat) : res (list nat) :=
  match all_msa with
  | T3 t =>
      if String.eqb prefix "total_" then
        res_bind (mask_whole t) (fun batch_msa =>
          masked_counts batch_msa seq_length_1 seq_length_2 if_homo)
      else
        res_bind (select_batch all_msa prefix i) (fun batch_msa =>
          batch_counts batch_msa seq_length_1 seq_length_2 if_homo)
  | T2 _ =>
      res_bind (select_batch all_msa prefix i) (fun batch_msa =>
        batch_counts batch_msa seq_length_1 seq_length_2 if_homo)
  end.

(** The loop over [range(num_recycle)], filling row [i + 1]. *)
Fixpoint stats_rows (all_msa : Tensor) (seq_length_1 seq_length_2 : nat)
    (if_homo : bool) (prefix : string) (idxs : list nat)
  : res (list (nat * list nat)) :=
  match idxs with
  | [] => Ok []
  | i :: idxs' =>
      res_bind
        (iteration_counts all_msa seq_length_1 seq_length_2 if_homo prefix i)
        (fun counts =>
      res_bind (stats_rows all_msa seq_length_1 seq_length_2 if_homo prefix idxs')
        (fun rest => Ok ((i + 1, counts) :: rest)))
  end.

Definition get_msa_stats (all_msa : Tensor) (seq_length_1 seq_length_2 : nat)
    (num_recycle : nat) (if_homo : bool) (prefix : string) : res DataFrame :=
  res_bind
    (stats_rows all_msa seq_length_1 seq_length_2 if_homo prefix
       (seq 0 num_recycle))
    (fun rs =>
       Ok (mkDF (match num_recycle with
                 | 0 => []
                 | _ => map (fun j => prefix +:+ j) stat_names
                 end) rs)).

(** [pd.concat([a; b; c], axis=1)] for frames over the same index. *)
Definition concat_columns (a b : DataFrame) : DataFrame :=
  mkDF (df_columns a ++ df_columns b)
       (zip_with (fun ra rb => (fst ra, snd ra ++ snd rb)) (df_rows a) (df_rows b)).

(** [df.iloc[:k]] *)
Definition iloc_to (k : nat) (d : DataFrame) : DataFrame :=
  mkDF (df_columns d) (take k (df_rows d)).

End MsaStats.

(** ** [round_up_seqlen]

    [int(math.ceil(seqlen / TRACING_INTERVAL)) * TRACING_INTERVAL].
    [round_up_seqlen] takes the quotient exactly, so that its ceiling
    is the integer one; Python takes it in binary64, which
    [round_up_seqlen_float] below follows, and the two agree on every
    length up to [50 * 2 ^ 48] ([round_up_seqlen_least_multiple]).
    [main] rounds the length of a feature array it holds in memory,
    and is given the exact function. *)

Definition TRACING_INTERVAL : nat := 50.

Definition round_up_seqlen (seqlen : nat) : nat :=
  ((seqlen + (TRACING_INTERVAL - 1)) / TRACING_INTERVAL) * TRACING_INTERVAL.

(** Binary64 arithmetic on the quotient of two ints. *)
Module Float64.

Local Open Scope Z_scope.

(** A finite float, [mant * 2 ^ expo]. *)
Record float := mkFloat { mant : Z; expo : Z }.

(** The integer nearest to [num / den], ties to even. *)
Definition nearest_even (num den : Z) : Z :=
  let q := num / den in
  let r := num mod den in
  if 2 * r <? den then q
  else if den <? 2 * r then q + 1
  else if Z.even q then q else q + 1.

(** [floor(log2(a / b))] for [a, b > 0]. *)
Definition log2_quotient (a b : Z) : Z :=
  let e := Z.log2 a - Z.log2 b in
  if (if 0 <=? e then b * 2 ^ e <=? a else b <=? a * 2 ^ (- e))
  then e else e - 1.

(** [a / b] for ints [a >= 0] and [b > 0]: the float nearest to the
    exact quotient, with a significand of 53 bits and an exponent no
    smaller than that of the subnormal numbers; [OverflowError] when
    the rounded quotient is beyond the largest float. *)
Definition true_div (a b : Z) : res float :=
  if a =? 0 then Ok (mkFloat 0 0)
  else
    let e := Z.max (log2_quotient a b - 52) (-1074) in
    let m :=
      if 0 <=? e then nearest_even a (b * 2 ^ e)
      else nearest_even (a * 2 ^ (- e)) b in
    if (0 <=? e) && (2 ^ 1024 <=? m * 2 ^ e) then Raise OverflowError
    else Ok (mkFloat m e).

(** [math.ceil(x)] *)
Definition ceil (x : float) : Z :=
  if 0 <=? expo x then mant x * 2 ^ expo x
  else - ((- mant x) / 2 ^ (- expo x)).

End Float64.

(** Line 157 as Python evaluates it, on ints. *)
Definition round_up_seqlen_float (seqlen : Z) : res Z :=
  res_bind (Float64.true_div seqlen (Z.of_nat TRACING_INTERVAL))
    (fun q => Ok (Float64.ceil q * Z.of_nat TRACING_INTERVAL)%Z).

(** ** Data of the driver *)

Record Args := mkArgs {
  fasta_dir : string;
  use_precomputed_alignments : option string;
  use_single_seq_mode : bool;
  output_dir : string;
  model_device : string;
  config_preset : string;
  save_outputs : bool;
  skip_relaxation : bool;
  trace_model : bool;
  cif_output : bool;
  long_sequence_inference : bool;
  use_deepspeed_evoformer_attention : bool;
  enable_template : bool;
  experiment_config_json : string
}.

(** [args.use_single_seq_mode = True] *)
Definition set_use_single_seq_mode (a : Args) : Args :=
  mkArgs (fasta_dir a) (use_precomputed_alignments a) true (output_dir a)
    (model_device a) (config_preset a) (save_outputs a) (skip_relaxation a)
    (trace_model a) (cif_output a) (long_sequence_inference a)
    (use_deepspeed_evoformer_attention a) (enable_template a)
    (experiment_config_json a).

(** Scalar leaves of the flattened configuration. *)
Inductive Value := VBool (b : bool) | VInt (z : Z) | VStr (s : string) | VNull.

(** Python truthiness, as [not config.data.predict.fixed_size] tests it. *)
Definition truthy (v : Value) : bool :=
  match v with
  | VBool b => b
  | VInt z => negb (z =? 0)%Z
  | VStr s => negb (String.eqb s "")
  | VNull => false
  end.

(** The entries of a feature dictionary the driver reads:
    [feature_dict["aatype"].shape[-2]], [feature_dict["msa"]], and the
    two the diagnostics copy, [feature_dict["num_alignments"]] and
    [feature_dict["num_templates"]], [None] when the key is missing. *)
Record FeatureDict := mkFD {
  aatype_len : nat;
  msa : Tensor2;
  num_alignments : option nat;
  num_templates : option nat
}.

(** [processed_feature_dict["true_msa"]] and [["extra_msa"]]. *)
Record ProcessedFeatureDict := mkPFD {
  true_msa : Tensor3;
  extra_msa : Tensor3
}.

(** The model output: the keys of the dictionary, and
    [out["num_recycles"].item()], read once the key is known to be
    there; the values of the other entries are opaque to the driver. *)
Record Output := mkOut { out_keys : list string; num_recycles : nat }.

Definition Model := string.
Definition Protein := string.

Inductive TemplateSearcher := Hmmsearch | HHSearch.
Inductive TemplateFeaturizer := HmmsearchHitFeaturizer | HhsearchHitFeaturizer.

Inductive DataProcessor :=
  | DataPipeline (template_featurizer : TemplateFeaturizer) (enable : bool)
  | DataPipelineMultimer (monomer_data_pipeline : DataProcessor).

(** Keyword arguments of the two [process_fasta] call sites. *)
Inductive FastaKw := TemplateInfoSaveDir (d : string) | SeqembMode (b : bool).

Inductive Content :=
  | Text (s : string)
  | Table (d : MsaStats.DataFrame)
  | Pickled (what : string).

Record Target := mkTarget {
  tag : string;
  tags : list string;
  seqs : list string;
  file_name : string
}.

(** ** Events

    The trace of a run: the lines it logs or prints, the calls it
    makes into other modules (the pulls on the model generator among
    them) and to [generate_feature_dict], and the stores into the
    feature cache. *)

Inductive Callee :=
  | c_model_config | c_update_from_flattened_dict
  | c_load_models_from_command_line | c_model_generator_next
  | c_embedding_generator_run | c_alignment_runner_run
  | c_generate_feature_dict
  | c_process_fasta | c_process_multiseq_fasta
  | c_pad_feature_dict_seq | c_process_features
  | c_trace_model | c_run_model | c_prep_output
  | c_to_pdb | c_to_modelcif | c_relax_protein.

Inductive Event :=
  | LogGeneratingAlignments (tag : string)
  | LogInferenceStart (file_name : string)
  | LogTracing (rounded_seqlen : nat)
  | LogTracingTime
  | LogRelaxation (file_name : string)
  | LogOutputWritten (dir : string)
  | LogInferenceFinish (file_name : string)
  | LogError (file_name : string)
  | PrintSkipping (fasta_path : string)
  | Called (f : Callee) (key : string)
  | Stored (tag : string).

#[global] Instance Callee_eq_dec : EqDecision Callee.
Proof. solve_decision. Defined.

#[global] Instance Event_eq_dec : EqDecision Event.
Proof. solve_decision. Defined.

(** ** State

    The files and directories the driver reads, creates and removes
    (paths are compared as strings), the event log, and the locals of
    [main] that outlive an exception
    raised in the per-target body: the feature cache [feature_dicts]
    and the tracing variables [rounded_seqlen] (unbound until first
    assigned) and [cur_tracing_interval]. *)

Record St := mkSt {
  files : gmap string Content;
  dirs : gset string;
  log : list Event;
  feature_dicts : gmap string FeatureDict;
  rounded_seqlen : option nat;
  cur_tracing_interval : nat
}.

Definition with_files (f : gmap string Content) (s : St) : St :=
  mkSt f (dirs s) (log s) (feature_dicts s) (rounded_seqlen s) (cur_tracing_interval s).
Definition with_dirs (d : gset string) (s : St) : St :=
  mkSt (files s) d (log s) (feature_dicts s) (rounded_seqlen s) (cur_tracing_interval s).
Definition with_log (l : list Event) (s : St) : St :=
  mkSt (files s) (dirs s) l (feature_dicts s) (rounded_seqlen s) (cur_tracing_interval s).
Definition with_feature_dicts (c : gmap string FeatureDict) (s : St) : St :=
  mkSt (files s) (dirs s) (log s) c (rounded_seqlen s) (cur_tracing_interval s).
Definition with_rounded_seqlen (r : option nat) (s : St) : St :=
  mkSt (files s) (dirs s) (log s) (feature_dicts s) r (cur_tracing_interval s).
Definition with_cur_tracing_interval (n : nat) (s : St) : St :=
  mkSt (files s) (dirs s) (log s) (feature_dicts s) (rounded_seqlen s) n.

Definition initial (f : gmap string Content) : St :=
  mkSt f ∅ [] ∅ None 0.

(** ** The state-and-exception monad

    A computation returns a value or raises, and in both cases leaves
    a state behind: what was written before a [raise] stays written. *)

Definition M (A : Type) : Type := St -> res A * St.

Definition ret {A} (a : A) : M A := fun s => (Ok a, s).

Definition bind {A B} (m : M A) (k : A -> M B) : M B :=
  fun s =>
    match m s with
    | (Ok a, s') => k a s'
    | (Raise e, s') => (Raise e, s')
    end.

Definition raise {A} (e : Exn) : M A := fun s => (Raise e, s).

Definition gets {A} (f : St -> A) : M A := fun s => (Ok (f s), s).

Definition modify (f : St -> St) : M unit := fun s => (Ok tt, f s).

Definition lift {A} (r : res A) : M A := fun s => (r, s).

Notation "x <- m ;; k" := (bind m (fun x => k))
  (at level 100, m at next level, right associativity).
Notation "m ;; k" := (bind m (fun _ => k))
  (at level 100, right associativity).

(** [try: body except Exception: handler] *)
Definition try_except (body : M unit) (handler : Exn -> M unit) : M unit :=
  fun s =>
    match body s with
    | (Ok a, s') => (Ok a, s')
    | (Raise e, s') => handler e s'
    end.

(** [for x in l: body] *)
Fixpoint for_each {A} (l : list A) (body : A -> M unit) : M unit :=
  match l with
  | [] => ret tt
  | x :: l' => body x ;; for_each l' body
  end.

Definition emit (e : Event) : M unit :=
  modify (fun s => with_log (log s ++ [e]) s).

(** A call into another module: it is recorded, and its result may
    depend on everything that has happened so far. *)
Definition call {A} (f : Callee) (key : string) (run : St -> res A) : M A :=
  fun s => (run s, with_log (log s ++ [Called f key]) s).

(** [os.path.isfile(p)], [os.path.isdir(p)] *)
Definition is_file (s : St) (p : string) : bool :=
  bool_decide (is_Some (files s !! p)).

Definition is_dir (s : St) (p : string) : bool :=
  bool_decide (p ∈ dirs s).

(** On the way down [chain], the path that comes right after the
    first regular file: the directory that cannot be made. *)
Fixpoint below_file (s : St) (chain : list string) : option string :=
  match chain with
  | [] => None
  | p :: chain' => if is_file s p then head chain' else below_file s chain'
  end.

(** [os.makedirs(path, exist_ok=exist_ok)]: the directory and those
    above it are created.  It raises when a directory above the path
    is a regular file ([mkdir] fails on the directory right below
    it), when the path itself is a regular file, and, without
    [exist_ok], when the directory is already there. *)
Definition makedirs (path : string) (exist_ok : bool) : M unit :=
  fun s =>
    if String.eqb path "" then (Raise (FileNotFoundError path), s)
    else
      match below_file s (Str.ancestors path ++ [path]) with
      | Some p => (Raise (NotADirectoryError p), s)
      | None =>
          if is_file s path || (negb exist_ok && is_dir s path)
          then (Raise (FileExistsError path), s)
          else
            (Ok tt,
             with_dirs ({[path]} ∪ list_to_set (Str.ancestors path) ∪ dirs s) s)
      end.

(** [open(path, "w")]: the file is created, or emptied.  It raises
    when the path is a directory, when a directory above it is a
    regular file, and when the directory the file lies in is
    missing. *)
Definition open_w (path : string) : M unit :=
  fun s =>
    let dir := Str.parent path in
    if String.eqb path "" then (Raise (FileNotFoundError path), s)
    else if is_dir s path then (Raise (IsADirectoryError path), s)
    else if existsb (is_file s) (Str.ancestors path)
    then (Raise (NotADirectoryError path), s)
    else if String.eqb dir "" || is_dir s dir
    then (Ok tt, with_files (<[path := Text ""]> (files s)) s)
    else (Raise (FileNotFoundError path), s).

(** [fp.write(content)] on the file opened at [path], up to the end of
    its [with] block. *)
Definition fp_write (path : string) (c : Content) : M unit :=
  modify (fun s => with_files (<[path := c]> (files s)) s).

(** [with open(path, "w") as fp: fp.write(content)] *)
Definition write_file (path : string) (c : Content) : M unit :=
  open_w path ;;
  fp_write path c.

(** What [open(path, "r")] raises where there is no file. *)
Definition no_file_error (s : St) (path : string) : Exn :=
  if is_dir s path then IsADirectoryError path
  else if existsb (is_file s) (Str.ancestors path) then NotADirectoryError path
  else FileNotFoundError path.

(** [with open(path, "r") as fp: fp.read()].  The files the driver
    reads are text; a pickle or a table is kept as what was written,
    not as bytes, and reading one is given as the decoding error of a
    binary file, a [ValueError]. *)
Definition read_file (path : string) : M string :=
  fun s =>
    match files s !! path with
    | Some (Text data) => (Ok data, s)
    | Some _ => (Raise (ValueError "invalid start byte"), s)
    | None => (Raise (no_file_error s path), s)
    end.

(** [os.remove(path)]; without a file at the path it raises as [open]
    does. *)
Definition remove (path : string) : M unit :=
  fun s =>
    match files s !! path with
    | Some _ => (Ok tt, with_files (delete path (files s)) s)
    | None => (Raise (no_file_error s path), s)
    end.

(** ** The imported modules

    Results of the functions the script imports.  None of them is
    defined in the script; each is given the state at the time of the
    call, so that its result can vary from one call to the next.  The
    files they write themselves (alignments, relaxed structures) are
    not part of [files]. *)

(** The generator [load_models_from_command_line] returns, as the
    pulls the [for] statement of line 303 can make on it, in order.
    Each pull runs when the loop asks for the next model, in the state
    of that time: it yields a (model, output directory) pair, finds the
    generator exhausted ([None]), or raises what loading the model
    raises. *)
Definition ModelGenerator : Type :=
  list (St -> res (option (Model * string))).

Record Ext := mkExt {
  getpid : string;
  listdir : St -> string -> res (list string);
  parse_fasta : string -> list string * list string;
  model_config : St -> string -> bool -> bool -> res (gmap string Value);
  json_load : string -> res (gmap string Value);
  load_models_from_command_line :
    St -> gmap string Value -> Args -> res ModelGenerator;
  embedding_generator_run : St -> string -> string -> res unit;
  alignment_runner_run :
    St -> TemplateSearcher -> bool -> string -> string -> res unit;
  process_fasta :
    St -> DataProcessor -> string -> string -> FastaKw -> res FeatureDict;
  process_multiseq_fasta :
    St -> DataProcessor -> string -> string -> res FeatureDict;
  pad_feature_dict_seq : St -> FeatureDict -> nat -> res FeatureDict;
  process_features : St -> FeatureDict -> bool -> res ProcessedFeatureDict;
  trace_model_ : St -> Model -> ProcessedFeatureDict -> res unit;
  run_model :
    St -> Model -> ProcessedFeatureDict -> string -> string -> res Output;
  prep_output :
    St -> Output -> ProcessedFeatureDict -> FeatureDict -> string -> res Protein;
  to_pdb : St -> Protein -> res string;
  to_modelcif : St -> Protein -> res string;
  relax_protein : St -> Protein -> string -> string -> string -> bool -> res unit
}.

(** Modelled from the spec: [config.update_from_flattened_dict], a
    method of the configuration object that [openfold.config] builds;
    the configuration is taken flattened, as a map from dotted key to
    scalar leaf, and the overlay overwrites the leaves it names. *)
Definition update_from_flattened_dict
    (custom_config_dict config : gmap string Value) : gmap string Value :=
  custom_config_dict ∪ config.

Section Driver.

Context (E : Ext).

(** [os.path.join(args.output_dir, f"tmp_{os.getpid()}.fasta")] *)
Definition tmp_fasta_path (args : Args) : string :=
  Str.path_join (output_dir args) ("tmp_" +:+ getpid E +:+ ".fasta").

(** [f">{tag}\n{seq}"] *)
Definition fasta_record (tag seq : string) : string :=
  ">" +:+ tag +:+ Str.newline +:+ seq.

Definition precompute_alignments (tags seqs : list string)
    (alignment_dir : string) (args : Args) : M unit :=
  for_each (zip tags seqs) (fun '(tag, seq) =>
    let tmp_fasta_path := tmp_fasta_path args in
    write_file tmp_fasta_path (Text (fasta_record tag seq)) ;;
    let local_alignment_dir := Str.path_join alignment_dir tag in
    match use_precomputed_alignments args with
    | None =>
        emit (LogGeneratingAlignments tag) ;;
        makedirs local_alignment_dir true ;;
        let template_searcher :=
          if Str.contains "multimer" (config_preset args)
          then Hmmsearch else HHSearch in
        (if use_single_seq_mode args then
           call c_embedding_generator_run tag
             (fun s => embedding_generator_run E s tmp_fasta_path alignment_dir)
         else ret tt) ;;
        call c_alignment_runner_run tag
          (fun s => alignment_runner_run E s template_searcher
                      (use_single_seq_mode args)
                      tmp_fasta_path local_alignment_dir)
    | Some _ => ret tt (* logger.debug: below the INFO level of the logger *)
    end ;;
    (* Remove temporary FASTA file *)
    remove tmp_fasta_path).

(** [l[0]] *)
Definition first {A} (l : list A) : M A :=
  match l with
  | x :: _ => ret x
  | [] => raise IndexError
  end.

Definition multi_fasta (tags seqs : list string) : string :=
  Str.join Str.newline (zip_with fasta_record tags seqs).

Definition generate_feature_dict (tags seqs : list string)
    (alignment_dir : string) (data_processor : DataProcessor) (args : Args)
    (template_save_dir : string) : M FeatureDict :=
  let tmp_fasta_path := tmp_fasta_path args in
  feature_dict <-
    (if Str.contains "multimer" (config_preset args) then
       write_file tmp_fasta_path (Text (multi_fasta tags seqs)) ;;
       call c_process_fasta tmp_fasta_path
         (fun s => process_fasta E s data_processor tmp_fasta_path
                     alignment_dir (TemplateInfoSaveDir template_save_dir))
     else if length seqs =? 1 then
       tag <- first tags ;;
       seq <- first seqs ;;
       write_file tmp_fasta_path (Text (fasta_record tag seq)) ;;
       let local_alignment_dir := Str.path_join alignment_dir tag in
       call c_process_fasta tmp_fasta_path
         (fun s => process_fasta E s data_processor tmp_fasta_path
                     local_alignment_dir (SeqembMode (use_single_seq_mode args)))
     else
       write_file tmp_fasta_path (Text (multi_fasta tags seqs)) ;;
       call c_process_multiseq_fasta tmp_fasta_path
         (fun s => process_multiseq_fasta E s data_processor tmp_fasta_path
                     alignment_dir)) ;;
  (* Remove temporary FASTA file *)
  remove tmp_fasta_path ;;
  ret feature_dict.

(** [[f for f in os.listdir(dir) if f.endswith(extensions)]] *)
Definition list_files_with_extensions (dir : string)
    (extensions : list string) : M (list string) :=
  fs <- (fun s => (listdir E s dir, s)) ;;
  ret (List.filter (fun f => existsb (fun e => Str.endswith e f) extensions) fs).

(** *** Target discovery and ordering *)

(** [seq_sort_fn]: [sum([len(s) for s in target[1]])] *)
Definition seq_sort_fn (t : Target) : nat :=
  list_sum (map String.length (seqs t)).

(** [sorted(l, key=key)].  Python's sort is stable, and a stable sort
    has one possible result, the one insertion from the right gives. *)
Fixpoint insert_by {A} (key : A -> nat) (x : A) (l : list A) : list A :=
  match l with
  | [] => [x]
  | y :: l' =>
      if key x <=? key y then x :: y :: l' else y :: insert_by key x l'
  end.

Fixpoint sorted {A} (key : A -> nat) (l : list A) : list A :=
  match l with
  | [] => []
  | x :: l' => insert_by key x (sorted key l')
  end.

(** Lines 272-294.  [tag_list], [seq_list] and [file_list] grow in
    step, so their [zip] is the list of targets built here. *)
Fixpoint gather (args : Args) (is_multimer : bool)
    (fasta_files : list string) (targets : list Target)
  : M (list Target) :=
  match fasta_files with
  | [] => ret targets
  | fasta_file :: rest =>
      let fasta_path := Str.path_join (fasta_dir args) fasta_file in
      data <- read_file fasta_path ;;
      let '(tags, seqs) := parse_fasta E data in
      if negb is_multimer && negb (length tags =? 1) then
        emit (PrintSkipping fasta_path) ;;
        gather args is_multimer rest targets
      else
        let tag := Str.join "-" tags in
        gather args is_multimer rest
          (targets ++ [mkTarget tag tags seqs (Str.before_dot fasta_file)])
  end.

(** *** Configuration (lines 206-224) *)

(** One of the two [if args.experiment_config_json:] blocks. *)
Definition overlay_block (args : Args) (config : gmap string Value)
  : M (gmap string Value) :=
  if negb (String.eqb (experiment_config_json args) "") then
    data <- read_file (experiment_config_json args) ;;
    custom_config_dict <- lift (json_load E data) ;;
    call c_update_from_flattened_dict (experiment_config_json args)
      (fun _ => Ok (update_from_flattened_dict custom_config_dict config))
  else ret config.

Definition fixed_size_key : string := "data.predict.fixed_size".

(** Lines 206-220: the preset's configuration and the two overlays. *)
Definition configure (args : Args) : M (gmap string Value) :=
  config <- call c_model_config (config_preset args)
              (fun s => model_config E s (config_preset args)
                          (long_sequence_inference args)
                          (use_deepspeed_evoformer_attention args)) ;;
  config <- overlay_block args config ;;
  overlay_block args config.

Definition tracing_error : Exn :=
  ValueError "Tracing requires that fixed_size mode be enabled in the config".

(** Lines 222-224. *)
Definition check_tracing (args : Args) (config : gmap string Value) : M unit :=
  if trace_model args then
    match config !! fixed_size_key with
    | None => raise (AttributeError fixed_size_key)
    | Some v => if negb (truthy v) then raise tracing_error else ret tt
    end
  else ret tt.

Definition load_config (args : Args) : M (gmap string Value) :=
  config <- configure args ;;
  check_tracing args config ;;
  ret config.

(** *** The per-target body (lines 307-458) *)

(** [seq_length_1, seq_length_2 = map(len, seqs)] *)
Definition unpack2 (l : list nat) : M (nat * nat) :=
  match l with
  | [a; b] => ret (a, b)
  | a :: b :: _ :: _ =>
      raise (ValueError "too many values to unpack (expected 2)")
  | _ => raise (ValueError "not enough values to unpack (expected 2)")
  end.

Definition unrelaxed_file_suffix (args : Args) : string :=
  if cif_output args then "unrelaxed.cif" else "unrelaxed.pdb".

Definition final_output_dir (args : Args) (output_directory : string)
    (t : Target) : string :=
  Str.path_join (Str.path_join output_directory (config_preset args))
    (file_name t).

Definition unrelaxed_output_path (args : Args) (output_directory : string)
    (t : Target) : string :=
  Str.path_join (final_output_dir args output_directory t)
    (unrelaxed_file_suffix args).

(** Lines 320-330: the record is assembled and, when tracing, padded
    to its bucket. *)
Definition build_feature_dict (args : Args) (alignment_dir : string)
    (data_processor : DataProcessor) (final_output_dir : string)
    (t : Target) : M FeatureDict :=
  emit (Called c_generate_feature_dict (tag t)) ;;
  feature_dict <-
    generate_feature_dict (tags t) (seqs t) alignment_dir
      data_processor args final_output_dir ;;
  if trace_model args then
    let n := aatype_len feature_dict in
    modify (with_rounded_seqlen (Some (round_up_seqlen n))) ;;
    call c_pad_feature_dict_seq (tag t)
      (fun s => pad_feature_dict_seq E s feature_dict (round_up_seqlen n))
  else ret feature_dict.

(** Lines 318-332: the record of the tag, from the cache, or built
    and stored. *)
Definition cached_feature_dict (args : Args) (alignment_dir : string)
    (data_processor : DataProcessor) (final_output_dir : string)
    (t : Target) : M FeatureDict :=
  cached <- gets (fun s => feature_dicts s !! tag t) ;;
  match cached with
  | Some feature_dict => ret feature_dict
  | None =>
      feature_dict <-
        build_feature_dict args alignment_dir data_processor
          final_output_dir t ;;
      modify (fun s =>
        with_feature_dicts (<[tag t := feature_dict]> (feature_dicts s)) s) ;;
      emit (Stored (tag t)) ;;
      ret feature_dict
  end.

(** Lines 378-385. *)
Definition maybe_trace (args : Args) (model : Model)
    (processed_feature_dict : ProcessedFeatureDict) : M unit :=
  if trace_model args then
    bound <- gets rounded_seqlen ;;
    match bound with
    | None => raise (UnboundLocalError "rounded_seqlen")
    | Some rounded_seqlen =>
        cur <- gets cur_tracing_interval ;;
        if cur <? rounded_seqlen then
          emit (LogTracing rounded_seqlen) ;;
          call c_trace_model model
            (fun s => trace_model_ E s model processed_feature_dict) ;;
          emit LogTracingTime ;;
          modify (with_cur_tracing_interval rounded_seqlen)
        else ret tt
    end
  else ret tt.

(** The keys of [out] the diagnostics copy (lines 434-437). *)
Definition metric_keys : list string :=
  ["plddt"; "ptm_score"; "iptm_score"; "predicted_aligned_error";
   "num_recycles"; "tm_logits"].

(** [{k: d[k] for k in keys}]: the first key the dictionary lacks
    raises. *)
Definition index_keys (keys have : list string) : M unit :=
  match List.find (fun k => negb (bool_decide (k ∈ have))) keys with
  | Some k => raise (KeyError k)
  | None => ret tt
  end.

(** [d[key]] *)
Definition getitem {A} (key : string) (entry : option A) : M A :=
  match entry with
  | Some a => ret a
  | None => raise (KeyError key)
  end.

(** Lines 427-458. *)
Definition save_all_outputs (final_output_dir : string) (t : Target)
    (feature_dict : FeatureDict) (msa_stats : MsaStats.DataFrame)
    (out : Output) : M unit :=
  let output_metric_dir := Str.path_join final_output_dir "analysis" in
  makedirs output_metric_dir true ;;
  let output_tmp_dir := Str.path_join final_output_dir "tmp" in
  makedirs output_tmp_dir true ;;
  (* save metrics *)
  index_keys metric_keys (out_keys out) ;;
  getitem "num_alignments" (num_alignments feature_dict) ;;
  getitem "num_templates" (num_templates feature_dict) ;;
  write_file (Str.path_join output_metric_dir "metric_dict.pkl")
    (Pickled "output_metrics") ;;
  (* save msa stats *)
  write_file (Str.path_join output_metric_dir "msa_stats.csv")
    (Table (MsaStats.iloc_to (num_recycles out) msa_stats)) ;;
  (* save raw msa info *)
  write_file (Str.path_join output_tmp_dir "raw_msa.pkl")
    (Pickled "raw_msa") ;;
  emit (LogOutputWritten final_output_dir) ;;
  emit (LogInferenceFinish (file_name t)).

(** Lines 403-412: the unrelaxed structure file.  [open] creates the
    file before the encoder runs. *)
Definition write_unrelaxed (args : Args) (output_directory : string)
    (t : Target) (unrelaxed_protein : Protein) : M unit :=
  let unrelaxed_output_path := unrelaxed_output_path args output_directory t in
  open_w unrelaxed_output_path ;;
  encoded <-
    (if cif_output args then
       call c_to_modelcif (tag t) (fun s => to_modelcif E s unrelaxed_protein)
     else
       call c_to_pdb (tag t) (fun s => to_pdb E s unrelaxed_protein)) ;;
  fp_write unrelaxed_output_path (Text encoded).

(** Lines 334-401: the processed features, the alignment statistics,
    the tracing, the model and the unrelaxed protein. *)
Definition predict (args : Args) (is_multimer : bool) (model : Model)
    (t : Target) (feature_dict : FeatureDict)
  : M (MsaStats.DataFrame * Output * Protein) :=
  processed_feature_dict <-
    call c_process_features (tag t)
      (fun s => process_features E s feature_dict is_multimer) ;;
  let total_msas := msa feature_dict in
  let msas := true_msa processed_feature_dict in
  let extra_msas := extra_msa processed_feature_dict in
  let num_recycle := nrec msas in
  lengths <- unpack2 (map String.length (seqs t)) ;;
  let '(seq_length_1, seq_length_2) := lengths in
  let if_homo := false in
  let get_msa_stats_ all_msa prefix :=
    lift (MsaStats.get_msa_stats all_msa seq_length_1 seq_length_2
            num_recycle if_homo prefix) in
  stats_total <- get_msa_stats_ (T2 total_msas) "total_" ;;
  stats_used <- get_msa_stats_ (T3 msas) "" ;;
  stats_extra <- get_msa_stats_ (T3 extra_msas) "extra_" ;;
  let msa_stats :=
    MsaStats.concat_columns (MsaStats.concat_columns stats_total stats_used)
      stats_extra in
  maybe_trace args model processed_feature_dict ;;
  out <- call c_run_model (tag t)
           (fun s => run_model E s model processed_feature_dict (tag t)
                       (output_dir args)) ;;
  unrelaxed_protein <-
    call c_prep_output (tag t)
      (fun s => prep_output E s out processed_feature_dict feature_dict
                  (config_preset args)) ;;
  ret (msa_stats, out, unrelaxed_protein).

(** Lines 414-458: the relaxation and the diagnostics. *)
Definition relax_and_save (args : Args) (output_directory : string)
    (t : Target) (feature_dict : FeatureDict)
    (msa_stats : MsaStats.DataFrame) (out : Output)
    (unrelaxed_protein : Protein) : M unit :=
  let final_output_dir := final_output_dir args output_directory t in
  (if negb (skip_relaxation args) then
     (* Relax the prediction. *)
     emit (LogRelaxation (file_name t)) ;;
     call c_relax_protein (tag t)
       (fun s => relax_protein E s unrelaxed_protein output_directory
                   (file_name t) (config_preset args) (cif_output args))
   else ret tt) ;;
  (if save_outputs args then
     save_all_outputs final_output_dir t feature_dict msa_stats out
   else ret tt).

(** Lines 334-458: everything after the feature record is in hand. *)
Definition infer_and_write (args : Args) (is_multimer : bool)
    (model : Model) (output_directory : string) (t : Target)
    (feature_dict : FeatureDict) : M unit :=
  prediction <- predict args is_multimer model t feature_dict ;;
  let '(msa_stats, out, unrelaxed_protein) := prediction in
  write_unrelaxed args output_directory t unrelaxed_protein ;;
  relax_and_save args output_directory t feature_dict msa_stats out
    unrelaxed_protein.

Definition target_body (args : Args) (is_multimer : bool)
    (alignment_dir : string) (data_processor : DataProcessor)
    (model : Model) (output_directory : string) (t : Target) : M unit :=
  let final_output_dir := final_output_dir args output_directory t in
  makedirs final_output_dir true ;;
  emit (LogInferenceStart (file_name t)) ;;
  (* Does nothing if the alignments have already been computed *)
  precompute_alignments (tags t) (seqs t) alignment_dir args ;;
  feature_dict <-
    cached_feature_dict args alignment_dir data_processor final_output_dir t ;;
  infer_and_write args is_multimer model output_directory t feature_dict.

(** Lines 306 and 459-463: the per-target [try]/[except]. *)
Definition guarded_target (args : Args) (is_multimer : bool)
    (alignment_dir : string) (data_processor : DataProcessor)
    (model : Model) (output_directory : string) (t : Target) : M unit :=
  try_except
    (target_body args is_multimer alignment_dir data_processor
       model output_directory t)
    (fun _ => emit (LogError (file_name t))).

(** Lines 303-305: the loops over the models and the targets.  The
    [for] statement pulls the next model from the generator, outside
    every [try]: a pull that raises ends [main]. *)
Fixpoint run_models (args : Args) (is_multimer : bool)
    (alignment_dir : string) (data_processor : DataProcessor)
    (model_generator : ModelGenerator) (sorted_targets : list Target)
  : M unit :=
  match model_generator with
  | [] => ret tt
  | next :: model_generator' =>
      item <- call c_model_generator_next (config_preset args) next ;;
      match item with
      | None => ret tt
      | Some (model, output_directory) =>
          modify (with_cur_tracing_interval 0) ;;
          for_each sorted_targets
            (guarded_target args is_multimer alignment_dir data_processor
               model output_directory) ;;
          run_models args is_multimer alignment_dir data_processor
            model_generator' sorted_targets
      end
  end.

(** *** [main] *)

(** What [main] has fixed when it enters the loops. *)
Record Setup := mkSetup {
  su_args : Args;
  su_is_multimer : bool;
  su_alignment_dir : string;
  su_data_processor : DataProcessor;
  su_model_generator : ModelGenerator;
  su_sorted_targets : list Target
}.

(** Lines 200-301.  The random seeds and the constructors of
    featurizers and pipelines only configure the imported modules.
    Line 299 only obtains the model generator: no model is loaded
    before the loop asks for one. *)
Definition startup (args : Args) : M Setup :=
  (* Create the output directory *)
  makedirs (output_dir args) true ;;
  let args :=
    if String.prefix "seq" (config_preset args)
    then set_use_single_seq_mode args else args in
  config <- load_config args ;;
  let is_multimer := Str.contains "multimer" (config_preset args) in
  let template_featurizer :=
    if is_multimer then HmmsearchHitFeaturizer else HhsearchHitFeaturizer in
  let data_processor :=
    DataPipeline template_featurizer (enable_template args) in
  let data_processor :=
    if is_multimer then DataPipelineMultimer data_processor
    else data_processor in
  let output_dir_base := output_dir args in
  exists_base <-
    gets (fun s => is_dir s output_dir_base || is_file s output_dir_base) ;;
  (if negb exists_base then makedirs output_dir_base false else ret tt) ;;
  let alignment_dir :=
    match use_precomputed_alignments args with
    | None => Str.path_join output_dir_base "alignments"
    | Some d => d
    end in
  fasta_files <- list_files_with_extensions (fasta_dir args) [".fasta"; ".fa"] ;;
  targets <- gather args is_multimer fasta_files [] ;;
  let sorted_targets := sorted seq_sort_fn targets in
  modify (with_feature_dicts ∅) ;;
  model_generator <-
    call c_load_models_from_command_line (config_preset args)
      (fun s => load_models_from_command_line E s config args) ;;
  ret (mkSetup args is_multimer alignment_dir data_processor model_generator
         sorted_targets).

Definition main (args : Args) : M unit :=
  su <- startup args ;;
  run_models (su_args su) (su_is_multimer su) (su_alignment_dir su)
    (su_data_processor su) (su_model_generator su) (su_sorted_targets su).

End Driver.

(** ** The specification's words, for comparison with the code *)

(** The alignment statistics as the specification states them: rows
    that are entirely the padding value 0 are dropped; a row is present
    in a chain when not all of its positions in the chain's column
    range are the gap value 21. *)
Module StatsSpec.

Definition is_padding (r : list Z) : bool :=
  forallb (fun x => (x =? 0)%Z) r.

Definition retained (rs : list (list Z)) : list (list Z) :=
  List.filter (fun r => negb (is_padding r)) rs.

(** present in the chain whose columns are [lo, hi) *)
Definition present (lo hi : nat) (r : list Z) : bool :=
  negb (forallb (fun j => (nth j r 0 =? 21)%Z) (seq lo (hi - lo))).

Definition count (p : list Z -> bool) (rs : list (list Z)) : nat :=
  length (List.filter p (retained rs)).

Definition paired (l1 l2 : nat) (rs : list (list Z)) : nat :=
  count (fun r => present 0 l1 r && present l1 (l1 + l2) r) rs.

Definition unpaired_chain_1 (l1 l2 : nat) (rs : list (list Z)) : nat :=
  count (fun r => present 0 l1 r && negb (present l1 (l1 + l2) r)) rs.

Definition unpaired_chain_2 (l1 l2 : nat) (rs : list (list Z)) : nat :=
  count (fun r => negb (present 0 l1 r) && present l1 (l1 + l2) r) rs.

End StatsSpec.

(** The compilation cache as the specification states it: one scalar,
    the largest bucket seen, fresh for each model; recompilation when
    the current target's bucket strictly exceeds it. *)
Module CompilationCacheSpec.

Definition shouldRecompile (largest currentBucket : nat) : bool :=
  largest <? currentBucket.

(** The buckets at which one model recompiles, over its targets. *)
Fixpoint triggers (largest : nat) (buckets : list nat) : list nat :=
  match buckets with
  | [] => []
  | b :: bs =>
      if shouldRecompile largest b then b :: triggers b bs
      else triggers largest bs
  end.

Definition run (models : list Model) (buckets : list nat)
  : list (Model * nat) :=
  flat_map (fun m => map (pair m) (triggers 0 buckets)) models.

End CompilationCacheSpec.

(** ** Reading the event log *)

Definition inference_starts (l : list Event) : list string :=
  omap (fun e => match e with LogInferenceStart f => Some f | _ => None end) l.

Definition logged_errors (l : list Event) : list string :=
  omap (fun e => match e with LogError f => Some f | _ => None end) l.

Definition calls_of (f : Callee) (l : list Event) : list string :=
  omap (fun e => match e with
                 | Called g key => if decide (g = f) then Some key else None
                 | _ => None
                 end) l.

(** The models traced, each with the bucket its log line names. *)
Fixpoint traced (l : list Event) : list (Model * nat) :=
  match l with
  | LogTracing n :: ((Called c_trace_model m :: _) as l') => (m, n) :: traced l'
  | _ :: l' => traced l'
  | [] => []
  end.

(** Events of the start-up phase, before the loops over models and
    targets. *)
Definition startup_event (e : Event) : bool :=
  match e with
  | Called c_model_config _ | Called c_update_from_flattened_dict _
  | Called c_load_models_from_command_line _ | PrintSkipping _ => true
  | _ => false
  end.

(** ** Fixtures

    A small instance of the imported modules, for running the driver
    on concrete batches: a line-based FASTA reader, feature records
    whose alignment has one row, and calls that fail on request. *)

Module Fixture.

(** The lines of a text. *)
Fixpoint lines_from (cur s : string) : list string :=
  match s with
  | EmptyString => [cur]
  | String c s' =>
      if Ascii.eqb c (Ascii.ascii_of_nat 10) then cur :: lines_from "" s'
      else lines_from (cur +:+ String c EmptyString) s'
  end.

Fixpoint read_records (ls : list string) (tags seqs : list string)
  : list string * list string :=
  match ls with
  | [] => (reverse tags, reverse seqs)
  | String ">" name :: ls' => read_records ls' (name :: tags) ("" :: seqs)
  | l :: ls' =>
      match seqs with
      | [] => read_records ls' tags seqs
      | q :: qs => read_records ls' tags ((q +:+ l) :: qs)
      end
  end.

Definition read_fasta (data : string) : list string * list string :=
  read_records (lines_from "" data) [] [].

Definition residues (data : string) : nat :=
  list_sum (map String.length (snd (read_fasta data))).

(** A sequence of [n] alanines. *)
Definition poly_a (n : nat) : string :=
  string_of_list_ascii (repeat "A"%char n).

Definition features (n : nat) : FeatureDict :=
  mkFD n (mkT2 n [repeat 1%Z n]) (Some 1) (Some 0).

Definition padded (fd : FeatureDict) (n : nat) : FeatureDict :=
  mkFD n
    (mkT2 n (map (fun r => r ++ repeat 0%Z (n - length r)) (rows (msa fd))))
    (num_alignments fd) (num_templates fd).

Definition processed (fd : FeatureDict) : ProcessedFeatureDict :=
  let t := mkT3 (ncols (msa fd)) 1 (map (map (fun x => [x])) (rows (msa fd))) in
  mkPFD t t.

Definition features_of_file (s : St) (fasta_path : string) : res FeatureDict :=
  match files s !! fasta_path with
  | Some (Text data) => Ok (features (residues data))
  | _ => Raise (FileNotFoundError fasta_path)
  end.

Definition failure : Exn := ExternalError "failed".

(** Which of the calls fail, always. *)
Record Faults := mkFaults {
  alignment_fails : bool;
  assembly_fails : bool
}.

Definition no_faults : Faults := mkFaults false false.

(** The generator that yields the given pairs, each load succeeding. *)
Definition yields (models : list (Model * string)) : ModelGenerator :=
  map (fun m _ => Ok (Some m)) models.

Definition ext_from (fasta_files : list string) (config : gmap string Value)
    (model_generator : ModelGenerator) (faults : Faults) : Ext :=
  {| getpid := "4242";
     listdir := fun _ _ => Ok fasta_files;
     parse_fasta := read_fasta;
     model_config := fun _ _ _ _ => Ok config;
     json_load := fun _ =>
       Ok {[ "data.predict.fixed_size" := VBool true ]};
     load_models_from_command_line := fun _ _ _ => Ok model_generator;
     embedding_generator_run := fun _ _ _ => Ok tt;
     alignment_runner_run := fun _ _ _ _ _ =>
       if alignment_fails faults then Raise failure else Ok tt;
     process_fasta := fun s _ fasta_path _ _ =>
       if assembly_fails faults then Raise failure
       else features_of_file s fasta_path;
     process_multiseq_fasta := fun s _ fasta_path _ =>
       if assembly_fails faults then Raise failure
       else features_of_file s fasta_path;
     pad_feature_dict_seq := fun _ fd n => Ok (padded fd n);
     process_features := fun _ fd _ => Ok (processed fd);
     trace_model_ := fun _ _ _ => Ok tt;
     run_model := fun _ _ _ _ _ => Ok (mkOut metric_keys 1);
     prep_output := fun _ _ _ _ _ => Ok "protein";
     to_pdb := fun _ _ => Ok "ATOM";
     to_modelcif := fun _ _ => Ok "data_";
     relax_protein := fun _ _ _ _ _ _ => Ok tt |}.

Definition ext (fasta_files : list string) (config : gmap string Value)
    (models : list (Model * string)) (faults : Faults) : Ext :=
  ext_from fasta_files config (yields models) faults.


Definition base_args : Args :=
  {| fasta_dir := "in";
     use_precomputed_alignments := None;
     use_single_seq_mode := false;
     output_dir := "out";
     model_device := "cpu";
     config_preset := "model_1";
     save_outputs := false;
     skip_relaxation := true;
     trace_model := false;
     cif_output := false;
     long_sequence_inference := false;
     use_deepspeed_evoformer_attention := false;
     enable_template := false;
     experiment_config_json := "" |}.

Definition fasta (records : list (string * string)) : Content :=
  Text (Str.join Str.newline
          (map (fun r => fasta_record (fst r) (snd r)) records)).

(** One file with one chain of 50 residues. *)
Definition single_batch : St :=
  initial {[ "in/t1.fasta" := fasta [("t1", poly_a 50)] ]}.

Definition one_model : list (Model * string) := [("m1", "out")].
Definition two_models : list (Model * string) := [("m1", "out"); ("m2", "out")].

Definition single_ext (models : list (Model * string)) (faults : Faults) : Ext :=
  ext ["t1.fasta"] ∅ models faults.

(** Two files with two chains each, of 100 and of 50 residues. *)
Definition pair_batch : St :=
  initial {[ "in/a.fasta" := fasta [("a1", poly_a 50); ("a2", poly_a 50)];
             "in/b.fasta" := fasta [("b1", poly_a 25); ("b2", poly_a 25)] ]}.

Definition fixed_size (b : bool) : gmap string Value :=
  {[ "data.predict.fixed_size" := VBool b ]}.

Definition pair_ext (config : gmap string Value) : Ext :=
  ext ["a.fasta"; "b.fasta"; "notes.txt"] config two_models no_faults.

Definition multimer_args (tracing : bool) (json : string) : Args :=
  {| fasta_dir := "in";
     use_precomputed_alignments := None;
     use_single_seq_mode := false;
     output_dir := "out";
     model_device := "cpu";
     config_preset := "model_1_multimer_v3";
     save_outputs := false;
     skip_relaxation := true;
     trace_model := tracing;
     cif_output := false;
     long_sequence_inference := false;
     use_deepspeed_evoformer_attention := false;
     enable_template := false;
     experiment_config_json := json |}.

Definition target_a : Target :=
  mkTarget "a1-a2" ["a1"; "a2"] [poly_a 50; poly_a 50] "a".
Definition target_b : Target :=
  mkTarget "b1-b2" ["b1"; "b2"] [poly_a 25; poly_a 25] "b".


Definition single_target : Target :=
  mkTarget "t1" ["t1"] [poly_a 50] "t1".

(** An override file, and the state that holds it. *)
Definition override_text : string := "{data.predict.fixed_size: true}".

Definition override_batch : St :=
  with_files (<["cfg.json" := Text override_text]> (files pair_batch))
    pair_batch.

(** The planted pattern: chains of 2 and 3 residues; three rows
    present in both chains, two present only in chain 1, one padding
    row. *)
Definition planted : Tensor3 :=
  mkT3 5 1
    (map (map (fun x => [x]))
       [[ 1; 2; 3; 4; 5]; [ 7;21;21; 9;21]; [21; 3; 21;21; 8];
        [ 4; 4;21;21;21]; [21; 6;21;21;21]; [ 0; 0; 0; 0; 0]])%Z.

End Fixture.


(** ** Relations between states *)

(** A relation between the state before and the state after that every
    step of a computation respects, whether it returns or raises.  The
    relation [R] allows the events in [P], any change of the files and
    directories, and any change of the two tracing variables. *)
Record allows (R : St -> St -> Prop) (P : Event -> Prop) : Prop := mkAllows {
  a_refl : forall s, R s s;
  a_trans : forall s1 s2 s3, R s1 s2 -> R s2 s3 -> R s1 s3;
  a_log : forall s e, P e -> R s (with_log (log s ++ [e]) s);
  a_files : forall s f, R s (with_files f s);
  a_dirs : forall s d, R s (with_dirs d s);
  a_rounded : forall s r, R s (with_rounded_seqlen r s);
  a_cur : forall s n, R s (with_cur_tracing_interval n s)
}.

Definition steps (R : St -> St -> Prop) {A} (m : M A) : Prop :=
  forall s, R s (m s).2.

(** The events of lines 334-458. *)
Definition inference_event (e : Event) : bool :=
  match e with
  | LogTracing _ | LogTracingTime | LogRelaxation _ | LogOutputWritten _
  | LogInferenceFinish _
  | Called c_process_features _ | Called c_trace_model _
  | Called c_run_model _ | Called c_prep_output _ | Called c_to_pdb _
  | Called c_to_modelcif _ | Called c_relax_protein _ => true
  | _ => false
  end.


(** The log grows by events in [P]. *)
Definition log_ext (P : Event -> Prop) (l l' : list Event) : Prop :=
  exists d, l' = l ++ d /\ Forall P d.

(** Steps that log events in [P] and may change anything else. *)
Definition logging (P : Event -> Prop) (s s' : St) : Prop :=
  log_ext P (log s) (log s').


Definition not_start (e : Event) : Prop :=
  forall f, e <> LogInferenceStart f.



Definition is_startup (e : Event) : Prop := startup_event e = true.

(** ** Further readings of data and log *)

(** The number of alignment rows of a tensor. *)
Definition depth (all_msa : Tensor) : nat :=
  match all_msa with
  | T2 t => length (rows t)
  | T3 t => length (rows3 t)
  end.

Definition skipped (l : list Event) : list string :=
  omap (fun e => match e with PrintSkipping p => Some p | _ => None end) l.

(** The events from the run of the model on. *)
Definition model_run_event (e : Event) : bool :=
  match e with
  | Called c_run_model _ | Called c_prep_output _ | Called c_to_pdb _
  | Called c_to_modelcif _ | Called c_relax_protein _ | LogRelaxation _
  | LogOutputWritten _ | LogInferenceFinish _ => true
  | _ => false
  end.

(** [args] after line 204. *)
Definition effective_args (args : Args) : Args :=
  if String.prefix "seq" (config_preset args)
  then set_use_single_seq_mode args else args.

(** Which events the options of a run leave room for: alignment calls
    only without precomputed alignments, the embedding generator only
    in single-sequence mode, tracing only with [trace_model], each
    encoder only as [cif_output] selects, relaxation only without
    [skip_relaxation], the diagnostics lines only with [save_outputs]. *)
Definition may_log (args : Args) (e : Event) : bool :=
  match e with
  | LogGeneratingAlignments _ | Called c_alignment_runner_run _ =>
      match use_precomputed_alignments args with None => true | Some _ => false end
  | Called c_embedding_generator_run _ =>
      match use_precomputed_alignments args with
      | None => use_single_seq_mode args
      | Some _ => false
      end
  | LogTracing _ | LogTracingTime | Called c_pad_feature_dict_seq _
  | Called c_trace_model _ => trace_model args
  | Called c_to_pdb _ => negb (cif_output args)
  | Called c_to_modelcif _ => cif_output args
  | LogRelaxation _ | Called c_relax_protein _ => negb (skip_relaxation args)
  | LogOutputWritten _ | LogInferenceFinish _ => save_outputs args
  | _ => true
  end.

Definition encoder_call (e : Event) : bool :=
  match e with
  | Called c_to_pdb _ | Called c_to_modelcif _ => true
  | _ => false
  end.

(** Runs in which the model is never reached: nothing from the run of
    the model on is logged, and every start line has its error line. *)
Definition all_fail (s s' : St) : Prop :=
  exists d, log s' = log s ++ d
    /\ Forall (fun e => model_run_event e = false) d
    /\ sublist (inference_starts d) (logged_errors d).

(** Events other than start lines, error lines and those from the run
    of the model on. *)
Definition before_model (e : Event) : Prop :=
  model_run_event e = false
  /\ (forall f, e <> LogInferenceStart f) /\ (forall f, e <> LogError f).

Definition always_raises {A} (m : M A) : Prop :=
  forall s, is_ok (m s).1 = false.

(** What [precompute_alignments] logs for one tag when nothing raises. *)
Definition alignment_trace (args : Args) (tag : string) : list Event :=
  match use_precomputed_alignments args with
  | None =>
      LogGeneratingAlignments tag
      :: (if use_single_seq_mode args
          then [Called c_embedding_generator_run tag] else [])
      ++ [Called c_alignment_runner_run tag]
  | Some _ => []
  end.

(** The processor [generate_feature_dict] turns to. *)
Definition feature_processor_of (args : Args) (seqs : list string) : Callee :=
  if Str.contains "multimer" (config_preset args) then c_process_fasta
  else if length seqs =? 1 then c_process_fasta
  else c_process_multiseq_fasta.

Definition not_error (e : Event) : Prop := forall f, e <> LogError f.

(** Runs that remove no directory and no file other than [tmp]. *)
Definition disk_grows (tmp : string) (s s' : St) : Prop :=
  dirs s ⊆ dirs s'
  /\ forall p, p <> tmp -> is_Some (files s !! p) -> is_Some (files s' !! p).

(** ** The stages of the per-target body *)





(** The chain lengths of a target, summed, in the specification's
    words: the total sequence length across the chains. *)
Module WorklistSpec.

Fixpoint total_length (chains : list string) : nat :=
  match chains with
  | [] => 0
  | chain :: chains' => String.length chain + total_length chains'
  end.

End WorklistSpec.

(** ** Reasoning about computations in [M] *)

Lemma bind_Ok {A B} (m : M A) (k : A -> M B) (s s' : St) (b : B) :
  bind m k s = (Ok b, s') ->
  exists a s1, m s = (Ok a, s1) /\ k a s1 = (Ok b, s').
Proof.
  unfold bind. destruct (m s) as [[e|a] s1]; [discriminate|]. eauto.
Qed.

Lemma bind_Raise {A B} (m : M A) (k : A -> M B) (s s' : St) (e : Exn) :
  bind m k s = (Raise e, s') ->
  m s = (Raise e, s') \/ exists a s1, m s = (Ok a, s1) /\ k a s1 = (Raise e, s').
Proof.
  unfold bind. destruct (m s) as [[e'|a] s1]; [left | right; eauto].
  congruence.
Qed.

Lemma bind_eval {A B} (m : M A) (k : A -> M B) (s s1 : St) (a : A) :
  m s = (Ok a, s1) -> bind m k s = k a s1.
Proof. unfold bind. by intros ->. Qed.

Lemma bind_eval_raise {A B} (m : M A) (k : A -> M B) (s s1 : St) (e : Exn) :
  m s = (Raise e, s1) -> bind m k s = (Raise e, s1).
Proof. unfold bind. by intros ->. Qed.

Section Steps.

Context (R : St -> St -> Prop) (P : Event -> Prop) (HR : allows R P).

Lemma steps_ret {A} (a : A) : steps R (ret a).
Proof. intros s. apply (a_refl _ _ HR). Qed.

Lemma steps_raise {A} (e : Exn) : steps R (@raise A e).
Proof. intros s. apply (a_refl _ _ HR). Qed.

Lemma steps_gets {A} (f : St -> A) : steps R (gets f).
Proof. intros s. apply (a_refl _ _ HR). Qed.

Lemma steps_lift {A} (r : res A) : steps R (lift r).
Proof. intros s. apply (a_refl _ _ HR). Qed.

Lemma steps_bind {A B} (m : M A) (k : A -> M B) :
  steps R m -> (forall a, steps R (k a)) -> steps R (bind m k).
Proof.
  intros Hm Hk s. unfold bind.
  specialize (Hm s). destruct (m s) as [[e|a] s1]; simpl in *; [done|].
  eapply (a_trans _ _ HR); [exact Hm | apply Hk].
Qed.

Lemma steps_for_each {A} (l : list A) (body : A -> M unit) :
  (forall x, steps R (body x)) -> steps R (for_each l body).
Proof.
  intros Hbody. induction l as [|x l IH]; simpl.
  - apply steps_ret.
  - apply steps_bind; [apply Hbody | intros _; exact IH].
Qed.

Lemma steps_try_except (body : M unit) (handler : Exn -> M unit) :
  steps R body -> (forall e, steps R (handler e)) ->
  steps R (try_except body handler).
Proof.
  intros Hb Hh s. unfold try_except.
  specialize (Hb s). destruct (body s) as [[e|a] s1]; simpl in *; [|done].
  eapply (a_trans _ _ HR); [exact Hb | apply Hh].
Qed.

Lemma steps_read_file (path : string) : steps R (read_file path).
Proof.
  intros s. unfold read_file.
  destruct (files s !! path) as [[]|]; apply (a_refl _ _ HR).
Qed.

Lemma steps_first {A} (l : list A) : steps R (first l).
Proof. destruct l; [apply steps_raise | apply steps_ret]. Qed.

Lemma steps_unpack2 (l : list nat) : steps R (unpack2 l).
Proof.
  destruct l as [|a [|b [|c l]]]; simpl;
    first [apply steps_raise | apply steps_ret].
Qed.

Lemma steps_emit (e : Event) : P e -> steps R (emit e).
Proof. intros He s. by apply (a_log _ _ HR). Qed.

Lemma steps_call {A} (f : Callee) (key : string) (run : St -> res A) :
  P (Called f key) -> steps R (call f key run).
Proof. intros He s. by apply (a_log _ _ HR). Qed.

Lemma steps_makedirs (path : string) (exist_ok : bool) :
  steps R (makedirs path exist_ok).
Proof.
  intros s. unfold makedirs.
  repeat match goal with
         | |- context [ if ?b then _ else _ ] => destruct b
         | |- context [ match ?x with Some _ => _ | None => _ end ] =>
             destruct x
         end; simpl;
    first [apply (a_dirs _ _ HR) | apply (a_refl _ _ HR)].
Qed.

Lemma steps_open_w (path : string) : steps R (open_w path).
Proof.
  intros s. unfold open_w.
  repeat match goal with
         | |- context [ if ?b then _ else _ ] => destruct b
         end; simpl;
    first [apply (a_files _ _ HR) | apply (a_refl _ _ HR)].
Qed.

Lemma steps_fp_write (path : string) (c : Content) :
  steps R (fp_write path c).
Proof. intros s. apply (a_files _ _ HR). Qed.

Lemma steps_write_file (path : string) (c : Content) :
  steps R (write_file path c).
Proof.
  unfold write_file. apply steps_bind; [apply steps_open_w|].
  intros _. apply steps_fp_write.
Qed.

Lemma steps_index_keys (keys have : list string) :
  steps R (index_keys keys have).
Proof.
  unfold index_keys. destruct (List.find _ keys);
    [apply steps_raise | apply steps_ret].
Qed.

Lemma steps_getitem {A} (key : string) (entry : option A) :
  steps R (getitem key entry).
Proof. destruct entry; [apply steps_ret | apply steps_raise]. Qed.

Lemma steps_remove (path : string) : steps R (remove path).
Proof.
  intros s. unfold remove.
  destruct (files s !! path); simpl;
    [apply (a_files _ _ HR) | apply (a_refl _ _ HR)].
Qed.

Lemma steps_set_rounded (r : option nat) :
  steps R (modify (with_rounded_seqlen r)).
Proof. intros s. apply (a_rounded _ _ HR). Qed.

Lemma steps_set_cur (n : nat) :
  steps R (modify (with_cur_tracing_interval n)).
Proof. intros s. apply (a_cur _ _ HR). Qed.

End Steps.

(** One rule of the above that applies to the goal; the side condition
    on an event is left to [tac]. *)
Ltac steps_rule tac :=
  lazymatch goal with
  | HR : allows ?R ?P |- steps ?R ?m =>
      lazymatch m with
      | bind _ _ => apply (steps_bind R P HR); [| intros ?]
      | ret _ => apply (steps_ret R P HR)
      | raise _ => apply (steps_raise R P HR)
      | gets _ => apply (steps_gets R P HR)
      | lift _ => apply (steps_lift R P HR)
      | first _ => apply (steps_first R P HR)
      | unpack2 _ => apply (steps_unpack2 R P HR)
      | read_file _ => apply (steps_read_file R P HR)
      | emit _ => apply (steps_emit R P HR); tac
      | call _ _ _ => apply (steps_call R P HR); tac
      | makedirs _ _ => apply (steps_makedirs R P HR)
      | open_w _ => apply (steps_open_w R P HR)
      | fp_write _ _ => apply (steps_fp_write R P HR)
      | write_file _ _ => apply (steps_write_file R P HR)
      | index_keys _ _ => apply (steps_index_keys R P HR)
      | getitem _ _ => apply (steps_getitem R P HR)
      | remove _ => apply (steps_remove R P HR)
      | modify (with_rounded_seqlen _) => apply (steps_set_rounded R P HR)
      | modify (with_cur_tracing_interval _) => apply (steps_set_cur R P HR)
      | for_each _ _ => apply (steps_for_each R P HR); intros ?
      | try_except _ _ => apply (steps_try_except R P HR); [| intros ?]
      | (if ?b then _ else _) => destruct b
      | (match ?x with _ => _ end) => destruct x
      end
  end.

Ltac steps_auto tac := repeat steps_rule tac.

(** What each part of the driver logs. *)
Section Parts.

Context (E : Ext) (R : St -> St -> Prop) (P : Event -> Prop)
        (HR : allows R P).

Lemma steps_precompute_alignments tags seqs alignment_dir args :
  (forall tag, P (LogGeneratingAlignments tag)) ->
  (forall key, P (Called c_embedding_generator_run key)) ->
  (forall key, P (Called c_alignment_runner_run key)) ->
  steps R (precompute_alignments E tags seqs alignment_dir args).
Proof.
  intros H1 H2 H3. unfold precompute_alignments.
  steps_auto ltac:(auto).
Qed.

Lemma steps_generate_feature_dict tags seqs alignment_dir dp args dir :
  (forall key, P (Called c_process_fasta key)) ->
  (forall key, P (Called c_process_multiseq_fasta key)) ->
  steps R (generate_feature_dict E tags seqs alignment_dir dp args dir).
Proof.
  intros H1 H2. unfold generate_feature_dict.
  steps_auto ltac:(auto).
Qed.

Lemma steps_maybe_trace args model pfd :
  (forall n, P (LogTracing n)) -> P LogTracingTime ->
  (forall key, P (Called c_trace_model key)) ->
  steps R (maybe_trace E args model pfd).
Proof.
  intros H1 H2 H3. unfold maybe_trace.
  steps_auto ltac:(auto).
Qed.

Lemma steps_save_all_outputs dir t fd stats out :
  (forall d, P (LogOutputWritten d)) ->
  (forall f, P (LogInferenceFinish f)) ->
  steps R (save_all_outputs dir t fd stats out).
Proof.
  intros H1 H2. unfold save_all_outputs.
  steps_auto ltac:(auto).
Qed.

Lemma steps_write_unrelaxed args output_directory t protein :
  (forall key, P (Called c_to_pdb key)) ->
  (forall key, P (Called c_to_modelcif key)) ->
  steps R (write_unrelaxed E args output_directory t protein).
Proof.
  intros H1 H2. unfold write_unrelaxed.
  steps_auto ltac:(auto).
Qed.

Lemma steps_predict args is_multimer model t fd :
  (forall e, inference_event e = true -> P e) ->
  steps R (predict E args is_multimer model t fd).
Proof.
  intros HP. unfold predict.
  steps_auto ltac:(apply HP; reflexivity).
  apply (steps_maybe_trace); intros; apply HP; reflexivity.
Qed.

Lemma steps_relax_and_save args output_directory t fd stats out protein :
  (forall e, inference_event e = true -> P e) ->
  steps R (relax_and_save E args output_directory t fd stats out protein).
Proof.
  intros HP. unfold relax_and_save.
  steps_auto ltac:(apply HP; reflexivity).
  apply (steps_save_all_outputs); intros; apply HP; reflexivity.
Qed.

Lemma steps_infer_and_write args is_multimer model output_directory t fd :
  (forall e, inference_event e = true -> P e) ->
  steps R (infer_and_write E args is_multimer model output_directory t fd).
Proof.
  intros HP. unfold infer_and_write.
  steps_auto ltac:(idtac);
    first [ by apply steps_predict
          | apply (steps_write_unrelaxed); intros; apply HP; reflexivity
          | by apply steps_relax_and_save ].
Qed.

Lemma steps_loops args is_multimer alignment_dir dp gen targets :
  (forall key, P (Called c_model_generator_next key)) ->
  (forall model od t,
     steps R (guarded_target E args is_multimer alignment_dir dp model od t)) ->
  steps R (run_models E args is_multimer alignment_dir dp gen targets).
Proof.
  intros Hnext Hbody. induction gen as [|next gen IH]; simpl.
  - apply (steps_ret R P HR).
  - steps_auto ltac:(auto); first [apply Hbody | exact IH].
Qed.

End Parts.
(** * Properties *)

(** ** Alignment statistics *)

Section StatsFacts.

Import MsaStats.

Lemma forallb_map {A B} (f : B -> bool) (g : A -> B) (l : list A) :
  forallb f (map g l) = forallb (fun x => f (g x)) l.
Proof. induction l as [|x l IH]; simpl; [done | by rewrite IH]. Qed.

(** A test on the positions [lo, lo + n) of a row is the test on the
    corresponding slice. *)
Lemma forallb_range (f : Z -> bool) (r : list Z) :
  forall lo n, lo + n <= length r ->
    forallb (fun j => f (nth j r 0%Z)) (seq lo n) = forallb f (take n (drop lo r)).
Proof.
  induction r as [|x r IH]; intros lo n Hlen; simpl in Hlen.
  - assert (lo = 0) by lia. assert (n = 0) by lia. by subst.
  - destruct lo as [|lo].
    + destruct n as [|n]; [done|].
      rewrite drop_0. simpl. f_equal.
      rewrite <- seq_shift, forallb_map. simpl.
      rewrite (IH 0 n) by lia. by rewrite drop_0.
    + rewrite <- seq_shift, forallb_map. simpl.
      apply IH. lia.
Qed.

Lemma any_nonzero_not_padding (r : list Z) :
  any_nonzero r = negb (StatsSpec.is_padding r).
Proof.
  unfold any_nonzero, StatsSpec.is_padding.
  induction r as [|x r IH]; simpl; [done|].
  rewrite IH. by destruct (x =? 0)%Z.
Qed.

Lemma keep_masked_retained (t : Tensor2) :
  rows (keep_masked t) = StatsSpec.retained (rows t).
Proof.
  unfold keep_masked, StatsSpec.retained. simpl.
  apply filter_ext. intros r. apply any_nonzero_not_padding.
Qed.

Lemma zip_with_maps {A} (op : bool -> bool -> bool) (f g : A -> bool)
    (l : list A) :
  zip_with op (map f l) (map g l) = map (fun x => op (f x) (g x)) l.
Proof. induction l as [|x l IH]; simpl; [done | by rewrite IH]. Qed.

Lemma count_true_map {A} (p : A -> bool) (l : list A) :
  count_true (map p l) = length (List.filter p l).
Proof.
  unfold count_true.
  induction l as [|x l IH]; simpl; [done|].
  destruct (p x); simpl; by rewrite IH.
Qed.

Lemma retained_wf (t : Tensor2) :
  wf2 t -> Forall (fun r => length r = ncols t) (StatsSpec.retained (rows t)).
Proof.
  unfold wf2, StatsSpec.retained. intros H.
  induction H as [|r rs Hr Hrs IH]; simpl; [constructor|].
  destruct (negb (StatsSpec.is_padding r)); [constructor|]; done.
Qed.

(** On a row of [l1 + l2] columns the code's two tests, on the
    slices [:l1] and [l1:], are the presence tests of the two
    chains. *)
Lemma have_chain_1 (l1 l2 : nat) (r : list Z) :
  length r = l1 + l2 ->
  negb (forallb (fun x => (x =? 21)%Z) (take l1 r)) = StatsSpec.present 0 l1 r.
Proof.
  intros Hlen. unfold StatsSpec.present. f_equal.
  rewrite Nat.sub_0_r, (forallb_range (fun x => (x =? 21)%Z) r 0 l1) by lia.
  by rewrite drop_0.
Qed.

Lemma have_chain_2 (l1 l2 : nat) (r : list Z) :
  length r = l1 + l2 ->
  negb (forallb (fun x => (x =? 21)%Z) (drop l1 r))
  = StatsSpec.present l1 (l1 + l2) r.
Proof.
  intros Hlen. unfold StatsSpec.present. f_equal.
  replace (l1 + l2 - l1) with l2 by lia.
  rewrite (forallb_range (fun x => (x =? 21)%Z) r l1 l2) by lia.
  rewrite take_ge; [done|]. rewrite length_drop. lia.
Qed.

Lemma filter_length_ext {A} (p q : A -> bool) (P : A -> Prop) (l : list A) :
  Forall P l -> (forall x, P x -> p x = q x) ->
  length (List.filter p l) = length (List.filter q l).
Proof.
  intros Hl Hpq. induction Hl as [|x l Hx Hl IH]; simpl; [done|].
  rewrite (Hpq x Hx). destruct (q x); simpl; by rewrite IH.
Qed.

Lemma batch_counts_spec (batch : Tensor2) (l1 l2 : nat) :
  wf2 batch -> ncols batch = l1 + l2 ->
  batch_counts batch l1 l2 false
  = Ok [StatsSpec.paired l1 l2 (rows batch);
        StatsSpec.unpaired_chain_1 l1 l2 (rows batch);
        StatsSpec.unpaired_chain_2 l1 l2 (rows batch)].
Proof.
  intros Hwf Hcols. unfold batch_counts, masked_counts. simpl.
  replace (ncols batch - l1 =? l2) with true
    by (symmetry; apply Nat.eqb_eq; lia).
  simpl. unfold have_msa. simpl.
  rewrite !map_map, !zip_with_maps, !count_true_map.
  change (List.filter any_nonzero (rows batch)) with (rows (keep_masked batch)).
  rewrite keep_masked_retained.
  pose proof (retained_wf batch Hwf) as Hret. rewrite Hcols in Hret.
  assert (Hrow : forall (f : bool -> bool -> bool) r,
    length r = l1 + l2 ->
    f (negb (forallb (fun x => (x =? 21)%Z) (take l1 r)))
      (negb (forallb (fun x => (x =? 21)%Z) (drop l1 r)))
    = f (StatsSpec.present 0 l1 r) (StatsSpec.present l1 (l1 + l2) r)).
  { intros f r Hr.
    by rewrite (have_chain_1 l1 l2 r Hr), (have_chain_2 l1 l2 r Hr). }
  unfold StatsSpec.paired, StatsSpec.unpaired_chain_1,
    StatsSpec.unpaired_chain_2, StatsSpec.count.
  f_equal. f_equal; [| f_equal; [| f_equal]];
    apply (filter_length_ext _ _ _ _ Hret); intros r Hr.
  - apply (Hrow andb r Hr).
  - rewrite (Hrow (fun a b => xorb a (a && b)) r Hr).
    by destruct (StatsSpec.present 0 l1 r),
                (StatsSpec.present l1 (l1 + l2) r).
  - rewrite (Hrow (fun a b => xorb b (a && b)) r Hr).
    by destruct (StatsSpec.present 0 l1 r),
                (StatsSpec.present l1 (l1 + l2) r).
Qed.

(** With a 2-D batch to take them from, the counts of an iteration
    are those of the batch. *)
Lemma iteration_counts_select all_msa l1 l2 h prefix i batch :
  select_batch all_msa prefix i = Ok batch ->
  iteration_counts all_msa l1 l2 h prefix i = batch_counts batch l1 l2 h.
Proof.
  intros Hsel. unfold iteration_counts. destruct all_msa as [t|t].
  - by rewrite Hsel.
  - destruct (String.eqb prefix "total_") eqn:Hp.
    + unfold select_batch in Hsel. rewrite Hp in Hsel. discriminate.
    + by rewrite Hsel.
Qed.

End StatsFacts.

(** C6.  For a single recycling iteration, on an alignment slice whose
    rows have one column per residue of the two chains, [get_msa_stats]
    reports in row 1 the number of retained rows present in both chains
    ([paired]), present only in chain 1 ([unpaired_chain_1]) and
    present only in chain 2 ([unpaired_chain_2]), where rows entirely
    0 are dropped and a row is present in a chain when not all of its
    positions in the chain's columns are 21. *)
Theorem get_msa_stats_counts (all_msa : Tensor) (prefix : string)
    (batch : Tensor2) (seq_length_1 seq_length_2 : nat) :
  MsaStats.select_batch all_msa prefix 0 = Ok batch ->
  wf2 batch ->
  ncols batch = seq_length_1 + seq_length_2 ->
  MsaStats.get_msa_stats all_msa seq_length_1 seq_length_2 1 false prefix
  = Ok (MsaStats.mkDF
          [prefix +:+ "paired"; prefix +:+ "unpaired_chain_1";
           prefix +:+ "unpaired_chain_2"]
          [(1, [StatsSpec.paired seq_length_1 seq_length_2 (rows batch);
                StatsSpec.unpaired_chain_1 seq_length_1 seq_length_2 (rows batch);
                StatsSpec.unpaired_chain_2 seq_length_1 seq_length_2 (rows batch)])]).
Proof.
  intros Hsel Hwf Hcols.
  unfold MsaStats.get_msa_stats. simpl.
  rewrite (iteration_counts_select _ _ _ _ _ _ _ Hsel).
  rewrite (batch_counts_spec batch seq_length_1 seq_length_2 Hwf Hcols).
  reflexivity.
Qed.

Lemma get_msa_stats_counts_planted :
  MsaStats.get_msa_stats (T3 Fixture.planted) 2 3 1 false ""
  = Ok (MsaStats.mkDF ["paired"; "unpaired_chain_1"; "unpaired_chain_2"]
          [(1, [3; 2; 0])]).
Proof.
  exact (get_msa_stats_counts (T3 Fixture.planted) ""
           (mkT2 5 [[ 1; 2; 3; 4; 5]; [ 7;21;21; 9;21]; [21; 3; 21;21; 8];
                    [ 4; 4;21;21;21]; [21; 6;21;21;21]; [ 0; 0; 0; 0; 0]]%Z)
           2 3 eq_refl
           ltac:(repeat constructor) eq_refl).
Defined.

(** ** The relations are preorders that allow their events *)

Lemma log_ext_refl P l : log_ext P l l.
Proof. exists []. by rewrite app_nil_r. Qed.

Lemma log_ext_trans P l1 l2 l3 :
  log_ext P l1 l2 -> log_ext P l2 l3 -> log_ext P l1 l3.
Proof.
  intros [d1 [-> H1]] [d2 [-> H2]]. exists (d1 ++ d2).
  split; [by rewrite app_assoc | by apply Forall_app].
Qed.

Lemma log_ext_weaken (P Q : Event -> Prop) l l' :
  (forall e, P e -> Q e) -> log_ext P l l' -> log_ext Q l l'.
Proof.
  intros HPQ [d [-> Hd]]. exists d. split; [done|].
  eapply Forall_impl; eauto.
Qed.

Lemma allows_logging P : allows (logging P) P.
Proof.
  unfold logging. split; simpl; intros.
  - apply log_ext_refl.
  - by eapply log_ext_trans.
  - exists [e]. auto.
  - apply log_ext_refl.
  - apply log_ext_refl.
  - apply log_ext_refl.
  - apply log_ext_refl.
Qed.


(** ** Failure isolation *)

Lemma guarded_target_boundary E args is_multimer alignment_dir dp model od t s :
  guarded_target E args is_multimer alignment_dir dp model od t s
  = match target_body E args is_multimer alignment_dir dp model od t s with
    | (Ok _, s1) => (Ok tt, s1)
    | (Raise _, s1) => (Ok tt, with_log (log s1 ++ [LogError (file_name t)]) s1)
    end.
Proof.
  unfold guarded_target, try_except.
  by destruct (target_body E args is_multimer alignment_dir dp model od t s)
    as [[e|[]] s1].
Qed.

Lemma guarded_target_ok E args is_multimer alignment_dir dp model od t s :
  (guarded_target E args is_multimer alignment_dir dp model od t s).1 = Ok tt.
Proof.
  rewrite guarded_target_boundary.
  by destruct (target_body E args is_multimer alignment_dir dp model od t s)
    as [[e|[]] s1].
Qed.





(** ** The feature cache *)










Lemma cached_feature_dict_miss E args alignment_dir dp dir t s :
  feature_dicts s !! tag t = None ->
  cached_feature_dict E args alignment_dir dp dir t s
  = match build_feature_dict E args alignment_dir dp dir t s with
    | (Raise e, s1) => (Raise e, s1)
    | (Ok fd, s1) =>
        (Ok fd,
         with_log (log s1 ++ [Stored (tag t)])
           (with_feature_dicts (<[tag t := fd]> (feature_dicts s1)) s1))
    end.
Proof.
  intros Hfd. unfold cached_feature_dict. unfold bind at 1, gets.
  rewrite Hfd. unfold bind at 1.
  by destruct (build_feature_dict E args alignment_dir dp dir t s)
    as [[e|fd] s1].
Qed.





(** ** The start-up phase *)

Lemma steps_gather E args is_multimer fasta_files :
  forall targets,
    steps (logging is_startup) (gather E args is_multimer fasta_files targets).
Proof.
  pose proof (allows_logging is_startup) as HR.
  induction fasta_files as [|f fs IH]; intros targets; simpl.
  - steps_auto ltac:(reflexivity).
  - steps_auto ltac:(reflexivity); apply IH.
Qed.

Lemma steps_configure E args : steps (logging is_startup) (configure E args).
Proof.
  pose proof (allows_logging is_startup) as HR.
  unfold configure, overlay_block.
  steps_auto ltac:(reflexivity).
Qed.

Lemma steps_check_tracing args config :
  steps (logging is_startup) (check_tracing args config).
Proof.
  pose proof (allows_logging is_startup) as HR.
  unfold check_tracing. steps_auto ltac:(reflexivity).
Qed.

Lemma steps_startup E args : steps (logging is_startup) (startup E args).
Proof.
  pose proof (allows_logging is_startup) as HR.
  unfold startup, load_config, list_files_with_extensions.
  steps_auto ltac:(reflexivity);
    first [ apply steps_configure | apply steps_check_tracing
          | apply steps_gather | intros s0; apply log_ext_refl ].
Qed.


Lemma main_eval E args s :
  main E args s
  = match startup E args s with
    | (Raise e, s1) => (Raise e, s1)
    | (Ok su, s1) =>
        run_models E (su_args su) (su_is_multimer su) (su_alignment_dir su)
          (su_data_processor su) (su_model_generator su)
          (su_sorted_targets su) s1
    end.
Proof.
  unfold main, bind. by destruct (startup E args s) as [[e|su] s1].
Qed.

(** ** The stages of one iteration *)














(** ** The configuration overlay *)

Lemma update_from_flattened_dict_idem (d c : gmap string Value) :
  update_from_flattened_dict d (update_from_flattened_dict d c)
  = update_from_flattened_dict d c.
Proof.
  unfold update_from_flattened_dict.
  by rewrite (assoc_L (∪)), (idemp_L (∪)).
Qed.

(** C9.  With an override file, [main] applies the overlay twice, to
    the same dictionary, before anything else is done with the
    configuration, and the result is the configuration one application
    gives. *)
Theorem overlay_applied_twice (E : Ext) (args : Args) (s : St)
    (data : string) (d c0 : gmap string Value) :
  experiment_config_json args <> "" ->
  files s !! experiment_config_json args = Some (Text data) ->
  json_load E data = Ok d ->
  model_config E s (config_preset args) (long_sequence_inference args)
    (use_deepspeed_evoformer_attention args) = Ok c0 ->
  configure E args s
  = (Ok (update_from_flattened_dict d (update_from_flattened_dict d c0)),
     with_log
       (log s ++ [Called c_model_config (config_preset args);
                  Called c_update_from_flattened_dict (experiment_config_json args);
                  Called c_update_from_flattened_dict (experiment_config_json args)])
       s)
  /\ update_from_flattened_dict d (update_from_flattened_dict d c0)
     = update_from_flattened_dict d c0.
Proof.
  intros Hpath Hfile Hjson Hconf.
  split; [|apply update_from_flattened_dict_idem].
  apply String.eqb_neq in Hpath.
  unfold configure, overlay_block. rewrite Hpath. simpl.
  unfold bind, call, read_file, lift. simpl.
  rewrite Hconf, Hfile, Hjson. simpl. rewrite Hfile, Hjson.
  unfold with_log. simpl. by rewrite <- !app_assoc.
Qed.

(** ** The scratch file *)

Lemma for_each_cons {A} (x : A) (l : list A) (body : A -> M unit) (s : St) :
  for_each (x :: l) body s
  = match body x s with
    | (Ok _, s1) => for_each l body s1
    | (Raise e, s1) => (Raise e, s1)
    end.
Proof. simpl. unfold bind. by destruct (body x s) as [[e|[]] s1]. Qed.

(** *** The file operations, case by case *)

Lemma string_length_app (a b : string) :
  String.length (a +:+ b) = String.length a + String.length b.
Proof. induction a as [|c a IH]; simpl; [done | by rewrite IH]. Qed.

(** The directories above a path have shorter names. *)
Lemma ancestors_from_shorter (s cur q : string) :
  q ∈ Str.ancestors_from cur s ->
  String.length q < String.length cur + String.length s.
Proof.
  revert cur. induction s as [|c s IH]; intros cur Hq; simpl in Hq.
  - by apply elem_of_nil in Hq.
  - apply elem_of_app in Hq as [Hq|Hq].
    + destruct (Ascii.eqb c "/" && negb (String.eqb cur "")).
      * apply list_elem_of_singleton in Hq as ->. simpl. lia.
      * by apply elem_of_nil in Hq.
    + apply IH in Hq. rewrite string_length_app in Hq. simpl in *. lia.
Qed.

Lemma ancestors_strict (path q : string) : q ∈ Str.ancestors path -> q <> path.
Proof. intros Hq ->. apply ancestors_from_shorter in Hq. simpl in Hq. lia. Qed.

Lemma below_file_none (s : St) (l : list string) (p : string) :
  below_file s (l ++ [p]) = None -> Forall (fun q => is_file s q = false) l.
Proof.
  induction l as [|a l IH]; simpl; [constructor|].
  destruct (is_file s a) eqn:Ha.
  - by destruct l.
  - intros H. constructor; [done | by apply IH].
Qed.

Lemma existsb_agree {A} (f g : A -> bool) (l : list A) :
  (forall x, x ∈ l -> f x = g x) -> existsb f l = existsb g l.
Proof.
  induction l as [|a l IH]; intros H; simpl; [done|].
  rewrite (H a) by apply list_elem_of_here.
  rewrite IH; [done|]. intros x Hx. apply H. by apply list_elem_of_further.
Qed.

Lemma open_w_cases (path : string) (s : St) :
  open_w path s = (Ok tt, with_files (<[path := Text ""]> (files s)) s)
  \/ exists e, open_w path s = (Raise e, s).
Proof.
  unfold open_w.
  repeat match goal with
         | |- context [ if ?b then _ else _ ] => destruct b
         end; eauto.
Qed.

Lemma write_file_cases (path : string) (c : Content) (s : St) :
  (write_file path c s = (Ok tt, with_files (<[path := c]> (files s)) s)
   /\ (open_w path s).1 = Ok tt)
  \/ exists e, write_file path c s = (Raise e, s) /\ open_w path s = (Raise e, s).
Proof.
  unfold write_file, bind.
  destruct (open_w_cases path s) as [H|[e H]]; rewrite H; [left | right; eauto].
  split; [|done]. unfold fp_write, modify, with_files. simpl.
  by rewrite insert_insert_eq.
Qed.

Lemma makedirs_cases (path : string) (exist_ok : bool) (s : St) :
  (exists D,
     makedirs path exist_ok s = (Ok tt, with_dirs (D ∪ dirs s) s)
     /\ path ∈ D /\ forall q, q ∈ D -> files s !! q = None)
  \/ exists e, makedirs path exist_ok s = (Raise e, s).
Proof.
  unfold makedirs.
  destruct (String.eqb path ""); [right; eauto|].
  destruct (below_file s (Str.ancestors path ++ [path])) eqn:Hbelow;
    [right; eauto|].
  apply below_file_none in Hbelow.
  destruct (is_file s path) eqn:Hfile; [right; eauto|].
  destruct (negb exist_ok && is_dir s path); [right; eauto|]. simpl.
  left. exists ({[path]} ∪ list_to_set (Str.ancestors path)).
  split; [done|]. split; [apply elem_of_union_l, elem_of_singleton_2; done|].
  intros q Hq.
  assert (Hq' : is_file s q = false).
  { apply elem_of_union in Hq as [Hq|Hq].
    - apply elem_of_singleton_1 in Hq. by subst q.
    - apply elem_of_list_to_set in Hq.
      by apply (proj1 (Forall_forall _ _) Hbelow). }
  unfold is_file in Hq'. apply bool_decide_eq_false in Hq'.
  destruct (files s !! q); [|done]. destruct Hq'. by eexists.
Qed.

(** Once a file has been opened for writing at a path, it can be
    opened there again after any change to that file alone and any
    directories created beside existing files. *)
Lemma open_w_again (path : string) (s s' : St) :
  (open_w path s).1 = Ok tt ->
  (forall q, q <> path -> files s' !! q = files s !! q) ->
  dirs s ⊆ dirs s' -> path ∉ dirs s' ->
  (open_w path s').1 = Ok tt.
Proof.
  unfold open_w. intros Hopen Hfiles Hdirs Hnd.
  destruct (String.eqb path ""); [done|].
  destruct (is_dir s path) eqn:Hd; [done|].
  assert (Hd' : is_dir s' path = false).
  { unfold is_dir. by apply bool_decide_eq_false. }
  rewrite Hd'.
  assert (Ha : existsb (is_file s') (Str.ancestors path)
               = existsb (is_file s) (Str.ancestors path)).
  { apply existsb_agree. intros q Hq. unfold is_file.
    by rewrite (Hfiles q (ancestors_strict _ _ Hq)). }
  rewrite Ha.
  destruct (existsb (is_file s) (Str.ancestors path)); [done|].
  destruct (String.eqb (Str.parent path) "") eqn:Hp; simpl in *; [done|].
  destruct (is_dir s (Str.parent path)) eqn:Hpd; [|done].
  assert (Hpd' : is_dir s' (Str.parent path) = true).
  { unfold is_dir in *. apply bool_decide_eq_true in Hpd.
    apply bool_decide_eq_true. by apply Hdirs. }
  by rewrite Hpd'.
Qed.

Lemma for_each_one {A} (x : A) (body : A -> M unit) (s : St) :
  for_each [x] body s = body x s.
Proof. simpl. unfold bind, ret. by destruct (body x s) as [[e|[]] s1]. Qed.

Section Scratch.

Context (E : Ext) (args : Args).

Let tmp := tmp_fasta_path E args.

(** One iteration of the loop of [precompute_alignments]. *)
Lemma precompute_alignments_cons tag seq tags seqs alignment_dir s :
  precompute_alignments E (tag :: tags) (seq :: seqs) alignment_dir args s
  = match precompute_alignments E [tag] [seq] alignment_dir args s with
    | (Ok _, s1) => precompute_alignments E tags seqs alignment_dir args s1
    | (Raise e, s1) => (Raise e, s1)
    end.
Proof.
  unfold precompute_alignments. simpl zip.
  rewrite for_each_cons, (for_each_cons _ []). simpl for_each.
  match goal with
  | |- match ?m with _ => _ end = _ => by destruct m as [[e|[]] s1]
  end.
Qed.

Lemma precompute_alignments_one tag seq alignment_dir s :
  match precompute_alignments E [tag] [seq] alignment_dir args s with
  | (Ok _, s1) =>
      files s1 = delete tmp (files s) /\ (open_w tmp s1).1 = Ok tt
      /\ dirs s ⊆ dirs s1
  | (Raise e, s1) =>
      files s1 = <[tmp := Text (fasta_record tag seq)]> (files s)
      \/ (s1 = s /\ open_w tmp s = (Raise e, s))
  end.
Proof.
  unfold precompute_alignments. simpl zip. rewrite for_each_one. fold tmp.
  destruct (write_file_cases tmp (Text (fasta_record tag seq)) s)
    as [[Hw Ho]|(e & Hw & Ho)]; unfold bind; rewrite Hw; [|by right].
  set (s0 := with_files (<[tmp := Text (fasta_record tag seq)]> (files s)) s).
  assert (Hdone : forall s1,
            files s1 = files s0 -> dirs s ⊆ dirs s1 ->
            (forall q, q ∈ dirs s1 -> q ∈ dirs s \/ files s0 !! q = None) ->
            match remove tmp s1 with
            | (Ok _, s2) =>
                files s2 = delete tmp (files s)
                /\ (open_w tmp s2).1 = Ok tt /\ dirs s ⊆ dirs s2
            | (Raise e, s2) =>
                files s2 = <[tmp := Text (fasta_record tag seq)]> (files s)
                \/ (s2 = s /\ open_w tmp s = (Raise e, s))
            end).
  { intros s1 Hf Hd Hnew. unfold remove. rewrite Hf. simpl.
    rewrite lookup_insert_eq. simpl.
    rewrite !delete_insert_eq. split; [done|]. split; [|done].
    apply (open_w_again tmp s); [done| | done |].
    - intros q Hq. simpl. by rewrite lookup_delete_ne.
    - simpl. intros Hin. destruct (Hnew _ Hin) as [Hin'|Hnone].
      + revert Ho. unfold open_w.
        destruct (String.eqb tmp ""); [done|].
        unfold is_dir. by rewrite bool_decide_eq_true_2.
      + simpl in Hnone. by rewrite lookup_insert_eq in Hnone. }
  destruct (use_precomputed_alignments args).
  { simpl. apply Hdone; [done | done | by left]. }
  unfold emit, modify. simpl.
  match goal with
  | |- context [ makedirs ?p ?b ?st ] =>
      destruct (makedirs_cases p b st) as [(D & Hm & _ & HD)|(e & Hm)];
      rewrite Hm
  end; [|by left].
  assert (Hnew : forall q, q ∈ D ∪ dirs s -> q ∈ dirs s \/ files s0 !! q = None).
  { intros q [Hq|Hq]%elem_of_union; [right | by left]. by apply HD. }
  destruct (use_single_seq_mode args); unfold call, ret; simpl;
    repeat match goal with
           | |- context [ embedding_generator_run E ?a ?b ?c ] =>
               destruct (embedding_generator_run E a b c) as [?|[]]; simpl
           | |- context [ alignment_runner_run E ?a ?b ?c ?d ?e ] =>
               destruct (alignment_runner_run E a b c d e) as [?|[]]; simpl
           end;
    try (by left);
    apply Hdone; simpl; try done; apply union_subseteq_r.
Qed.

Lemma precompute_alignments_files tags seqs alignment_dir :
  forall s,
    match precompute_alignments E tags seqs alignment_dir args s with
    | (Ok _, s1) => zip tags seqs <> [] -> files s1 !! tmp = None
    | (Raise e, s1) =>
        is_Some (files s1 !! tmp) \/ (s1 = s /\ open_w tmp s = (Raise e, s))
    end.
Proof.
  revert seqs. induction tags as [|tag tags IH]; intros seqs s.
  { by simpl. }
  destruct seqs as [|seq seqs]; [by simpl|].
  rewrite precompute_alignments_cons.
  pose proof (precompute_alignments_one tag seq alignment_dir s) as Hone.
  destruct (precompute_alignments E [tag] [seq] alignment_dir args s)
    as [[e|[]] s1].
  - destruct Hone as [Hone|Hone]; [left | by right].
    rewrite Hone, lookup_insert_eq. by eexists.
  - destruct Hone as (Hf & Ho & _).
    specialize (IH seqs s1).
    destruct (precompute_alignments E tags seqs alignment_dir args s1)
      as [[e|[]] s2] eqn:Hrest.
    + destruct IH as [IH|[-> IH]]; [by left|].
      rewrite IH in Ho. discriminate.
    + intros _. destruct (zip tags seqs) as [|p l] eqn:Hz.
      * unfold precompute_alignments in Hrest. rewrite Hz in Hrest.
        simpl in Hrest. injection Hrest as <-.
        rewrite Hf. apply lookup_delete_eq.
      * by apply IH.
Qed.

Lemma generate_feature_dict_files tags seqs alignment_dir dp dir s :
  match generate_feature_dict E tags seqs alignment_dir dp args dir s with
  | (Ok _, s1) => files s1 !! tmp = None
  | (Raise e, s1) =>
      is_Some (files s1 !! tmp)
      \/ (s1 = s
          /\ (open_w tmp s = (Raise e, s) \/ (tags = [] /\ e = IndexError)))
  end.
Proof.
  unfold generate_feature_dict. fold tmp.
  assert (Hrun : forall c f key (run : St -> res FeatureDict),
    match (feature_dict <- (write_file tmp c ;; call f key run) ;;
           remove tmp ;; ret feature_dict) s with
    | (Ok _, s1) => files s1 !! tmp = None
    | (Raise e, s1) =>
        is_Some (files s1 !! tmp)
        \/ (s1 = s
            /\ (open_w tmp s = (Raise e, s) \/ (tags = [] /\ e = IndexError)))
    end).
  { intros c f key run.
    destruct (write_file_cases tmp c s) as [[Hw Ho]|(e & Hw & Ho)];
      unfold bind; rewrite Hw; [|right; eauto].
    unfold call, remove, ret. simpl.
    match goal with
    | |- context [ run ?st ] => destruct (run st) as [e|fd]
    end; simpl.
    - left. rewrite lookup_insert_eq. by eexists.
    - rewrite lookup_insert_eq. simpl. apply lookup_delete_eq. }
  destruct (Str.contains "multimer" (config_preset args)); [apply Hrun|].
  destruct (length seqs =? 1) eqn:Hlen; [|apply Hrun].
  destruct tags as [|tag tags].
  { unfold bind, first, raise. simpl. right. eauto. }
  destruct seqs as [|seq seqs]; [done|].
  exact (Hrun (Text (fasta_record tag seq)) c_process_fasta tmp
           (fun s => process_fasta E s dp tmp (Str.path_join alignment_dir tag)
                       (SeqembMode (use_single_seq_mode args)))).
Qed.

End Scratch.

(** C4, amended.  The scratch FASTA file is gone when
    [precompute_alignments] (having had a pair to handle) or
    [generate_feature_dict] returns.  When the call raises, the scratch
    file is still there, which is so when the alignment runner or the
    feature processor raises; the one exception is a call that raised
    before writing anything, the scratch file being impossible to open
    (or, for [generate_feature_dict], the list of tags being empty),
    which leaves everything as it was. *)
Theorem scratch_file_removed_on_return (E : Ext) (args : Args)
    (tags seqs : list string) (alignment_dir : string) (dp : DataProcessor)
    (dir : string) (s : St) :
  match precompute_alignments E tags seqs alignment_dir args s with
  | (Ok _, s1) => zip tags seqs <> [] -> files s1 !! tmp_fasta_path E args = None
  | (Raise e, s1) =>
      is_Some (files s1 !! tmp_fasta_path E args)
      \/ (s1 = s /\ open_w (tmp_fasta_path E args) s = (Raise e, s))
  end
  /\ match generate_feature_dict E tags seqs alignment_dir dp args dir s with
     | (Ok _, s1) => files s1 !! tmp_fasta_path E args = None
     | (Raise e, s1) =>
         is_Some (files s1 !! tmp_fasta_path E args)
         \/ (s1 = s
             /\ (open_w (tmp_fasta_path E args) s = (Raise e, s)
                 \/ (tags = [] /\ e = IndexError)))
     end.
Proof.
  split.
  - apply precompute_alignments_files.
  - apply generate_feature_dict_files.
Qed.

(** ** The worklist *)

Lemma insert_by_HdRel {A} (key : A -> nat) (x y : A) (l : list A) :
  key y <= key x -> HdRel (fun a b => key a <= key b) y l ->
  HdRel (fun a b => key a <= key b) y (insert_by key x l).
Proof.
  intros Hyx Hl. destruct l as [|z l]; simpl; [by constructor|].
  destruct (key x <=? key z); constructor; [done|].
  by inversion Hl.
Qed.

Lemma insert_by_Sorted {A} (key : A -> nat) (x : A) (l : list A) :
  Sorted (fun a b => key a <= key b) l ->
  Sorted (fun a b => key a <= key b) (insert_by key x l).
Proof.
  induction 1 as [|y l Hl IH Hy]; simpl.
  - repeat constructor.
  - destruct (key x <=? key y) eqn:Hxy.
    + apply Nat.leb_le in Hxy. constructor; [by constructor | by constructor].
    + apply Nat.leb_gt in Hxy. constructor; [done|].
      apply insert_by_HdRel; [lia | done].
Qed.

Lemma sorted_Sorted {A} (key : A -> nat) (l : list A) :
  Sorted (fun a b => key a <= key b) (sorted key l).
Proof.
  induction l as [|x l IH]; simpl; [constructor | by apply insert_by_Sorted].
Qed.

Lemma Sorted_consecutive {A} (R : A -> A -> Prop) (l : list A) :
  Sorted R l ->
  forall i a b, l !! i = Some a -> l !! S i = Some b -> R a b.
Proof.
  induction 1 as [|x l Hl IH Hx]; intros i a b Ha Hb; [done|].
  destruct i as [|i]; simpl in *.
  - injection Ha as ->. destruct l as [|y l]; [done|].
    simpl in Hb. injection Hb as ->. by inversion Hx.
  - by eapply IH.
Qed.

Lemma startup_sorted E args s su s1 :
  startup E args s = (Ok su, s1) ->
  exists targets, su_sorted_targets su = sorted seq_sort_fn targets.
Proof.
  unfold startup. intros H.
  repeat (apply bind_Ok in H as (? & ? & _ & H)).
  unfold ret in H. injection H as <- _. simpl. by eexists.
Qed.

Lemma seq_sort_fn_total_length (t : Target) :
  seq_sort_fn t = WorklistSpec.total_length (seqs t).
Proof.
  unfold seq_sort_fn. induction (seqs t) as [|chain chains IH]; simpl; [done|].
  by rewrite IH.
Qed.

(** C7.  The worklist [main] iterates over is in ascending order of
    total sequence length, the lengths of a target's chains added up:
    of two consecutive targets, the earlier is no longer than the
    later. *)
Theorem worklist_ascending (E : Ext) (args : Args) (s s1 : St) (su : Setup)
    (i : nat) (a b : Target) :
  startup E args s = (Ok su, s1) ->
  su_sorted_targets su !! i = Some a ->
  su_sorted_targets su !! S i = Some b ->
  WorklistSpec.total_length (seqs a) <= WorklistSpec.total_length (seqs b).
Proof.
  intros Hs Ha Hb. destruct (startup_sorted E args s su s1 Hs) as [ts Hts].
  rewrite Hts in Ha, Hb. rewrite <- !seq_sort_fn_total_length.
  exact (Sorted_consecutive _ _ (sorted_Sorted seq_sort_fn ts) i a b Ha Hb).
Qed.

Lemma worklist_ascending_pair :
  WorklistSpec.total_length (seqs Fixture.target_b) = 50
  /\ WorklistSpec.total_length (seqs Fixture.target_a) = 100
  /\ WorklistSpec.total_length (seqs Fixture.target_b)
     <= WorklistSpec.total_length (seqs Fixture.target_a).
Proof.
  split; [reflexivity|]. split; [reflexivity|].
  refine (worklist_ascending (Fixture.pair_ext (Fixture.fixed_size true))
            (Fixture.multimer_args true "") Fixture.pair_batch
            (startup (Fixture.pair_ext (Fixture.fixed_size true))
               (Fixture.multimer_args true "") Fixture.pair_batch).2
            (mkSetup (Fixture.multimer_args true "") true "out/alignments"
               (DataPipelineMultimer (DataPipeline HmmsearchHitFeaturizer false))
               (Fixture.yields Fixture.two_models)
               [Fixture.target_b; Fixture.target_a])
            0 Fixture.target_b Fixture.target_a _ _ _).
  - vm_compute. reflexivity.
  - reflexivity.
  - reflexivity.
Defined.

(** ** Single-chain targets *)

(** Whatever the imported modules return, lines 334-458 raise for a
    target with one chain before the model is run. *)
Lemma single_chain_raises E args is_multimer model od t fd s :
  length (seqs t) = 1 ->
  exists e,
    (infer_and_write E args is_multimer model od t fd s).1 = Raise e
    /\ files (infer_and_write E args is_multimer model od t fd s).2 = files s
    /\ log (infer_and_write E args is_multimer model od t fd s).2
       = log s ++ [Called c_process_features (tag t)].
Proof.
  intros Hlen. destruct (seqs t) as [|q [|q' qs]] eqn:Hseqs; try done.
  unfold infer_and_write, predict. rewrite Hseqs. simpl.
  unfold bind, call. simpl.
  destruct (process_features E s fd is_multimer); simpl; eauto.
Qed.

(** C1, at the failing input.  One file with one chain of 50 residues,
    one model, relaxation skipped, diagnostics off: the run returns
    normally, but the target fails at the unpacking of the two chain
    lengths, the model is never run, and no structure file exists. *)
Theorem single_chain_target_fails :
  let r := main (Fixture.single_ext Fixture.one_model Fixture.no_faults)
             Fixture.base_args Fixture.single_batch in
  r.1 = Ok tt
  /\ inference_starts (log r.2) = ["t1"]
  /\ logged_errors (log r.2) = ["t1"]
  /\ calls_of c_run_model (log r.2) = []
  /\ files r.2 !! "out/model_1/t1/unrelaxed.pdb" = None
  /\ files r.2 = files Fixture.single_batch.
Proof. vm_compute. repeat split. Qed.

(** ** Tracing across models *)

(** C2, at the failing input.  Two models, targets in the buckets 50
    and 100: the first model traces at each bucket; the second, served
    from the feature cache, traces once, at its first target, with the
    bucket left by the last build, where the specification's cache
    would trace at 50 and at 100 again. *)
Theorem stale_bucket_on_cache_hit :
  let E := Fixture.pair_ext (Fixture.fixed_size true) in
  let args := Fixture.multimer_args true "" in
  let r := main E args Fixture.pair_batch in
  r.1 = Ok tt
  /\ inference_starts (log r.2) = ["b"; "a"; "b"; "a"]
  /\ map (fun t => round_up_seqlen (seq_sort_fn t))
       [Fixture.target_b; Fixture.target_a] = [50; 100]
  /\ traced (log r.2) = [("m1", 50); ("m1", 100); ("m2", 100)]
  /\ CompilationCacheSpec.run ["m1"; "m2"] [50; 100]
     = [("m1", 50); ("m1", 100); ("m2", 50); ("m2", 100)].
Proof. vm_compute. repeat split. Qed.

(** ** Counterexamples *)


(** C4 as stated fails: when the alignment runner, or the feature
    processor, raises, the scratch file stays on disk. *)
Lemma scratch_file_left_on_failure :
  let E := Fixture.single_ext Fixture.one_model (Fixture.mkFaults true true) in
  let args := Fixture.base_args in
  let s := with_dirs {[ "out" ]} (initial ∅) in
  let r1 := precompute_alignments E ["t1"] ["ACD"] "out/alignments" args s in
  let r2 := generate_feature_dict E ["t1"] ["ACD"] "out/alignments"
              (DataPipeline HhsearchHitFeaturizer false) args "out/model_1/t1"
              s in
  r1.1 = Raise Fixture.failure
  /\ files r1.2 !! tmp_fasta_path E args = Some (Text (fasta_record "t1" "ACD"))
  /\ r2.1 = Raise Fixture.failure
  /\ files r2.2 !! tmp_fasta_path E args = Some (Text (fasta_record "t1" "ACD")).
Proof. vm_compute. repeat split. Qed.


(** ** Instances *)





Lemma overlay_applied_twice_pair :
  let E := Fixture.pair_ext (Fixture.fixed_size false) in
  let args := Fixture.multimer_args true "cfg.json" in
  let d := Fixture.fixed_size true in
  let c0 := Fixture.fixed_size false in
  files Fixture.override_batch !! "cfg.json" = Some (Text Fixture.override_text)
  /\ (configure E args Fixture.override_batch).1
     = Ok (update_from_flattened_dict d (update_from_flattened_dict d c0))
  /\ calls_of c_update_from_flattened_dict
       (log (configure E args Fixture.override_batch).2)
     = ["cfg.json"; "cfg.json"]
  /\ update_from_flattened_dict d (update_from_flattened_dict d c0)
     = update_from_flattened_dict d c0.
Proof.
  split; [vm_compute; reflexivity|].
  destruct (overlay_applied_twice
              (Fixture.pair_ext (Fixture.fixed_size false))
              (Fixture.multimer_args true "cfg.json") Fixture.override_batch
              Fixture.override_text (Fixture.fixed_size true)
              (Fixture.fixed_size false))
    as [Hconf Hidem].
  - discriminate.
  - vm_compute. reflexivity.
  - reflexivity.
  - reflexivity.
  - rewrite Hconf. split; [reflexivity|]. split; [reflexivity | exact Hidem].
Defined.

(** A second invocation, started with the scratch file of a failed one
    still on disk, removes it when it returns. *)
Lemma scratch_file_removed_on_return_single :
  let E := Fixture.single_ext Fixture.one_model Fixture.no_faults in
  let args := Fixture.base_args in
  let s := with_files {[ "out/tmp_4242.fasta" := Text "stale" ]}
             (with_dirs {[ "out" ]} Fixture.single_batch) in
  is_Some (files s !! tmp_fasta_path E args)
  /\ files (precompute_alignments E ["t1"] [Fixture.poly_a 50]
              "out/alignments" args s).2
     !! tmp_fasta_path E args = None
  /\ files (generate_feature_dict E ["t1"] [Fixture.poly_a 50]
              "out/alignments" (DataPipeline HhsearchHitFeaturizer false)
              args "out/model_1/t1" s).2
     !! tmp_fasta_path E args = None.
Proof.
  cbv zeta. split; [vm_compute; by eexists|].
  pose proof (scratch_file_removed_on_return
                (Fixture.single_ext Fixture.one_model Fixture.no_faults)
                Fixture.base_args ["t1"] [Fixture.poly_a 50] "out/alignments"
                (DataPipeline HhsearchHitFeaturizer false) "out/model_1/t1"
                (with_files {[ "out/tmp_4242.fasta" := Text "stale" ]}
                   (with_dirs {[ "out" ]} Fixture.single_batch))) as [H1 H2].
  split.
  - destruct (precompute_alignments _ _ _ _ _ _) as [[e|[]] s1] eqn:Hrun.
    + vm_compute in Hrun. discriminate.
    + apply H1. discriminate.
  - destruct (generate_feature_dict _ _ _ _ _ _ _ _) as [[e|fd] s1] eqn:Hrun.
    + vm_compute in Hrun. discriminate.
    + exact H2.
Defined.

(** * Further properties *)

(** ** Buckets *)

Section FloatQuotient.

Import Float64.
Local Open Scope Z_scope.

Lemma ceil_unique (m K c : Z) :
  0 < K -> (c - 1) * K < m <= c * K -> - ((- m) / K) = c.
Proof.
  intros HK Hm.
  rewrite <- (Z.div_unique (- m) K (- c) (c * K - m)); lia.
Qed.

(** Rounding to nearest moves a quotient by at most one half. *)
Lemma nearest_even_bounds (num den : Z) :
  0 < den ->
  2 * (den * nearest_even num den) - den <= 2 * num
  <= 2 * (den * nearest_even num den) + den.
Proof.
  intros Hden. unfold nearest_even.
  pose proof (Z.div_mod num den ltac:(lia)) as Hdm.
  pose proof (Z.mod_pos_bound num den Hden) as Hr.
  set (q := num / den) in *. set (r := num mod den) in *.
  destruct (2 * r <? den) eqn:H1; [apply Z.ltb_lt in H1; lia|].
  apply Z.ltb_ge in H1.
  destruct (den <? 2 * r) eqn:H2; [apply Z.ltb_lt in H2; lia|].
  apply Z.ltb_ge in H2. destruct (Z.even q); lia.
Qed.

(** With at least five binary places after the point, a quotient by
    50 is rounded without reaching the next integer. *)
Lemma ceil_nearest_even_50 (a K : Z) :
  0 <= a -> 32 <= K ->
  - ((- nearest_even (a * K) 50) / K) = (a + 49) / 50.
Proof.
  intros Ha HK.
  pose proof (nearest_even_bounds (a * K) 50 ltac:(lia)) as Hm.
  set (m := nearest_even (a * K) 50) in *. clearbody m.
  pose proof (Z.div_mod a 50 ltac:(lia)) as Hdm.
  pose proof (Z.mod_pos_bound a 50 ltac:(lia)) as Hr.
  set (j := a / 50) in *. set (r := a mod 50) in *. clearbody j r.
  assert (HaK : a * K = 50 * (j * K) + r * K) by (rewrite Hdm; ring).
  assert (HrK : 0 <= r * K <= 49 * K) by nia.
  destruct (Z.eq_dec r 0) as [Hr0|Hr0].
  - assert (Hc : (a + 49) / 50 = j).
    { symmetry. apply (Z.div_unique (a + 49) 50 j 49); lia. }
    rewrite Hc. apply ceil_unique; [lia|].
    subst r. nia.
  - assert (Hc : (a + 49) / 50 = j + 1).
    { symmetry. apply (Z.div_unique (a + 49) 50 (j + 1) (r - 1)); lia. }
    assert (HrK' : K <= r * K) by nia.
    rewrite Hc. apply ceil_unique; [lia|]. nia.
Qed.

Lemma log2_quotient_50 (a : Z) :
  0 < a < 50 * 2 ^ 48 -> log2_quotient a 50 <= 47.
Proof.
  intros Ha. unfold log2_quotient.
  change (Z.log2 50) with 5.
  assert (Hlog : Z.log2 a < 54).
  { apply Z.log2_lt_pow2; [lia|]. change (2 ^ 54) with (64 * 2 ^ 48). lia. }
  destruct (0 <=? Z.log2 a - 5) eqn:He.
  - destruct (50 * 2 ^ (Z.log2 a - 5) <=? a) eqn:Hc; [|lia].
    apply Z.leb_le in Hc. apply Z.leb_le in He.
    assert (Hp : 2 ^ (Z.log2 a - 5) < 2 ^ 48) by lia.
    apply Z.pow_lt_mono_r_iff in Hp; lia.
  - apply Z.leb_gt in He.
    destruct (50 <=? a * 2 ^ (- (Z.log2 a - 5))); lia.
Qed.

Lemma round_up_seqlen_Z (n : nat) :
  Z.of_nat (round_up_seqlen n) = (Z.of_nat n + 49) / 50 * 50.
Proof.
  unfold round_up_seqlen, TRACING_INTERVAL. simpl Nat.sub.
  rewrite Nat2Z.inj_mul, Nat2Z.inj_div, Nat2Z.inj_add. reflexivity.
Qed.

(** Up to [50 * 2 ^ 48] the quotient in binary64 has the ceiling of
    the exact quotient. *)
Lemma round_up_seqlen_float_exact (n : nat) :
  Z.of_nat n <= 50 * 2 ^ 48 ->
  round_up_seqlen_float (Z.of_nat n) = Ok (Z.of_nat (round_up_seqlen n)).
Proof.
  intros Hn. rewrite round_up_seqlen_Z.
  set (a := Z.of_nat n) in *. assert (Ha : 0 <= a) by (unfold a; lia).
  clearbody a.
  destruct (Z.eq_dec a 0) as [->|Ha0]; [reflexivity|].
  destruct (Z.eq_dec a (50 * 2 ^ 48)) as [->|Hatop]; [by vm_compute|].
  pose proof (log2_quotient_50 a ltac:(lia)) as Hq.
  unfold round_up_seqlen_float, true_div, TRACING_INTERVAL.
  change (Z.of_nat 50) with 50.
  destruct (a =? 0) eqn:Hz; [apply Z.eqb_eq in Hz; lia|].
  set (e := Z.max (log2_quotient a 50 - 52) (-1074)).
  assert (He : e <= -5) by (unfold e; lia).
  assert (He' : (0 <=? e) = false) by (apply Z.leb_gt; lia).
  rewrite He'. simpl. unfold ceil. simpl. rewrite He'.
  assert (HK : 32 <= 2 ^ (- e)).
  { change 32 with (2 ^ 5). apply Z.pow_le_mono_r; lia. }
  by rewrite (ceil_nearest_even_50 a (2 ^ (- e)) Ha HK).
Qed.

End FloatQuotient.

(** X1.  Up to a sequence length of [50 * 2 ^ 48] line 157, evaluated
    in binary64 as Python does, returns what the exact quotient gives:
    the least multiple of [TRACING_INTERVAL] that is at least the
    length, which adds less than one interval and is the length itself
    exactly on the multiples.  The bound is sharp: one residue more,
    and the result is smaller than the length. *)
Theorem round_up_seqlen_least_multiple (n : nat) :
  (Z.of_nat n <= 50 * 2 ^ 48)%Z ->
  round_up_seqlen_float (Z.of_nat n) = Ok (Z.of_nat (round_up_seqlen n))
  /\ n <= round_up_seqlen n < n + TRACING_INTERVAL
  /\ Nat.divide TRACING_INTERVAL (round_up_seqlen n)
  /\ (round_up_seqlen n = n <-> Nat.divide TRACING_INTERVAL n)
  /\ round_up_seqlen_float (50 * 2 ^ 48 + 1) = Ok (50 * 2 ^ 48)%Z.
Proof.
  intros Hn. split; [by apply round_up_seqlen_float_exact|].
  assert (Hexact : n <= round_up_seqlen n < n + TRACING_INTERVAL
                   /\ Nat.divide TRACING_INTERVAL (round_up_seqlen n)
                   /\ (round_up_seqlen n = n <-> Nat.divide TRACING_INTERVAL n)).
  { unfold round_up_seqlen, TRACING_INTERVAL. simpl Nat.sub.
    pose proof (Nat.div_mod_eq (n + 49) 50) as Hdm.
    pose proof (Nat.mod_upper_bound (n + 49) 50 ltac:(lia)) as Hlt.
    split; [lia|]. split.
    - exists ((n + 49) / 50). lia.
    - split.
      + intros Heq. exists ((n + 49) / 50). lia.
      + intros [k Hk]. subst n.
        replace (k * 50 + 49) with (49 + k * 50) by lia.
        rewrite Nat.div_add by lia. simpl. lia. }
  destruct Hexact as (H1 & H2 & H3).
  split; [done|]. split; [done|]. split; [done|]. by vm_compute.
Qed.

Lemma round_up_seqlen_least_multiple_120 :
  round_up_seqlen_float 120 = Ok 150%Z
  /\ 120 <= round_up_seqlen 120 < 120 + TRACING_INTERVAL.
Proof.
  destruct (round_up_seqlen_least_multiple 120) as (H1 & H2 & _).
  - vm_compute. discriminate.
  - split; [exact H1 | exact H2].
Defined.

(** X2.  Buckets follow lengths: a longer sequence never gets a smaller
    bucket, and rounding a bucket gives the bucket back. *)
Theorem round_up_seqlen_monotone_idempotent (n m : nat) :
  round_up_seqlen n <= round_up_seqlen (n + m)
  /\ round_up_seqlen (round_up_seqlen n) = round_up_seqlen n.
Proof.
  unfold round_up_seqlen, TRACING_INTERVAL. simpl Nat.sub. split.
  - apply Nat.mul_le_mono_r. apply Nat.Div0.div_le_mono. lia.
  - replace ((n + 49) / 50 * 50 + 49) with (49 + (n + 49) / 50 * 50) by lia.
    rewrite Nat.div_add by lia. simpl. lia.
Qed.

(** ** More on the alignment statistics *)

Section MoreStats.

Import MsaStats.

Lemma masked_counts_three masked l1 l2 h c :
masked_counts masked l1 l2 h = Ok c -> length c = 3.
Proof.
unfold masked_counts, res_bind.
repeat match goal with
       | |- context [ if ?b then _ else _ ] => destruct b
       end; intros H; try discriminate; by injection H as <-.
Qed.

(** The counts of an iteration are those of the rows its mask kept. *)
Lemma iteration_counts_Ok all_msa l1 l2 h prefix i c :
iteration_counts all_msa l1 l2 h prefix i = Ok c ->
exists masked, masked_counts masked l1 l2 h = Ok c.
Proof.
unfold iteration_counts, batch_counts, res_bind. intros H.
repeat match type of H with
       | context [ match ?x with _ => _ end ] => destruct x
       end; try discriminate; eauto.
Qed.

(** Apart from a 3-D tensor taken whole, they are the counts of a 2-D
  batch. *)
Lemma iteration_counts_batch all_msa l1 l2 h prefix i c :
(String.eqb prefix "total_" = true -> exists t, all_msa = T2 t) ->
iteration_counts all_msa l1 l2 h prefix i = Ok c ->
exists batch, select_batch all_msa prefix i = Ok batch
  /\ batch_counts batch l1 l2 h = Ok c.
Proof.
intros Hp. unfold iteration_counts. destruct all_msa as [t|t].
- destruct (select_batch (T2 t) prefix i) as [e|batch]; [discriminate|].
  simpl. eauto.
- destruct (String.eqb prefix "total_").
  + destruct (Hp eq_refl) as [t' Ht']. discriminate.
  + destruct (select_batch (T3 t) prefix i) as [e|batch]; [discriminate|].
    simpl. eauto.
Qed.

Lemma stats_rows_Ok all_msa l1 l2 h prefix idxs rs :
stats_rows all_msa l1 l2 h prefix idxs = Ok rs ->
Forall2 (fun i r => r.1 = i + 1
           /\ iteration_counts all_msa l1 l2 h prefix i = Ok r.2) idxs rs.
Proof.
revert rs. induction idxs as [|i idxs IH]; intros rs H; simpl in H.
- injection H as <-. constructor.
- destruct (iteration_counts all_msa l1 l2 h prefix i) as [e|c] eqn:Hc;
    [discriminate|]. simpl in H.
  destruct (stats_rows all_msa l1 l2 h prefix idxs) as [e|rest];
    [discriminate|]. simpl in H. injection H as <-.
  constructor; [|by apply IH]. done.
Qed.

Lemma get_msa_stats_Ok all_msa l1 l2 n h prefix df :
get_msa_stats all_msa l1 l2 n h prefix = Ok df ->
stats_rows all_msa l1 l2 h prefix (seq 0 n) = Ok (df_rows df)
/\ df_columns df
   = match n with 0 => [] | _ => map (fun j => prefix +:+ j) stat_names end.
Proof.
unfold get_msa_stats.
destruct (stats_rows all_msa l1 l2 h prefix (seq 0 n)) as [e|rs];
  [discriminate|]. simpl. by intros [= <-].
Qed.

(** The three masks of one iteration never overlap. *)
Lemma counts_disjoint (h1 h2 : list bool) :
count_true (zip_with andb h1 h2)
+ count_true (zip_with xorb h1 (zip_with andb h1 h2))
+ count_true (zip_with xorb h2 (zip_with andb h1 h2))
<= length h1.
Proof.
unfold count_true. revert h2.
induction h1 as [|a h1 IH]; intros [|b h2]; simpl; try lia.
specialize (IH h2). destruct a, b; simpl; lia.
Qed.

Lemma batch_counts_bound batch l1 l2 h c :
batch_counts batch l1 l2 h = Ok c -> list_sum c <= length (rows batch).
Proof.
unfold batch_counts, masked_counts, res_bind.
assert (Hlen : forall k,
  length (have_msa (cols_to k (keep_masked batch))) <= length (rows batch)).
{ intros k. unfold have_msa, cols_to, keep_masked. simpl.
  rewrite !length_map. apply List.filter_length_le. }
repeat match goal with
       | |- context [ if ?b then _ else _ ] => destruct b
       end; intros H; try discriminate; injection H as <-; simpl;
  rewrite Nat.add_0_r, Nat.add_assoc;
  (etrans; [apply counts_disjoint | apply Hlen]).
Qed.

Lemma slice_depth t i batch :
slice_recycle t i = Ok batch -> length (rows batch) = length (rows3 t).
Proof.
unfold slice_recycle. destruct (i <? nrec t); [|discriminate].
intros [= <-]. simpl. by rewrite length_map.
Qed.

Lemma select_batch_depth all_msa prefix i batch :
select_batch all_msa prefix i = Ok batch ->
length (rows batch) = depth all_msa.
Proof.
unfold select_batch.
destruct (String.eqb prefix "total_"), all_msa as [t|t]; simpl;
  try discriminate.
- by intros [= <-].
- apply slice_depth.
Qed.

End MoreStats.

(** X3.  A table that [get_msa_stats] returns has one row for each
    recycling iteration, labelled 1 to [num_recycle] in order, each
    with three counts, under the three prefixed column names (no
    column at all when [num_recycle] is 0). *)
Theorem get_msa_stats_shape (all_msa : Tensor) (seq_length_1 seq_length_2 : nat)
    (num_recycle : nat) (if_homo : bool) (prefix : string)
    (df : MsaStats.DataFrame) :
  MsaStats.get_msa_stats all_msa seq_length_1 seq_length_2 num_recycle
    if_homo prefix = Ok df ->
  map fst (MsaStats.df_rows df) = seq 1 num_recycle
  /\ Forall (fun r => length r.2 = 3) (MsaStats.df_rows df)
  /\ MsaStats.df_columns df
     = match num_recycle with
       | 0 => []
       | _ => [prefix +:+ "paired"; prefix +:+ "unpaired_chain_1";
               prefix +:+ "unpaired_chain_2"]
       end.
Proof.
  intros H. apply get_msa_stats_Ok in H as [Hrows Hcols].
  apply stats_rows_Ok in Hrows.
  split; [|split; [|exact Hcols]].
  - rewrite <- seq_shift.
    induction Hrows as [|i r idxs rs [Hi _] _ IH]; simpl; [done|].
    rewrite Hi, IH. f_equal. lia.
  - induction Hrows as [|i r idxs rs [_ Hc] _ IH]; constructor; [|done].
    apply iteration_counts_Ok in Hc as [masked Hc].
    by eapply masked_counts_three.
Qed.

Lemma get_msa_stats_shape_planted :
  map fst [(1, [3; 2; 0])] = seq 1 1
  /\ Forall (fun r : nat * list nat => length r.2 = 3) [(1, [3; 2; 0])].
Proof.
  destruct (get_msa_stats_shape (T3 Fixture.planted) 2 3 1 false ""
              (MsaStats.mkDF ["paired"; "unpaired_chain_1"; "unpaired_chain_2"]
                 [(1, [3; 2; 0])]) eq_refl) as (H1 & H2 & _).
  split; [exact H1 | exact H2].
Defined.

(** X4.  In every row of a table [get_msa_stats] returns, the three
    counts add up to at most the number of alignment rows of the
    tensor: no row is counted twice.  This is for the tensors [main]
    passes, a 2-D one under the prefix ["total_"] and 3-D ones under
    the others.  A 3-D tensor under ["total_"] is masked by row and
    recycling slice, and can count more: one alignment row of two
    columns and two slices is counted as two. *)
Theorem get_msa_stats_counts_bounded (all_msa : Tensor)
    (seq_length_1 seq_length_2 : nat) (num_recycle : nat) (if_homo : bool)
    (prefix : string) (df : MsaStats.DataFrame) :
  ((String.eqb prefix "total_" = true -> exists t, all_msa = T2 t) ->
   MsaStats.get_msa_stats all_msa seq_length_1 seq_length_2 num_recycle
     if_homo prefix = Ok df ->
   Forall (fun r => list_sum r.2 <= depth all_msa) (MsaStats.df_rows df))
  /\ (let whole := T3 (mkT3 2 2 [[[1; 1]; [1; 1]]%Z]) in
      depth whole = 1
      /\ MsaStats.get_msa_stats whole 1 1 1 false "total_"
         = Ok (MsaStats.mkDF
                 ["total_paired"; "total_unpaired_chain_1";
                  "total_unpaired_chain_2"]
                 [(1, [2; 0; 0])])).
Proof.
  split; [|by vm_compute].
  intros Hp H. apply get_msa_stats_Ok in H as [Hrows _].
  apply stats_rows_Ok in Hrows.
  induction Hrows as [|i r idxs rs [_ Hc] _ IH]; constructor; [|done].
  apply (iteration_counts_batch _ _ _ _ _ _ _ Hp) in Hc as (batch & Hsel & Hc).
  rewrite <- (select_batch_depth _ _ _ _ Hsel).
  by eapply batch_counts_bound.
Qed.

Lemma get_msa_stats_counts_bounded_planted :
  Forall (fun r : nat * list nat => list_sum r.2 <= 6) [(1, [3; 2; 0])].
Proof.
  refine (proj1 (get_msa_stats_counts_bounded (T3 Fixture.planted) 2 3 1 false
                   ""
                   (MsaStats.mkDF
                      ["paired"; "unpaired_chain_1"; "unpaired_chain_2"]
                      [(1, [3; 2; 0])])) _ eq_refl).
  intros H. vm_compute in H. discriminate.
Defined.

Section StatsEdges.

Import MsaStats.

Lemma homo_masks (h : list bool) :
zip_with andb h h = h
/\ count_true (zip_with xorb h h) = 0.
Proof.
unfold count_true.
induction h as [|a h [IH1 IH2]]; simpl; [done|].
rewrite IH1. destruct a; simpl; by rewrite ?IH2.
Qed.

Lemma masked_counts_homo masked l1 l2 c :
masked_counts masked l1 l2 true = Ok c -> exists p, c = [p; 0; 0].
Proof.
unfold masked_counts, res_bind. simpl.
destruct (ncols masked =? l1); [|discriminate].
intros [= <-].
destruct (homo_masks (have_msa (cols_to l1 masked))) as [H1 H2].
rewrite H1, H2. eauto.
Qed.

Lemma stats_rows_out_of_range t l1 l2 h prefix idxs :
String.eqb prefix "total_" = false ->
Exists (fun i => nrec t <= i) idxs ->
is_ok (stats_rows (T3 t) l1 l2 h prefix idxs) = false.
Proof.
intros Hp Hex. induction Hex as [i idxs Hi|i idxs Hex IH]; cbn [stats_rows].
- unfold iteration_counts, select_batch, slice_recycle. rewrite Hp.
  by replace (i <? nrec t) with false by (symmetry; apply Nat.ltb_ge; lia).
- destruct (iteration_counts (T3 t) l1 l2 h prefix i); [done|]. simpl.
  by destruct (stats_rows (T3 t) l1 l2 h prefix idxs).
Qed.

End StatsEdges.

(** X5.  In homo mode chain 2 is chain 1: every row of the table has
    both unpaired counts 0. *)
Theorem get_msa_stats_homo (all_msa : Tensor) (seq_length_1 seq_length_2 : nat)
    (num_recycle : nat) (prefix : string) (df : MsaStats.DataFrame) :
  MsaStats.get_msa_stats all_msa seq_length_1 seq_length_2 num_recycle
    true prefix = Ok df ->
  Forall (fun r => exists paired, r.2 = [paired; 0; 0]) (MsaStats.df_rows df).
Proof.
  intros H. apply get_msa_stats_Ok in H as [Hrows _].
  apply stats_rows_Ok in Hrows.
  induction Hrows as [|i r idxs rs [_ Hc] _ IH]; constructor; [|done].
  apply iteration_counts_Ok in Hc as [masked Hc].
  by eapply masked_counts_homo.
Qed.

Lemma get_msa_stats_homo_planted :
  Forall (fun r : nat * list nat => exists paired, r.2 = [paired; 0; 0])
    [(1, [5; 0; 0])].
Proof.
  exact (get_msa_stats_homo (T3 Fixture.planted) 5 0 1 ""
           (MsaStats.mkDF ["paired"; "unpaired_chain_1"; "unpaired_chain_2"]
              [(1, [5; 0; 0])]) eq_refl).
Defined.

(** X6.  The width assertions: with at least one recycling iteration,
    [get_msa_stats] raises [AssertionError] when the columns left after
    chain 1 are not [seq_length_2] many, or, in homo mode, when the
    slice is not [seq_length_1] wide. *)
Theorem get_msa_stats_width_assertion (all_msa : Tensor) (prefix : string)
    (batch : Tensor2) (seq_length_1 seq_length_2 : nat) (n : nat)
    (if_homo : bool) :
  MsaStats.select_batch all_msa prefix 0 = Ok batch ->
  (if if_homo then ncols batch <> seq_length_1
   else ncols batch - seq_length_1 <> seq_length_2) ->
  MsaStats.get_msa_stats all_msa seq_length_1 seq_length_2 (S n)
    if_homo prefix = Raise AssertionError.
Proof.
  intros Hsel Hw. unfold MsaStats.get_msa_stats. simpl.
  rewrite (iteration_counts_select _ _ _ _ _ _ _ Hsel).
  unfold MsaStats.batch_counts, MsaStats.masked_counts. simpl.
  destruct if_homo; simpl; apply Nat.eqb_neq in Hw; by rewrite Hw.
Qed.

Lemma get_msa_stats_width_assertion_planted :
  MsaStats.get_msa_stats (T3 Fixture.planted) 2 4 1 false ""
  = Raise AssertionError.
Proof.
  refine (get_msa_stats_width_assertion (T3 Fixture.planted) "" _ 2 4 0 false
            eq_refl _).
  simpl. lia.
Defined.

(** X7.  The ends of the recycling range: for no iteration the table
    is empty, whatever the tensor; and a 3-D view with fewer recycling
    slices than [num_recycle] makes [get_msa_stats] raise. *)
Theorem get_msa_stats_recycle_range (all_msa : Tensor) (t : Tensor3)
    (seq_length_1 seq_length_2 : nat) (num_recycle : nat) (if_homo : bool)
    (prefix : string) :
  MsaStats.get_msa_stats all_msa seq_length_1 seq_length_2 0 if_homo prefix
  = Ok (MsaStats.mkDF [] [])
  /\ (String.eqb prefix "total_" = false -> nrec t < num_recycle ->
      is_ok (MsaStats.get_msa_stats (T3 t) seq_length_1 seq_length_2
               num_recycle if_homo prefix) = false).
Proof.
  split; [reflexivity|].
  intros Hp Hlt. unfold MsaStats.get_msa_stats.
  pose proof (stats_rows_out_of_range t seq_length_1 seq_length_2 if_homo
                prefix (seq 0 num_recycle) Hp) as H.
  destruct (MsaStats.stats_rows (T3 t) seq_length_1 seq_length_2 if_homo
              prefix (seq 0 num_recycle)); [done|].
  simpl in *. apply H. apply Exists_exists. exists (nrec t).
  split; [apply elem_of_seq; lia | lia].
Qed.

Lemma get_msa_stats_recycle_range_planted :
  is_ok (MsaStats.get_msa_stats (T3 Fixture.planted) 2 3 2 false "extra_")
  = false.
Proof.
  refine (proj2 (get_msa_stats_recycle_range (T3 Fixture.planted)
                   Fixture.planted 2 3 2 false "extra_") eq_refl _).
  simpl. lia.
Defined.

(** X8.  The ["total_"] view has no recycling dimension: every row of
    its table holds the same three counts. *)
Theorem get_msa_stats_total_rows_equal (t : Tensor2)
    (seq_length_1 seq_length_2 : nat) (num_recycle : nat) (if_homo : bool)
    (df : MsaStats.DataFrame) :
  MsaStats.get_msa_stats (T2 t) seq_length_1 seq_length_2 num_recycle
    if_homo "total_" = Ok df ->
  forall r r', r ∈ MsaStats.df_rows df -> r' ∈ MsaStats.df_rows df ->
    r.2 = r'.2.
Proof.
  intros H. apply get_msa_stats_Ok in H as [Hrows _].
  apply stats_rows_Ok in Hrows.
  assert (Hall : Forall (fun r =>
            MsaStats.batch_counts t seq_length_1 seq_length_2 if_homo = Ok r.2)
            (MsaStats.df_rows df)).
  { induction Hrows as [|i r idxs rs [_ Hc] _ IH]; by constructor. }
  intros r r' Hr Hr'.
  pose proof (proj1 (Forall_forall _ _) Hall r Hr) as H1.
  pose proof (proj1 (Forall_forall _ _) Hall r' Hr') as H2.
  congruence.
Qed.

Lemma get_msa_stats_total_rows_equal_fixture :
  ((1, [1; 0; 0]) : nat * list nat).2 = ((2, [1; 0; 0]) : nat * list nat).2.
Proof.
  refine (get_msa_stats_total_rows_equal (mkT2 4 [[1; 2; 3; 4]%Z]) 2 2 2 false
            (MsaStats.mkDF ["total_paired"; "total_unpaired_chain_1";
                            "total_unpaired_chain_2"]
               [(1, [1; 0; 0]); (2, [1; 0; 0])])
            eq_refl (1, [1; 0; 0]) (2, [1; 0; 0]) _ _).
  - apply list_elem_of_here.
  - apply list_elem_of_further, list_elem_of_here.
Defined.

(** ** Target discovery *)

Lemma endswith_suffix (suf s : string) :
  Str.endswith suf s = true <-> exists p, s = p +:+ suf.
Proof.
  split.
  - induction s as [|c s IH]; intros H.
    + destruct suf; [by exists "" | discriminate].
    + cbn [Str.endswith] in H. apply orb_true_iff in H as [H|H].
      * apply String.eqb_eq in H. exists "". by subst.
      * destruct (IH H) as [p ->]. by exists (String c p).
  - intros [p ->]. induction p as [|c p IH].
    + change ("" +:+ suf) with suf.
      destruct suf; [done|]. cbn [Str.endswith].
      by rewrite String.eqb_refl.
    + change (String c p +:+ suf) with (String c (p +:+ suf)).
      cbn [Str.endswith]. by rewrite IH, orb_true_r.
Qed.

(** X9.  [list_files_with_extensions] returns, in listing order, the
    names of the directory that end with one of the extensions, and
    raises what listing the directory raises. *)
Theorem list_files_with_extensions_suffixes (E : Ext) (dir : string)
    (extensions : list string) (s : St) :
  match listdir E s dir with
  | Raise e => list_files_with_extensions E dir extensions s = (Raise e, s)
  | Ok names =>
      exists fs,
        list_files_with_extensions E dir extensions s = (Ok fs, s)
        /\ sublist fs names
        /\ forall f, f ∈ fs <->
             f ∈ names /\ exists e p, e ∈ extensions /\ f = p +:+ e
  end.
Proof.
  unfold list_files_with_extensions, bind, ret.
  destruct (listdir E s dir) as [e|names]; [done|].
  eexists. split; [done|]. split.
  - induction names as [|f names IH]; simpl; [constructor|].
    destruct (existsb _ extensions); by constructor.
  - intros f. rewrite list_elem_of_In, filter_In, <- list_elem_of_In.
    rewrite existsb_exists. split.
    + intros [Hf (e & He & Hs)]. split; [done|].
      apply endswith_suffix in Hs as [p ->]. exists e, p.
      by rewrite list_elem_of_In.
    + intros [Hf (e & p & He & ->)]. split; [done|].
      exists e. rewrite <- list_elem_of_In. split; [done|].
      apply endswith_suffix. by eexists.
Qed.

Lemma no_dot_cons (c : ascii) (a : string) :
  Str.contains "." (String c a) = false ->
  Ascii.eqb c "."%char = false /\ Str.contains "." a = false.
Proof.
  simpl. intros [H1 H2]%orb_false_iff. split; [|done].
  destruct (Ascii.eqb c ".") eqn:Hc; [|done].
  apply Ascii.eqb_eq in Hc. subst c. simpl in H1. by destruct a.
Qed.

(** X10.  The output name of a target is its file's name up to the
    first dot: what follows that dot, extension or not, is dropped, so
    that [a.fasta] and [a.v2.fasta] share the output name [a]. *)
Theorem output_name_stops_at_first_dot (a b : string) :
  Str.contains "." a = false ->
  Str.before_dot (a +:+ "." +:+ b) = a /\ Str.before_dot a = a.
Proof.
  induction a as [|c a IH]; intros Hdot.
  - done.
  - apply no_dot_cons in Hdot as [Hc Hdot]. simpl. rewrite Hc.
    destruct (IH Hdot) as [-> ->]. done.
Qed.

Lemma output_name_stops_at_first_dot_v2 :
  Str.before_dot "a.v2.fasta" = "a" /\ Str.before_dot "a" = "a".
Proof.
  exact (output_name_stops_at_first_dot "a" "v2.fasta" eq_refl).
Defined.

Lemma gather_acc E args is_multimer fasta_files :
  forall acc s ts s',
    gather E args is_multimer fasta_files acc s = (Ok ts, s') ->
    exists new d,
      ts = acc ++ new
      /\ log s' = log s ++ d
      /\ files s' = files s
      /\ length new + length (skipped d) = length fasta_files
      /\ Forall (fun t => tag t = Str.join "-" (tags t)
                   /\ (is_multimer = false -> length (tags t) = 1)
                   /\ exists data, parse_fasta E data = (tags t, seqs t)) new
      /\ sublist (map file_name new) (map Str.before_dot fasta_files).
Proof.
  induction fasta_files as [|f fs IH]; intros acc s ts s' H; simpl in H.
  - injection H as <- <-. exists [], []. rewrite !app_nil_r.
    repeat split; constructor.
  - apply bind_Ok in H as (data & s1 & Hread & H).
    assert (s1 = s) as ->.
    { unfold read_file in Hread.
      destruct (files s !! _) as [[]|]; congruence. }
    destruct (parse_fasta E data) as [tags seqs] eqn:Hparse.
    destruct (negb is_multimer && negb (length tags =? 1)) eqn:Hskip.
    + apply bind_Ok in H as ([] & s2 & Hemit & H).
      unfold emit, modify in Hemit. injection Hemit as <-.
      destruct (IH _ _ _ _ H) as (new & d & -> & Hd & Hf & Hlen & Hall & Hsub).
      exists new, (PrintSkipping (Str.path_join (fasta_dir args) f) :: d).
      simpl in *. rewrite Hd, <- app_assoc. repeat split; try done.
      * lia.
      * by constructor.
    + destruct (IH _ _ _ _ H) as (new & d & -> & Hd & Hf & Hlen & Hall & Hsub).
      exists (mkTarget (Str.join "-" tags) tags seqs (Str.before_dot f) :: new), d.
      rewrite <- app_assoc. simpl. repeat split; try done.
      * lia.
      * constructor; [|done]. simpl. split; [done|]. split; [|by eauto].
        intros ->. simpl in Hskip. apply negb_false_iff in Hskip.
        by apply Nat.eqb_eq.
      * by constructor.
Qed.

(** X11.  Target discovery accounts for every FASTA file: each is
    either gathered as a target or reported as skipped.  A target's
    composite tag is its chain tags joined by ["-"], its output name
    comes from its file's name, and outside multimer mode every
    gathered target has exactly one chain tag.  Discovery writes no
    file. *)
Theorem gather_accounts_for_files (E : Ext) (args : Args) (is_multimer : bool)
    (fasta_files : list string) (s s' : St) (targets : list Target) :
  gather E args is_multimer fasta_files [] s = (Ok targets, s') ->
  length targets + length (skipped (drop (length (log s)) (log s')))
  = length fasta_files
  /\ Forall (fun t => tag t = Str.join "-" (tags t)
               /\ (is_multimer = false -> length (tags t) = 1)) targets
  /\ sublist (map file_name targets) (map Str.before_dot fasta_files)
  /\ files s' = files s.
Proof.
  intros H.
  destruct (gather_acc E args is_multimer fasta_files [] s targets s' H)
    as (new & d & -> & Hd & Hf & Hlen & Hall & Hsub).
  simpl. rewrite Hd, drop_app_length. repeat split; try done.
  eapply Forall_impl; [exact Hall|]. by intros t (? & ? & _).
Qed.

Lemma gather_accounts_for_files_pair :
  let E := Fixture.pair_ext ∅ in
  let r := gather E (Fixture.multimer_args false "") true
             ["a.fasta"; "b.fasta"] [] Fixture.pair_batch in
  r.1 = Ok [Fixture.target_a; Fixture.target_b]
  /\ length [Fixture.target_a; Fixture.target_b]
     + length (skipped (drop (length (log Fixture.pair_batch)) (log r.2))) = 2.
Proof.
  split; [vm_compute; reflexivity|].
  refine (proj1 (gather_accounts_for_files (Fixture.pair_ext ∅)
                   (Fixture.multimer_args false "") true
                   ["a.fasta"; "b.fasta"] Fixture.pair_batch
                   (gather (Fixture.pair_ext ∅) (Fixture.multimer_args false "")
                      true ["a.fasta"; "b.fasta"] [] Fixture.pair_batch).2
                   [Fixture.target_a; Fixture.target_b] _)).
  vm_compute. reflexivity.
Defined.

(** ** More on the worklist *)

Lemma insert_by_perm {A} (key : A -> nat) (x : A) (l : list A) :
  insert_by key x l ≡ₚ x :: l.
Proof.
  induction l as [|y l IH]; simpl; [done|].
  destruct (key x <=? key y); [done|].
  rewrite IH. apply Permutation_swap.
Qed.

Lemma insert_by_filter {A} (key : A -> nat) (k : nat) (x : A) (l : list A) :
  List.filter (fun y => key y =? k) (insert_by key x l)
  = List.filter (fun y => key y =? k) (x :: l).
Proof.
  induction l as [|y l IH]; simpl; [done|].
  destruct (key x <=? key y) eqn:Hxy; [done|].
  apply Nat.leb_gt in Hxy. simpl in *. rewrite IH.
  destruct (key x =? k) eqn:Hx, (key y =? k) eqn:Hy; try done.
  apply Nat.eqb_eq in Hx, Hy. lia.
Qed.

(** X12.  Ordering the worklist loses and repeats nothing, and targets
    of equal total length stay in the order of discovery. *)
Theorem worklist_complete_and_stable (targets : list Target) :
  sorted seq_sort_fn targets ≡ₚ targets
  /\ forall k,
       List.filter (fun t => seq_sort_fn t =? k) (sorted seq_sort_fn targets)
       = List.filter (fun t => seq_sort_fn t =? k) targets.
Proof.
  split.
  - induction targets as [|t ts IH]; simpl; [done|].
    by rewrite insert_by_perm, IH.
  - intros k. induction targets as [|t ts IH]; simpl; [done|].
    rewrite insert_by_filter. simpl. by rewrite IH.
Qed.

(** ** Options *)

Lemma startup_args E args s su s1 :
  startup E args s = (Ok su, s1) -> su_args su = effective_args args.
Proof.
  unfold startup. intros H.
  repeat (apply bind_Ok in H as (? & ? & _ & H)).
  unfold ret in H. by injection H as <- _.
Qed.

Lemma steps_target_body_options E args is_multimer alignment_dir dp model od t :
  steps (logging (fun e => may_log args e = true))
    (target_body E args is_multimer alignment_dir dp model od t).
Proof.
  destruct args as [fd upa ssm out dev preset save skip trace cif lsi dsa et json].
  pose proof (allows_logging (fun e =>
    may_log (mkArgs fd upa ssm out dev preset save skip trace cif lsi dsa et json)
      e = true)) as HR.
  unfold target_body, precompute_alignments, cached_feature_dict,
    build_feature_dict, generate_feature_dict, infer_and_write, predict,
    relax_and_save, maybe_trace, write_unrelaxed, save_all_outputs.
  destruct skip; simpl in *;
    steps_auto ltac:(reflexivity);
    try (intros ?; apply log_ext_refl).
Qed.

Lemma steps_run_models_options E args is_multimer alignment_dir dp gen targets :
  steps (logging (fun e => may_log args e = true))
    (run_models E args is_multimer alignment_dir dp gen targets).
Proof.
  pose proof (allows_logging (fun e => may_log args e = true)) as HR.
  apply (steps_loops E _ _ HR); [reflexivity|].
  intros model od t. unfold guarded_target.
  steps_auto ltac:(reflexivity).
  apply steps_target_body_options.
Qed.

Lemma startup_may_log args e : is_startup e -> may_log args e = true.
Proof. unfold is_startup. destruct e as [| | | | | | | | | f k|]; try done. by destruct f. Qed.

(** X13.  Every optional stage of a run is gated by its option: [main]
    calls the alignment runner only without precomputed alignments
    (and the embedding generator only in single-sequence mode as
    well), pads and traces only with [trace_model], calls only the
    encoder [cif_output] selects, relaxes only without
    [skip_relaxation], and logs the diagnostics lines only with
    [save_outputs]. *)
Theorem options_gate_stages (E : Ext) (args : Args) (s : St) :
  exists d,
    log (main E args s).2 = log s ++ d
    /\ Forall (fun e => may_log (effective_args args) e = true) d.
Proof.
  rewrite main_eval.
  pose proof (steps_startup E args s) as Hs.
  pose proof (startup_args E args s) as Hargs.
  destruct (startup E args s) as [[e|su] s1]; simpl in *.
  - eapply log_ext_weaken; [|exact Hs]. intros; by apply startup_may_log.
  - rewrite <- (Hargs su s1 eq_refl).
    eapply log_ext_trans.
    + eapply log_ext_weaken; [|exact Hs]. intros; by apply startup_may_log.
    + apply (steps_run_models_options E (su_args su)).
Qed.

(** ** Outside multimer mode *)

Lemma allows_all_fail : allows all_fail before_model.
Proof.
  assert (Hsame : forall s s', log s' = log s -> all_fail s s').
  { intros s s' Hl. exists []. by rewrite app_nil_r. }
  split; intros; try by apply Hsame.
  - destruct H as (d1 & Hd1 & Hm1 & He1), H0 as (d2 & Hd2 & Hm2 & He2).
    exists (d1 ++ d2). split; [by rewrite Hd2, Hd1, app_assoc|].
    split; [by apply Forall_app|].
    unfold logged_errors, inference_starts in *.
    rewrite !omap_app. by apply sublist_app.
  - destruct H as (Hm & Hs & He). exists [e]. split; [done|].
    split; [by repeat constructor|].
    destruct e; simpl; try done; [by destruct (Hs file_name0)
                                  | by destruct (He file_name0)].
Qed.

Lemma before_model_quiet (d : list Event) :
  Forall before_model d ->
  Forall (fun e => model_run_event e = false) d
  /\ logged_errors d = [] /\ inference_starts d = [].
Proof.
  induction 1 as [|e d (Hm & Hs & He) Hd (IH1 & IH2 & IH3)]; [done|].
  split; [by constructor|].
  destruct e; simpl; try done; [by destruct (Hs file_name0)
                                | by destruct (He file_name0)].
Qed.

Lemma always_raises_bind {A B} (m : M A) (k : A -> M B) :
  (forall a, always_raises (k a)) -> always_raises (bind m k).
Proof.
  intros Hk s. unfold bind. destruct (m s) as [[e|a] s1]; [done | apply Hk].
Qed.

Lemma infer_and_write_single_chain E args is_multimer model od t fd :
  length (seqs t) = 1 ->
  always_raises (infer_and_write E args is_multimer model od t fd)
  /\ steps (logging before_model)
       (infer_and_write E args is_multimer model od t fd).
Proof.
  intros Hlen. split; intros s;
    destruct (single_chain_raises E args is_multimer model od t fd s Hlen)
      as (e & Hr & _ & Hl).
  - by rewrite Hr.
  - exists [Called c_process_features (tag t)]. split; [done|].
    repeat constructor; intros f; discriminate.
Qed.

Lemma target_body_single_chain E args is_multimer alignment_dir dp model od t s :
  length (seqs t) = 1 ->
  exists e s1,
    target_body E args is_multimer alignment_dir dp model od t s = (Raise e, s1)
    /\ (s1 = s
        \/ exists d,
             log s1 = log s ++ LogInferenceStart (file_name t) :: d
             /\ Forall before_model d).
Proof.
  intros Hlen.
  pose proof (allows_logging before_model) as HR.
  unfold target_body. unfold bind at 1.
  destruct (makedirs_cases (final_output_dir args od t) true s)
    as [(D & Hm & _)|(e & Hm)]; rewrite Hm; [|by exists e, s; split; [|left]].
  unfold bind at 1, emit, modify. simpl.
  match goal with
  | |- context [ bind ?m ?k ?s0 ] =>
      assert (Hsteps : steps (logging before_model) (bind m k));
      [| assert (Hraise : always_raises (bind m k));
         [| specialize (Hsteps s0); specialize (Hraise s0);
            destruct (bind m k s0) as [[e|[]] s1] eqn:Hrun ] ]
  end.
  - steps_auto ltac:(idtac).
    + apply (steps_precompute_alignments E _ _ HR);
        intros; repeat split; intros; discriminate.
    + unfold cached_feature_dict, build_feature_dict.
      steps_auto ltac:(repeat split; intros; discriminate).
      * apply (steps_generate_feature_dict E _ _ HR);
          intros; repeat split; intros; discriminate.
      * intros s0. apply log_ext_refl.
    + by apply infer_and_write_single_chain.
  - apply always_raises_bind. intros _. apply always_raises_bind. intros fd.
    by apply infer_and_write_single_chain.
  - destruct Hsteps as (d & Hd & Hq). simpl in Hd.
    exists e, s1. split; [done|]. right. exists d. split; [|done].
    by rewrite Hd, <- app_assoc.
  - done.
Qed.

Lemma steps_guarded_single_chain E args is_multimer alignment_dir dp model od t :
  length (seqs t) = 1 ->
  steps all_fail
    (guarded_target E args is_multimer alignment_dir dp model od t).
Proof.
  intros Hlen s. rewrite guarded_target_boundary.
  destruct (target_body_single_chain E args is_multimer alignment_dir dp
              model od t s Hlen) as (e & s1 & -> & [->|(d & Hd & Hq)]).
  - simpl. exists [LogError (file_name t)]. split; [done|].
    split; [by repeat constructor|]. simpl. apply sublist_nil_l.
  - simpl. apply before_model_quiet in Hq as (Hm & He & Hs).
    exists (LogInferenceStart (file_name t) :: d ++ [LogError (file_name t)]).
    split; [by rewrite Hd, <- app_assoc|]. split.
    + constructor; [done|]. apply Forall_app. split; [done|].
      by repeat constructor.
    + unfold logged_errors, inference_starts in *. simpl.
      by rewrite !omap_app, He, Hs.
Qed.

Lemma steps_for_each_Forall {A} (R : St -> St -> Prop) (P : Event -> Prop)
    (HR : allows R P) (Q : A -> Prop) (l : list A) (body : A -> M unit) :
  Forall Q l -> (forall x, Q x -> steps R (body x)) -> steps R (for_each l body).
Proof.
  intros Hl Hbody. induction Hl as [|x l Hx Hl IH]; simpl.
  - apply (steps_ret R P HR).
  - apply (steps_bind R P HR); [by apply Hbody | intros _; exact IH].
Qed.

Lemma steps_run_models_single_chain E args is_multimer alignment_dir dp
    gen targets :
  Forall (fun t => length (seqs t) = 1) targets ->
  steps all_fail
    (run_models E args is_multimer alignment_dir dp gen targets).
Proof.
  intros Hall. pose proof allows_all_fail as HR.
  induction gen as [|next gen IH]; simpl.
  - apply (steps_ret _ _ HR).
  - apply (steps_bind _ _ HR).
    { apply (steps_call _ _ HR). repeat split; intros; discriminate. }
    intros [[model od]|]; [|apply (steps_ret _ _ HR)].
    apply (steps_bind _ _ HR); [apply (steps_set_cur _ _ HR)|]. intros _.
    apply (steps_bind _ _ HR); [|intros _; exact IH].
    eapply (steps_for_each_Forall _ _ HR); [exact Hall|].
    intros t Ht. by apply steps_guarded_single_chain.
Qed.

Lemma startup_single_chain E args s su s1 :
  Str.contains "multimer" (config_preset args) = false ->
  (forall data, length (parse_fasta E data).1 = length (parse_fasta E data).2) ->
  startup E args s = (Ok su, s1) ->
  Forall (fun t => length (seqs t) = 1) (su_sorted_targets su).
Proof.
  intros Hmono Hparse H. unfold startup in H.
  do 5 (apply bind_Ok in H as (? & ? & _ & H)).
  apply bind_Ok in H as (targets & ? & Hg & H).
  repeat (apply bind_Ok in H as (? & ? & _ & H)).
  unfold ret in H. injection H as <- _. simpl.
  assert (Hm : Str.contains "multimer"
                 (config_preset
                    (if String.prefix "seq" (config_preset args)
                     then set_use_single_seq_mode args else args)) = false)
    by (by destruct (String.prefix "seq" (config_preset args))).
  rewrite Hm in Hg.
  apply gather_acc in Hg as (new & d & Heq & _ & _ & _ & Hall & _).
  simpl in Heq. rewrite Heq. clear Heq.
  assert (Hsingle : Forall (fun t => length (seqs t) = 1) new).
  { eapply Forall_impl; [exact Hall|].
    intros t (_ & Hone & data & Hd). simpl.
    specialize (Hparse data). rewrite Hd in Hparse. simpl in Hparse.
    rewrite <- Hparse. by apply Hone. }
  assert (Hperm : sorted seq_sort_fn new ≡ₚ new).
  { clear. induction new as [|t ts IH]; simpl; [done|].
    by rewrite insert_by_perm, IH. }
  by rewrite Hperm.
Qed.

(** X14.  Outside multimer mode no structure is ever predicted: every
    gathered target has one chain, so the unpacking of two chain
    lengths raises in every per-target body.  The model is never run,
    no encoder or relaxation is called, and every started target logs
    its error (as does a target whose output directory cannot be
    created, without a start line), whatever the imported modules
    return (the FASTA parser returning as many sequences as tags). *)
Theorem monomer_presets_always_fail (E : Ext) (args : Args) (s : St) :
  Str.contains "multimer" (config_preset args) = false ->
  (forall data, length (parse_fasta E data).1 = length (parse_fasta E data).2) ->
  exists d,
    log (main E args s).2 = log s ++ d
    /\ Forall (fun e => model_run_event e = false) d
    /\ sublist (inference_starts d) (logged_errors d).
Proof.
  intros Hmono Hparse. rewrite main_eval.
  pose proof (steps_startup E args s) as Hs.
  pose proof (startup_single_chain E args s) as Hsingle.
  assert (Hstart : forall s1, log_ext is_startup (log s) (log s1) ->
            all_fail s s1).
  { intros s1 (d & Hd & Hq). exists d. split; [done|].
    assert (Forall before_model d) as Hb.
    { eapply Forall_impl; [exact Hq|]. intros e He. unfold is_startup in He.
      destruct e as [| | | | | | | | | f k|]; try done.
      destruct f; try done; repeat split; first [done | intros; discriminate]. }
    destruct (before_model_quiet d Hb) as (Hm & He & Hst).
    by rewrite He, Hst. }
  destruct (startup E args s) as [[e|su] s1]; simpl in *.
  - by apply Hstart.
  - eapply (a_trans _ _ allows_all_fail); [by apply Hstart|].
    apply steps_run_models_single_chain. by eapply Hsingle.
Qed.

Lemma monomer_presets_always_fail_single :
  let r := main (Fixture.single_ext Fixture.two_models Fixture.no_faults)
             Fixture.base_args Fixture.single_batch in
  Str.contains "multimer" (config_preset Fixture.base_args) = false
  /\ exists d,
       log r.2 = log Fixture.single_batch ++ d
       /\ Forall (fun e => model_run_event e = false) d
       /\ sublist (inference_starts d) (logged_errors d).
Proof.
  split; [reflexivity|].
  apply (monomer_presets_always_fail
           (Fixture.single_ext Fixture.two_models Fixture.no_faults)
           Fixture.base_args Fixture.single_batch eq_refl).
  intros data. simpl. unfold Fixture.read_fasta.
  generalize (Fixture.lines_from "" data).
  assert (H : forall ls tags seqs, length tags = length seqs ->
            length (Fixture.read_records ls tags seqs).1
            = length (Fixture.read_records ls tags seqs).2).
  { induction ls as [|l ls IH]; intros tags seqs Hlen; simpl.
    - by rewrite !length_reverse.
    - destruct l as [|c l].
      + destruct seqs; apply IH; simpl in *; lia.
      + destruct (Ascii.ascii_dec c ">") as [->|Hc].
        * apply IH. simpl. lia.
        * assert (Hgo : Fixture.read_records (String c l :: ls) tags seqs
                        = match seqs with
                          | [] => Fixture.read_records ls tags seqs
                          | q :: qs =>
                              Fixture.read_records ls tags ((q +:+ String c l) :: qs)
                          end).
          { simpl. by destruct c as [[] [] [] [] [] [] [] []]. }
          simpl in Hgo. rewrite Hgo.
          destruct seqs; apply IH; simpl in *; lia. }
  intros ls. by apply H.
Defined.

(** ** Alignment and feature calls *)

Lemma precompute_alignments_one_trace E args tag seq alignment_dir s :
  match precompute_alignments E [tag] [seq] alignment_dir args s with
  | (Ok _, s1) =>
      log s1 = log s ++ alignment_trace args tag
      /\ dirs s ⊆ dirs s1
      /\ match use_precomputed_alignments args with
         | None => Str.path_join alignment_dir tag ∈ dirs s1
         | Some _ => dirs s1 = dirs s
         end
  | (Raise _, _) => True
  end.
Proof.
  unfold precompute_alignments, alignment_trace. simpl zip.
  rewrite for_each_one.
  destruct (write_file_cases (tmp_fasta_path E args)
              (Text (fasta_record tag seq)) s) as [[Hw _]|(e & Hw & _)];
    unfold bind; rewrite Hw; [|done].
  destruct (use_precomputed_alignments args).
  { unfold ret, remove. simpl. rewrite lookup_insert_eq. simpl.
    by rewrite app_nil_r. }
  unfold emit, modify. simpl.
  match goal with
  | |- context [ makedirs ?p ?b ?st ] =>
      destruct (makedirs_cases p b st) as [(D & Hm & Hin & _)|(e & Hm)];
      rewrite Hm
  end; [|done].
  destruct (use_single_seq_mode args); unfold call, ret, remove; simpl;
    repeat match goal with
           | |- context [ embedding_generator_run E ?a ?b ?c ] =>
               destruct (embedding_generator_run E a b c) as [?|[]]; simpl
           | |- context [ alignment_runner_run E ?a ?b ?c ?d ?e ] =>
               destruct (alignment_runner_run E a b c d e) as [?|[]]; simpl
           end;
    try done;
    rewrite lookup_insert_eq; simpl; rewrite <- ?app_assoc;
    (split; [done|]);
    (split; [apply union_subseteq_r | by apply elem_of_union_l]).
Qed.

(** X15.  When [precompute_alignments] returns, it has handled the
    zipped (tag, sequence) pairs one after the other, in order: with no
    precomputed alignments, for each tag the log line, the embedding
    generator in single-sequence mode, then the alignment runner, and
    the tag's alignment directory exists; with precomputed alignments
    it has logged nothing and created no directory. *)
Theorem precompute_alignments_trace (E : Ext) (args : Args)
    (tags seqs : list string) (alignment_dir : string) (s s' : St) :
  precompute_alignments E tags seqs alignment_dir args s = (Ok tt, s') ->
  log s' = log s ++ flat_map (alignment_trace args) (zip tags seqs).*1
  /\ match use_precomputed_alignments args with
     | None =>
         forall tag, tag ∈ (zip tags seqs).*1 ->
           Str.path_join alignment_dir tag ∈ dirs s'
     | Some _ => dirs s' = dirs s
     end.
Proof.
  revert seqs s. induction tags as [|tag tags IH]; intros seqs s H.
  { simpl in H. injection H as <-. simpl. rewrite app_nil_r.
    split; [done|]. destruct (use_precomputed_alignments args); [done|].
    intros tag Hin. by apply elem_of_nil in Hin. }
  destruct seqs as [|seq seqs].
  { simpl in H. injection H as <-. simpl. rewrite app_nil_r.
    split; [done|]. destruct (use_precomputed_alignments args); [done|].
    intros tag' Hin. by apply elem_of_nil in Hin. }
  rewrite precompute_alignments_cons in H.
  pose proof (precompute_alignments_one_trace E args tag seq alignment_dir s)
    as Hone.
  destruct (precompute_alignments E [tag] [seq] alignment_dir args s)
    as [[e|[]] s1]; [discriminate|].
  destruct Hone as (Hl1 & Hsub1 & Hd1). destruct (IH _ _ H) as [Hl2 Hd2].
  simpl. split; [by rewrite Hl2, Hl1, <- app_assoc|].
  destruct (use_precomputed_alignments args) as [d|].
  - congruence.
  - assert (Hmono : dirs s1 ⊆ dirs s').
    { clear -H. revert seqs s1 H.
      induction tags as [|tg tags IH]; intros seqs s1 H.
      { simpl in H. by injection H as <-. }
      destruct seqs as [|sq seqs]; [simpl in H; by injection H as <-|].
      rewrite precompute_alignments_cons in H.
      pose proof (precompute_alignments_one_trace E args tg sq alignment_dir s1)
        as Hone.
      destruct (precompute_alignments E [tg] [sq] alignment_dir args s1)
        as [[e|[]] s2]; [discriminate|].
      destruct Hone as (_ & Hd & _). specialize (IH _ _ H).
      by etrans. }
    intros tag' [->|Hin]%elem_of_cons; [|by apply Hd2].
    by apply Hmono.
Qed.

Lemma precompute_alignments_trace_pair :
  let E := Fixture.pair_ext ∅ in
  let args := Fixture.multimer_args false "" in
  let s := with_dirs {[ "out" ]} Fixture.pair_batch in
  let r := precompute_alignments E ["a1"; "a2"] ["AC"; "DE"] "out/alignments"
             args s in
  r.1 = Ok tt
  /\ log r.2 = [LogGeneratingAlignments "a1"; Called c_alignment_runner_run "a1";
                LogGeneratingAlignments "a2"; Called c_alignment_runner_run "a2"].
Proof.
  split; [vm_compute; reflexivity|].
  refine (proj1 (precompute_alignments_trace (Fixture.pair_ext ∅)
                   (Fixture.multimer_args false "") ["a1"; "a2"] ["AC"; "DE"]
                   "out/alignments" (with_dirs {[ "out" ]} Fixture.pair_batch)
                   _ _)).
  vm_compute. reflexivity.
Defined.

(** The three branches of [generate_feature_dict] are one sequence:
    write the scratch file, call the processor, remove the file; the
    single-sequence branch raises before it on an empty list of
    tags. *)
Lemma generate_feature_dict_branches E args tags seqs alignment_dir dp dir :
  (exists c run,
     generate_feature_dict E tags seqs alignment_dir dp args dir
     = (feature_dict <-
          (write_file (tmp_fasta_path E args) c ;;
           call (feature_processor_of args seqs) (tmp_fasta_path E args) run) ;;
        remove (tmp_fasta_path E args) ;; ret feature_dict))
  \/ (forall s,
        generate_feature_dict E tags seqs alignment_dir dp args dir s
        = (Raise IndexError, s)).
Proof.
  unfold generate_feature_dict, feature_processor_of.
  destruct (Str.contains "multimer" (config_preset args));
    [left; by eexists _, _|].
  destruct (length seqs =? 1) eqn:Hlen; [|left; by eexists _, _].
  destruct tags as [|tag tags]; [by right|].
  destruct seqs as [|seq seqs]; [done|].
  left. by eexists _, _.
Qed.

Lemma generate_feature_dict_returns E args tags seqs alignment_dir dp dir s fd s1 :
  generate_feature_dict E tags seqs alignment_dir dp args dir s = (Ok fd, s1) ->
  log s1
  = log s ++ [Called (feature_processor_of args seqs) (tmp_fasta_path E args)]
  /\ feature_dicts s1 = feature_dicts s
  /\ rounded_seqlen s1 = rounded_seqlen s.
Proof.
  destruct (generate_feature_dict_branches E args tags seqs alignment_dir dp dir)
    as [(c & run & ->)|Hraise]; [|by rewrite Hraise].
  destruct (write_file_cases (tmp_fasta_path E args) c s)
    as [[Hw _]|(e & Hw & _)]; unfold bind; rewrite Hw; [|discriminate].
  unfold call, remove, ret. simpl.
  match goal with
  | |- context [ run ?st ] => destruct (run st) as [e|fd0]
  end; simpl; [discriminate|].
  rewrite lookup_insert_eq. simpl. by intros [= <- <-].
Qed.

(** X16.  [generate_feature_dict] makes exactly one call, to the
    processor its branch selects: [process_multiseq_fasta] only outside
    multimer mode with a number of sequences other than 1.  It makes
    none, and changes nothing, in two cases: when the scratch file
    cannot be opened, which raises what [open] raises, and, its one
    exception of its own, on the [IndexError] of the single-sequence
    branch given an empty tag list. *)
Theorem generate_feature_dict_one_call (E : Ext) (args : Args)
    (tags seqs : list string) (alignment_dir : string) (dp : DataProcessor)
    (dir : string) (s : St) :
  match tags with
  | [] =>
      Str.contains "multimer" (config_preset args) = false ->
      length seqs = 1 ->
      generate_feature_dict E tags seqs alignment_dir dp args dir s
      = (Raise IndexError, s)
  | _ :: _ =>
      match open_w (tmp_fasta_path E args) s with
      | (Ok _, _) =>
          log (generate_feature_dict E tags seqs alignment_dir dp args dir s).2
          = log s
            ++ [Called (feature_processor_of args seqs) (tmp_fasta_path E args)]
      | (Raise e, _) =>
          generate_feature_dict E tags seqs alignment_dir dp args dir s
          = (Raise e, s)
      end
  end.
Proof.
  unfold generate_feature_dict, feature_processor_of.
  destruct tags as [|tag tags].
  { intros -> Hlen. apply Nat.eqb_eq in Hlen. by rewrite Hlen. }
  set (tmp := tmp_fasta_path E args).
  assert (Hrun : forall c f key (run : St -> res FeatureDict),
    match open_w tmp s with
    | (Ok _, _) =>
        log ((feature_dict <- (write_file tmp c ;; call f key run) ;;
              remove tmp ;; ret feature_dict) s).2
        = log s ++ [Called f key]
    | (Raise e, _) =>
        (feature_dict <- (write_file tmp c ;; call f key run) ;;
         remove tmp ;; ret feature_dict) s = (Raise e, s)
    end).
  { intros c f key run.
    destruct (write_file_cases tmp c s) as [[Hw Ho]|(e & Hw & Ho)].
    - destruct (open_w tmp s) as [[e|[]] s0]; [discriminate|].
      unfold bind. rewrite Hw. unfold call, remove, ret. simpl.
      match goal with
      | |- context [ run ?st ] => destruct (run st) as [e|fd]
      end; simpl; [done|]. by rewrite lookup_insert_eq.
    - rewrite Ho. unfold bind. by rewrite Hw. }
  destruct (Str.contains "multimer" (config_preset args)); [apply Hrun|].
  destruct (length seqs =? 1) eqn:Hlen; [|apply Hrun].
  destruct seqs as [|seq seqs]; [done|].
  exact (Hrun (Text (fasta_record tag seq)) c_process_fasta tmp
           (fun s => process_fasta E s dp tmp (Str.path_join alignment_dir tag)
                       (SeqembMode (use_single_seq_mode args)))).
Qed.

Lemma generate_feature_dict_one_call_empty :
  generate_feature_dict (Fixture.single_ext Fixture.one_model Fixture.no_faults)
    [] ["ACD"] "out/alignments" (DataPipeline HhsearchHitFeaturizer false)
    Fixture.base_args "out/model_1/t1" Fixture.single_batch
  = (Raise IndexError, Fixture.single_batch).
Proof.
  exact (generate_feature_dict_one_call
           (Fixture.single_ext Fixture.one_model Fixture.no_faults)
           Fixture.base_args [] ["ACD"] "out/alignments"
           (DataPipeline HhsearchHitFeaturizer false) "out/model_1/t1"
           Fixture.single_batch eq_refl eq_refl).
Defined.
(** ** The override file *)

Lemma makedirs_keeps (path : string) (exist_ok : bool) (s : St) :
  files (makedirs path exist_ok s).2 = files s
  /\ log (makedirs path exist_ok s).2 = log s
  /\ feature_dicts (makedirs path exist_ok s).2 = feature_dicts s.
Proof.
  destruct (makedirs_cases path exist_ok s) as [(D & -> & _)|(e & ->)]; done.
Qed.

(** X18.  The output directory created, without an override path
    [configure] reads no file and returns the preset's configuration
    as it is; with a path at which there is no file, [main] stops
    with what [open] raises, having only created the output directory
    and built the preset's configuration: [FileNotFoundError], unless
    the path is a directory or lies below a regular file. *)
Theorem override_file_edges (E : Ext) (args : Args) (s s0 : St)
    (c0 : gmap string Value) :
  let s1 := with_log (log s0 ++ [Called c_model_config (config_preset args)]) s0 in
  makedirs (output_dir args) true s = (Ok tt, s0) ->
  model_config E s0 (config_preset args) (long_sequence_inference args)
    (use_deepspeed_evoformer_attention args) = Ok c0 ->
  (experiment_config_json args = "" -> configure E args s0 = (Ok c0, s1))
  /\ (experiment_config_json args <> "" ->
      files s !! experiment_config_json args = None ->
      exists e,
        main E args s = (Raise e, s1)
        /\ (experiment_config_json args ∉ dirs s0 ->
            Forall (fun p => files s !! p = None)
              (Str.ancestors (experiment_config_json args)) ->
            e = FileNotFoundError (experiment_config_json args))).
Proof.
  intros s1 Hmk Hconf. split.
  - intros Hjson. unfold configure, overlay_block. rewrite Hjson. simpl.
    unfold bind, call, ret. by rewrite Hconf.
  - intros Hjson Hfile. apply String.eqb_neq in Hjson.
    pose proof (makedirs_keeps (output_dir args) true s) as (Hf & _).
    rewrite Hmk in Hf. simpl in Hf.
    assert (Hfile0 : files s0 !! experiment_config_json args = None)
      by (by rewrite Hf).
    exists (no_file_error s1 (experiment_config_json args)). split.
    + assert (Hc : configure E args s0
                   = (Raise (no_file_error s1 (experiment_config_json args)),
                      s1)).
      { unfold configure, overlay_block. rewrite Hjson. simpl.
        unfold bind at 1, call. rewrite Hconf.
        unfold bind at 1. unfold bind at 1, read_file. simpl.
        by rewrite Hfile0. }
      rewrite main_eval. unfold startup.
      rewrite (bind_eval _ _ _ _ _ Hmk).
      assert (Hl : load_config E
                     (if String.prefix "seq" (config_preset args)
                      then set_use_single_seq_mode args else args) s0
                   = (Raise (no_file_error s1 (experiment_config_json args)),
                      s1)).
      { unfold load_config.
        assert (Heq : configure E
                        (if String.prefix "seq" (config_preset args)
                         then set_use_single_seq_mode args else args)
                      = configure E args) by (by destruct (String.prefix _ _)).
        rewrite Heq. by rewrite (bind_eval_raise _ _ _ _ _ Hc). }
      by rewrite (bind_eval_raise _ _ _ _ _ Hl).
    + intros Hdir Habove. unfold no_file_error, is_dir. simpl.
      rewrite bool_decide_eq_false_2 by done.
      replace (existsb (is_file s1) (Str.ancestors (experiment_config_json args)))
        with false; [done|].
      symmetry. apply not_true_is_false. intros Hex.
      apply existsb_exists in Hex as (p & Hp & Hfp).
      apply list_elem_of_In in Hp.
      pose proof (proj1 (Forall_forall _ _) Habove p Hp) as Hnone.
      unfold is_file in Hfp. apply bool_decide_eq_true in Hfp.
      simpl in Hfp. rewrite Hf, Hnone in Hfp. by destruct Hfp.
Qed.

Lemma override_file_edges_missing :
  let E := Fixture.pair_ext (Fixture.fixed_size false) in
  let args := Fixture.multimer_args false "cfg.json" in
  files Fixture.pair_batch !! "cfg.json" = None
  /\ (main E args Fixture.pair_batch).1 = Raise (FileNotFoundError "cfg.json").
Proof.
  split; [vm_compute; reflexivity|].
  destruct (override_file_edges (Fixture.pair_ext (Fixture.fixed_size false))
              (Fixture.multimer_args false "cfg.json") Fixture.pair_batch
              (makedirs "out" true Fixture.pair_batch).2
              (Fixture.fixed_size false)) as [_ Hmain].
  - vm_compute. reflexivity.
  - reflexivity.
  - destruct Hmain as (e & Hmain & He);
      [discriminate | vm_compute; reflexivity |].
    rewrite Hmain, He; [reflexivity | vm_compute; set_solver | repeat constructor].
Defined.

(** ** Start and error lines *)

(** What follows the start line in the per-target body logs neither a
    start line nor an error line. *)
Lemma steps_after_start E args is_multimer alignment_dir dp model od t :
  steps (logging (fun e => not_start e /\ not_error e))
    (precompute_alignments E (tags t) (seqs t) alignment_dir args ;;
     feature_dict <-
       cached_feature_dict E args alignment_dir dp
         (final_output_dir args od t) t ;;
     infer_and_write E args is_multimer model od t feature_dict).
Proof.
  pose proof (allows_logging (fun e => not_start e /\ not_error e)) as HR.
  steps_auto ltac:(idtac).
  - apply (steps_precompute_alignments E _ _ HR);
      intros; split; intros f; discriminate.
  - unfold cached_feature_dict, build_feature_dict.
    steps_auto ltac:(split; intros f; discriminate).
    + apply (steps_generate_feature_dict E _ _ HR);
        intros; split; intros f; discriminate.
    + intros s0. apply log_ext_refl.
  - apply (steps_infer_and_write E _ _ HR).
    intros e He. split; intros f ->; discriminate.
Qed.

Lemma no_start_no_error (d : list Event) :
  Forall (fun e => not_start e /\ not_error e) d ->
  inference_starts d = [] /\ logged_errors d = [].
Proof.
  induction 1 as [|e d [Hs He] Hd [IH1 IH2]]; [done|].
  destruct e; simpl; try done;
    [by destruct (Hs file_name0) | by destruct (He file_name0)].
Qed.

(** The per-target body, split at the creation of the output
    directory. *)
Lemma target_body_after_makedirs E args is_multimer alignment_dir dp model od
    t s :
  target_body E args is_multimer alignment_dir dp model od t s
  = match makedirs (final_output_dir args od t) true s with
    | (Raise e, s') => (Raise e, s')
    | (Ok _, s') =>
        (precompute_alignments E (tags t) (seqs t) alignment_dir args ;;
         feature_dict <-
           cached_feature_dict E args alignment_dir dp
             (final_output_dir args od t) t ;;
         infer_and_write E args is_multimer model od t feature_dict)
          (with_log (log s' ++ [LogInferenceStart (file_name t)]) s')
    end.
Proof.
  unfold target_body, bind, emit, modify.
  by destruct (makedirs (final_output_dir args od t) true s) as [[e|[]] s'].
Qed.

(** X19.  One iteration logs at most one start line and at most one
    error line, both for its target.  When the output directory cannot
    be created, the error line is all the iteration leaves: the target
    is reported as failed without having been started.  Otherwise the
    start line comes first, and the error line, if there is one, comes
    last. *)
Theorem error_lines_follow_start_lines (E : Ext) (args : Args)
    (is_multimer : bool) (alignment_dir : string) (dp : DataProcessor)
    (model : Model) (od : string) (t : Target) (s : St) :
  let r := guarded_target E args is_multimer alignment_dir dp model od t s in
  match makedirs (final_output_dir args od t) true s with
  | (Raise _, _) =>
      r = (Ok tt, with_log (log s ++ [LogError (file_name t)]) s)
  | (Ok _, _) =>
      exists d,
        inference_starts d = [] /\ logged_errors d = []
        /\ (log r.2 = log s ++ LogInferenceStart (file_name t) :: d
            \/ log r.2
               = log s ++ LogInferenceStart (file_name t) :: d
                 ++ [LogError (file_name t)])
  end.
Proof.
  intros r. subst r.
  set (rest :=
         (precompute_alignments E (tags t) (seqs t) alignment_dir args ;;
          feature_dict <-
            cached_feature_dict E args alignment_dir dp
              (final_output_dir args od t) t ;;
          infer_and_write E args is_multimer model od t feature_dict)).
  rewrite guarded_target_boundary, target_body_after_makedirs. fold rest.
  destruct (makedirs_cases (final_output_dir args od t) true s)
    as [(D & Hm & _)|(e & Hm)]; rewrite Hm; [|done].
  match goal with
  | |- context [ rest ?s0 ] =>
      pose proof (steps_after_start E args is_multimer alignment_dir dp
                    model od t s0) as (d & Hd & Hq);
      fold rest in Hd; destruct (rest s0) as [[e|[]] s1]
  end; simpl in *;
    exists d; destruct (no_start_no_error d Hq) as [Hs He];
    (split; [done|]); (split; [done|]).
  - right. by rewrite Hd, <- !app_assoc.
  - left. by rewrite Hd, <- !app_assoc.
Qed.

(** ** Files and directories *)

Section DiskGrows.

Context (tmp : string).

Lemma dg_same s s' :
files s' = files s -> dirs s' = dirs s -> disk_grows tmp s s'.
Proof. intros Hf Hd. split; [by rewrite Hd | intros p _; by rewrite Hf]. Qed.

Lemma dg_refl s : disk_grows tmp s s.
Proof. by apply dg_same. Qed.

Lemma dg_trans s1 s2 s3 :
disk_grows tmp s1 s2 -> disk_grows tmp s2 s3 -> disk_grows tmp s1 s3.
Proof.
intros [Hd1 Hf1] [Hd2 Hf2]. split; [by etrans|].
intros p Hp H. by apply Hf2, Hf1.
Qed.

Lemma steps_dg_pure {A} (m : M A) :
(forall s, (m s).2 = s) -> steps (disk_grows tmp) m.
Proof. intros H s. rewrite H. apply dg_refl. Qed.

Lemma steps_dg_bind {A B} (m : M A) (k : A -> M B) :
steps (disk_grows tmp) m -> (forall a, steps (disk_grows tmp) (k a)) ->
steps (disk_grows tmp) (bind m k).
Proof.
intros Hm Hk s. unfold bind.
specialize (Hm s). destruct (m s) as [[e|a] s1]; simpl in *; [done|].
eapply dg_trans; [exact Hm | apply Hk].
Qed.

Lemma steps_dg_for_each {A} (l : list A) (body : A -> M unit) :
(forall x, steps (disk_grows tmp) (body x)) ->
steps (disk_grows tmp) (for_each l body).
Proof.
intros Hbody. induction l as [|x l IH]; simpl.
- intros s. apply dg_refl.
- apply steps_dg_bind; [apply Hbody | intros _; exact IH].
Qed.

Lemma steps_dg_try_except (body : M unit) (handler : Exn -> M unit) :
steps (disk_grows tmp) body -> (forall e, steps (disk_grows tmp) (handler e)) ->
steps (disk_grows tmp) (try_except body handler).
Proof.
intros Hb Hh s. unfold try_except.
specialize (Hb s). destruct (body s) as [[e|a] s1]; simpl in *; [|done].
eapply dg_trans; [exact Hb | apply Hh].
Qed.

Lemma steps_dg_modify (f : St -> St) :
(forall s, files (f s) = files s /\ dirs (f s) = dirs s) ->
steps (disk_grows tmp) (modify f).
Proof. intros H s. destruct (H s). by apply dg_same. Qed.

Lemma steps_dg_call {A} (f : Callee) (key : string) (run : St -> res A) :
steps (disk_grows tmp) (call f key run).
Proof. intros s. by apply dg_same. Qed.

Lemma steps_dg_read_file (path : string) :
steps (disk_grows tmp) (read_file path).
Proof.
apply steps_dg_pure. intros s. unfold read_file.
by destruct (files s !! path) as [[]|].
Qed.

Lemma steps_dg_makedirs (path : string) (exist_ok : bool) :
steps (disk_grows tmp) (makedirs path exist_ok).
Proof.
intros s.
destruct (makedirs_cases path exist_ok s) as [(D & -> & _)|(e & ->)];
  [|apply dg_refl].
split; [apply union_subseteq_r | done].
Qed.

Lemma steps_dg_open_w (path : string) : steps (disk_grows tmp) (open_w path).
Proof.
intros s. destruct (open_w_cases path s) as [->|(e & ->)]; [|apply dg_refl].
split; [done|]. intros p _ H. simpl.
apply lookup_insert_is_Some'. by right.
Qed.

Lemma steps_dg_fp_write (path : string) (c : Content) :
steps (disk_grows tmp) (fp_write path c).
Proof.
intros s. split; [done|]. intros p _ H. simpl.
apply lookup_insert_is_Some'. by right.
Qed.

Lemma steps_dg_write_file (path : string) (c : Content) :
steps (disk_grows tmp) (write_file path c).
Proof.
unfold write_file. apply steps_dg_bind; [apply steps_dg_open_w|].
intros _. apply steps_dg_fp_write.
Qed.

Lemma steps_dg_remove : steps (disk_grows tmp) (remove tmp).
Proof.
intros s. unfold remove. destruct (files s !! tmp); [|apply dg_refl].
split; [done|]. intros p Hp H. simpl. by rewrite lookup_delete_ne.
Qed.

End DiskGrows.

Ltac dg_rule :=
  lazymatch goal with
  | |- steps (disk_grows ?tmp) ?m =>
      lazymatch m with
      | bind _ _ => apply steps_dg_bind; [| intros ?]
      | ret _ => by apply steps_dg_pure
      | raise _ => by apply steps_dg_pure
      | gets _ => by apply steps_dg_pure
      | lift _ => by apply steps_dg_pure
      | first ?l => apply steps_dg_pure; intros ?; by destruct l
      | unpack2 ?l =>
          apply steps_dg_pure; intros ?; by destruct l as [|? [|? [|? ?]]]
      | read_file _ => apply steps_dg_read_file
      | emit _ => apply steps_dg_modify; intros ?; by split
      | call _ _ _ => apply steps_dg_call
      | makedirs _ _ => apply steps_dg_makedirs
      | open_w _ => apply steps_dg_open_w
      | fp_write _ _ => apply steps_dg_fp_write
      | write_file _ _ => apply steps_dg_write_file
      | index_keys _ ?have =>
          apply steps_dg_pure; intros ?; unfold index_keys;
          by destruct (List.find _ _)
      | getitem _ ?entry => apply steps_dg_pure; intros ?; by destruct entry
      | remove _ => apply steps_dg_remove
      | modify _ => apply steps_dg_modify; intros ?; by split
      | for_each _ _ => apply steps_dg_for_each; intros ?
      | try_except _ _ => apply steps_dg_try_except; [| intros ?]
      | (if ?b then _ else _) => destruct b
      | (match ?x with _ => _ end) => destruct x
      end
  end.

Lemma steps_dg_after_lookup E tmp args is_multimer model od t fd :
  steps (disk_grows tmp) (infer_and_write E args is_multimer model od t fd).
Proof.
  unfold infer_and_write, predict, write_unrelaxed, relax_and_save,
    maybe_trace, save_all_outputs.
  repeat dg_rule.
Qed.

Lemma steps_dg_target_body E args is_multimer alignment_dir dp model od t :
  steps (disk_grows (tmp_fasta_path E args))
    (target_body E args is_multimer alignment_dir dp model od t).
Proof.
  unfold target_body, precompute_alignments, cached_feature_dict,
    build_feature_dict, generate_feature_dict.
  repeat dg_rule; apply steps_dg_after_lookup.
Qed.

Lemma steps_dg_guarded_target E args is_multimer alignment_dir dp model od t :
  steps (disk_grows (tmp_fasta_path E args))
    (guarded_target E args is_multimer alignment_dir dp model od t).
Proof.
  unfold guarded_target. repeat dg_rule. apply steps_dg_target_body.
Qed.

Lemma steps_dg_run_models E args is_multimer alignment_dir dp gen targets :
  steps (disk_grows (tmp_fasta_path E args))
    (run_models E args is_multimer alignment_dir dp gen targets).
Proof.
  induction gen as [|next gen IH]; simpl.
  - by apply steps_dg_pure.
  - repeat dg_rule; first [apply steps_dg_guarded_target | exact IH].
Qed.

Lemma steps_dg_gather E args is_multimer tmp fasta_files :
  forall targets,
    steps (disk_grows tmp) (gather E args is_multimer fasta_files targets).
Proof.
  induction fasta_files as [|f fs IH]; intros targets; simpl.
  - repeat dg_rule.
  - repeat dg_rule; apply IH.
Qed.

Lemma steps_dg_startup E args tmp : steps (disk_grows tmp) (startup E args).
Proof.
  unfold startup, load_config, configure, overlay_block, check_tracing,
    list_files_with_extensions.
  repeat dg_rule;
    first [ apply steps_dg_gather | by apply steps_dg_pure ].
Qed.

Lemma tmp_fasta_path_effective E args :
  tmp_fasta_path E (effective_args args) = tmp_fasta_path E args.
Proof.
  unfold effective_args. by destruct (String.prefix "seq" (config_preset args)).
Qed.

Lemma steps_dg_main E args :
  steps (disk_grows (tmp_fasta_path E args)) (main E args).
Proof.
  intros s. rewrite main_eval.
  pose proof (steps_dg_startup E args (tmp_fasta_path E args) s) as Hs.
  pose proof (startup_args E args s) as Hargs.
  destruct (startup E args s) as [[e|su] s1]; simpl in *; [done|].
  eapply dg_trans; [exact Hs|].
  rewrite <- tmp_fasta_path_effective, <- (Hargs su s1 eq_refl).
  apply steps_dg_run_models.
Qed.

(** X20.  A run removes nothing but its scratch file: every other file
    that exists when [main] starts still exists when it ends (input
    FASTA files and earlier outputs included), and so does every
    directory. *)
Theorem main_removes_only_scratch (E : Ext) (args : Args) (s : St) :
  dirs s ⊆ dirs (main E args s).2
  /\ forall p, p <> tmp_fasta_path E args ->
       is_Some (files s !! p) -> is_Some (files (main E args s).2 !! p).
Proof. exact (steps_dg_main E args s). Qed.

Lemma main_removes_only_scratch_pair :
  is_Some (files (main (Fixture.pair_ext ∅) (Fixture.multimer_args false "")
                    Fixture.pair_batch).2 !! "in/a.fasta").
Proof.
  apply (proj2 (main_removes_only_scratch (Fixture.pair_ext ∅)
                  (Fixture.multimer_args false "") Fixture.pair_batch)
           "in/a.fasta").
  - vm_compute. discriminate.
  - vm_compute. by eexists.
Defined.

Lemma logged_errors_app (d1 d2 : list Event) :
  logged_errors (d1 ++ d2) = logged_errors d1 ++ logged_errors d2.
Proof. unfold logged_errors. apply omap_app. Qed.

(** An iteration leaves its output directory behind, or its error
    line. *)
Lemma guarded_target_dir_or_error E args is_multimer alignment_dir dp model od
    t s :
  let r := guarded_target E args is_multimer alignment_dir dp model od t s in
  exists d,
    log r.2 = log s ++ d
    /\ (final_output_dir args od t ∈ dirs r.2 \/ file_name t ∈ logged_errors d).
Proof.
  intros r. subst r.
  pose proof (allows_logging (fun _ => True)) as HR.
  assert (Hlog : steps (logging (fun _ => True))
                   (guarded_target E args is_multimer alignment_dir dp
                      model od t)).
  { unfold guarded_target. steps_auto ltac:(done).
    unfold target_body. steps_auto ltac:(done).
    - apply (steps_precompute_alignments E _ _ HR); done.
    - unfold cached_feature_dict, build_feature_dict.
      steps_auto ltac:(done).
      + apply (steps_generate_feature_dict E _ _ HR); done.
      + intros s0. apply log_ext_refl.
    - apply (steps_infer_and_write E _ _ HR); done. }
  destruct (Hlog s) as (d & Hd & _). exists d. split; [done|].
  revert Hd. rewrite guarded_target_boundary, target_body_after_makedirs.
  destruct (makedirs_cases (final_output_dir args od t) true s)
    as [(D & Hm & Hin & _)|(e & Hm)]; rewrite Hm.
  - (* the directory is there once [makedirs] has returned *)
    intros _. left.
    match goal with
    | |- context [ bind ?m ?k ?s0 ] =>
        assert (Hrest : steps (disk_grows (tmp_fasta_path E args)) (bind m k));
        [| destruct (Hrest s0) as [Hsub _];
           destruct (bind m k s0) as [[e|[]] s1] ]
    end.
    { unfold precompute_alignments, cached_feature_dict,
        build_feature_dict, generate_feature_dict.
      repeat dg_rule; apply steps_dg_after_lookup. }
    + simpl in *. apply Hsub. by apply elem_of_union_l.
    + simpl in *. apply Hsub. by apply elem_of_union_l.
  - simpl. intros Hd. right. apply app_inv_head in Hd.
    subst d. simpl. apply list_elem_of_here.
Qed.

(** X21.  When the loop over the targets of a model ends, every target
    has its output directory
    [<output_directory>/<config_preset>/<file_name>] or an error line
    in the log: a missing directory is never silent. *)
Theorem output_directories_exist (E : Ext) (args : Args) (is_multimer : bool)
    (alignment_dir : string) (dp : DataProcessor) (model : Model) (od : string)
    (targets : list Target) (s : St) :
  let r := for_each targets
             (guarded_target E args is_multimer alignment_dir dp model od) s in
  exists d,
    log r.2 = log s ++ d
    /\ forall t, t ∈ targets ->
         final_output_dir args od t ∈ dirs r.2 \/ file_name t ∈ logged_errors d.
Proof.
  intros r. subst r. revert s.
  induction targets as [|t targets IH]; intros s.
  { exists []. rewrite app_nil_r. split; [done|].
    intros t Hin. by apply elem_of_nil in Hin. }
  rewrite for_each_cons.
  pose proof (guarded_target_ok E args is_multimer alignment_dir dp model od t s)
    as Hok.
  destruct (guarded_target_dir_or_error E args is_multimer alignment_dir dp
              model od t s) as (d1 & Hd1 & Ht).
  destruct (guarded_target E args is_multimer alignment_dir dp model od t s)
    as [[e|[]] s1]; simpl in *; [discriminate|].
  destruct (IH s1) as (d2 & Hd2 & Hrest).
  pose proof (steps_dg_for_each (tmp_fasta_path E args) targets
                (guarded_target E args is_multimer alignment_dir dp model od)
                (fun x => steps_dg_guarded_target E args is_multimer
                            alignment_dir dp model od x) s1) as [Hsub _].
  exists (d1 ++ d2). split; [by rewrite Hd2, Hd1, app_assoc|].
  intros t' [->|Hin]%elem_of_cons.
  - destruct Ht as [Ht|Ht]; [left; by apply Hsub | right].
    rewrite logged_errors_app. apply elem_of_app. by left.
  - destruct (Hrest t' Hin) as [H|H]; [by left | right].
    rewrite logged_errors_app. apply elem_of_app. by right.
Qed.

(** A target whose output directory is taken by a file: the directory
    is missing, and the error line is there. *)
Lemma output_directories_exist_blocked :
  let E := Fixture.single_ext Fixture.one_model Fixture.no_faults in
  let dp := DataPipeline HhsearchHitFeaturizer false in
  let s := with_files {[ "out/model_1/t1" := Text "" ]} Fixture.single_batch in
  let r := for_each [Fixture.single_target]
             (guarded_target E Fixture.base_args false "out/alignments" dp
                "m1" "out") s in
  ("out/model_1/t1" ∉ dirs r.2) /\ logged_errors (log r.2) = ["t1"].
Proof.
  cbv zeta. split; [vm_compute; intros H; discriminate|].
  destruct (output_directories_exist
              (Fixture.single_ext Fixture.one_model Fixture.no_faults)
              Fixture.base_args false "out/alignments"
              (DataPipeline HhsearchHitFeaturizer false) "m1" "out"
              [Fixture.single_target]
              (with_files {[ "out/model_1/t1" := Text "" ]}
                 Fixture.single_batch)) as (d & Hd & Hall).
  destruct (Hall Fixture.single_target (list_elem_of_here _ _)) as [Hdir|Herr].
  - vm_compute in Hdir. discriminate.
  - vm_compute. reflexivity.
Defined.
(** ** The unrelaxed structure file *)

Lemma unrelaxed_output_path_nonempty args od t :
  unrelaxed_output_path args od t <> "".
Proof.
  unfold unrelaxed_output_path, unrelaxed_file_suffix, Str.path_join.
  destruct (cif_output args); simpl;
    destruct (String.eqb (final_output_dir args od t) ""); try discriminate;
    destruct (Str.endswith "/" (final_output_dir args od t));
    destruct (final_output_dir args od t); discriminate.
Qed.

Lemma infer_and_write_eval E args is_multimer model od t fd s :
  infer_and_write E args is_multimer model od t fd s
  = match predict E args is_multimer model t fd s with
    | (Raise e, s1) => (Raise e, s1)
    | (Ok (msa_stats, out, protein), s1) =>
        match write_unrelaxed E args od t protein s1 with
        | (Raise e, s2) => (Raise e, s2)
        | (Ok _, s2) => relax_and_save E args od t fd msa_stats out protein s2
        end
    end.
Proof.
  unfold infer_and_write, bind.
  destruct (predict E args is_multimer model t fd s)
    as [[e|[[msa_stats out] protein]] s1]; [done|].
  by destruct (write_unrelaxed E args od t protein s1) as [[e|[]] s2].
Qed.

(** Lines 403-412, case by case: [open] raises and nothing has
    happened; the encoder raises and the file is there, empty; the
    encoder returns and the file holds its text. *)
Lemma write_unrelaxed_cases E args od t protein s :
  let path := unrelaxed_output_path args od t in
  let encoder := if cif_output args then c_to_modelcif else c_to_pdb in
  match open_w path s with
  | (Raise e, _) => write_unrelaxed E args od t protein s = (Raise e, s)
  | (Ok _, s1) =>
      let s2 := with_log (log s1 ++ [Called encoder (tag t)]) s1 in
      match (if cif_output args then to_modelcif E s1 protein
             else to_pdb E s1 protein) with
      | Raise e =>
          write_unrelaxed E args od t protein s = (Raise e, s2)
          /\ files s2 !! path = Some (Text "")
      | Ok text =>
          write_unrelaxed E args od t protein s
          = (Ok tt, with_files (<[path := Text text]> (files s2)) s2)
      end
  end.
Proof.
  intros path encoder. subst encoder. unfold write_unrelaxed. fold path.
  unfold bind, call, fp_write, modify.
  destruct (open_w_cases path s) as [Ho|(e & Ho)]; rewrite Ho; [|done].
  destruct (cif_output args); simpl.
  - destruct (to_modelcif E _ protein); simpl; [|done].
    split; [done | apply lookup_insert_eq].
  - destruct (to_pdb E _ protein); simpl; [|done].
    split; [done | apply lookup_insert_eq].
Qed.

Lemma no_encoder_call (d : list Event) :
  Forall (fun e => encoder_call e = false) d -> existsb encoder_call d = false.
Proof.
  induction 1 as [|e d He Hd IH]; simpl; [done | by rewrite He, IH].
Qed.

Lemma steps_predict_no_encoder E args is_multimer model t fd :
  steps (logging (fun e => encoder_call e = false))
    (predict E args is_multimer model t fd).
Proof.
  pose proof (allows_logging (fun e => encoder_call e = false)) as HR.
  unfold predict, maybe_trace. steps_auto ltac:(reflexivity).
Qed.

(** X17.  The structure file is created before its encoder runs.  A
    target whose [infer_and_write] returns has called an encoder; once
    an encoder has been called the unrelaxed file exists, also when
    the target then fails in encoding, relaxation or diagnostics; and
    when the file has been opened and the encoder raises, lines
    403-412 raise what the encoder raised and leave the file empty. *)
Theorem unrelaxed_file_created_before_encoding (E : Ext) (args : Args)
    (is_multimer : bool) (model : Model) (od : string) (t : Target)
    (fd : FeatureDict) (s : St) :
  let r := infer_and_write E args is_multimer model od t fd s in
  let path := unrelaxed_output_path args od t in
  (exists d,
     log r.2 = log s ++ d
     /\ (is_ok r.1 = true -> existsb encoder_call d = true)
     /\ (existsb encoder_call d = true -> is_Some (files r.2 !! path)))
  /\ (forall protein s0 s1 e,
        open_w path s0 = (Ok tt, s1) ->
        (if cif_output args then to_modelcif E s1 protein
         else to_pdb E s1 protein) = Raise e ->
        let w := write_unrelaxed E args od t protein s0 in
        w.1 = Raise e
        /\ files w.2 !! path = Some (Text "")
        /\ log w.2
           = log s0
             ++ [Called (if cif_output args then c_to_modelcif else c_to_pdb)
                   (tag t)]).
Proof.
  intros r path. split.
  - subst r. rewrite infer_and_write_eval.
    destruct (steps_predict_no_encoder E args is_multimer model t fd s)
      as (d1 & Hd1 & Hq1).
    apply no_encoder_call in Hq1.
    destruct (predict E args is_multimer model t fd s)
      as [[e|[[msa_stats out] protein]] s1]; simpl in *.
    { exists d1. rewrite Hq1. done. }
    pose proof (write_unrelaxed_cases E args od t protein s1) as Hw.
    simpl in Hw. fold path in Hw.
    destruct (open_w_cases path s1) as [Ho|(e & Ho)]; rewrite Ho in Hw.
    2: { rewrite Hw. exists d1. rewrite Hq1. done. }
    set (encoder := if cif_output args then c_to_modelcif else c_to_pdb) in *.
    assert (Henc : encoder_call (Called encoder (tag t)) = true)
      by (unfold encoder; by destruct (cif_output args)).
    destruct (if cif_output args
              then to_modelcif E (with_files (<[path:=Text ""]> (files s1)) s1)
                     protein
              else to_pdb E (with_files (<[path:=Text ""]> (files s1)) s1)
                     protein) as [e|text].
    { destruct Hw as [Hw Hfile]. rewrite Hw.
      exists (d1 ++ [Called encoder (tag t)]). simpl.
      split; [by rewrite Hd1, app_assoc|]. split; [done|].
      intros _. simpl in Hfile. rewrite Hfile. by eexists. }
    rewrite Hw.
    match goal with
    | |- context [ relax_and_save E args od t fd msa_stats out protein ?s3 ] =>
        assert (Hgrow : disk_grows ""
                  s3 (relax_and_save E args od t fd msa_stats out protein s3).2);
        [ | assert (Hlog : logging (fun _ => True)
                     s3 (relax_and_save E args od t fd msa_stats out protein
                           s3).2);
            [ | destruct (relax_and_save E args od t fd msa_stats out protein s3)
                  as [res s4] ] ]
    end.
    { revert s1 Hd1 Ho Hw. clear. intros.
      match goal with
      | |- disk_grows _ ?s3 _ => generalize s3
      end.
      change (steps (disk_grows "")
                (relax_and_save E args od t fd msa_stats out protein)).
      unfold relax_and_save, save_all_outputs. repeat dg_rule. }
    { pose proof (allows_logging (fun _ => True)) as HR.
      match goal with
      | |- logging _ ?s3 _ => generalize s3
      end.
      change (steps (logging (fun _ => True))
                (relax_and_save E args od t fd msa_stats out protein)).
      by apply (steps_relax_and_save E _ _ HR). }
    destruct Hlog as (d3 & Hd3 & _). destruct Hgrow as [_ Hfiles].
    simpl in *.
    exists (d1 ++ Called encoder (tag t) :: d3).
    split; [by rewrite Hd3, Hd1, <- !app_assoc|].
    assert (Hex : existsb encoder_call (d1 ++ Called encoder (tag t) :: d3)
                  = true).
    { rewrite existsb_app. simpl. rewrite Henc. by rewrite orb_true_r. }
    split; [done|]. intros _.
    apply Hfiles; [apply unrelaxed_output_path_nonempty|].
    simpl. rewrite lookup_insert_eq. by eexists.
  - intros protein s0 s1 e Ho Henc w. subst w.
    pose proof (write_unrelaxed_cases E args od t protein s0) as Hw.
    simpl in Hw. fold path in Hw. rewrite Ho, Henc in Hw.
    destruct Hw as [Hw Hfile]. rewrite Hw. simpl.
    split; [done|]. split; [done|].
    destruct (open_w_cases path s0) as [Ho'|(e' & Ho')]; rewrite Ho' in Ho;
      [|discriminate].
    by injection Ho as <-.
Qed.

Lemma unrelaxed_file_created_before_encoding_pair :
  let E := Fixture.pair_ext ∅ in
  let args := Fixture.multimer_args false "" in
  let s := (makedirs "out/model_1_multimer_v3/b" true Fixture.pair_batch).2 in
  let r := infer_and_write E args true "m1" "out" Fixture.target_b
             (Fixture.features 50) s in
  is_ok r.1 = true
  /\ is_Some (files r.2 !! "out/model_1_multimer_v3/b/unrelaxed.pdb").
Proof.
  cbv zeta. split; [vm_compute; reflexivity|].
  destruct (proj1 (unrelaxed_file_created_before_encoding (Fixture.pair_ext ∅)
                     (Fixture.multimer_args false "") true "m1" "out"
                     Fixture.target_b (Fixture.features 50)
                     (makedirs "out/model_1_multimer_v3/b" true
                        Fixture.pair_batch).2))
    as (d & Hd & Hcall & Hfile).
  apply Hfile, Hcall. vm_compute. reflexivity.
Defined.

(** ** Row order and padding rows *)

Section RowOrder.

Import MsaStats.

Lemma count_true_map_perm {A} (p : A -> bool) (l l' : list A) :
l ≡ₚ l' -> count_true (map p l) = count_true (map p l').
Proof.
intros H. rewrite !count_true_map.
induction H as [|x l l' H IH|x y l|l1 l2 l3 H1 IH1 H2 IH2]; simpl.
- done.
- destruct (p x); simpl; by rewrite IH.
- by destruct (p x), (p y).
- by rewrite IH1.
Qed.

Lemma filter_perm {A} (p : A -> bool) (l l' : list A) :
l ≡ₚ l' -> List.filter p l ≡ₚ List.filter p l'.
Proof.
induction 1 as [|x l l' H IH|x y l|l1 l2 l3 H1 IH1 H2 IH2]; simpl.
- done.
- destruct (p x); by rewrite IH.
- destruct (p x), (p y); try done. apply Permutation_swap.
- by rewrite IH1.
Qed.

Lemma masked_counts_perm (n : nat) (rs rs' : list (list Z)) l1 l2 h :
rs ≡ₚ rs' ->
masked_counts (mkT2 n rs) l1 l2 h = masked_counts (mkT2 n rs') l1 l2 h.
Proof.
intros H. unfold masked_counts, res_bind. simpl.
unfold have_msa, cols_to, cols_from. simpl. rewrite !map_map.
repeat match goal with
       | |- context [ if ?b then _ else _ ] => destruct b
       end; simpl; try done;
  rewrite ?map_map, !zip_with_maps;
  by rewrite !(count_true_map_perm _ _ _ H).
Qed.

Lemma batch_counts_perm (n : nat) (rs rs' : list (list Z)) l1 l2 h :
rs ≡ₚ rs' ->
batch_counts (mkT2 n rs) l1 l2 h = batch_counts (mkT2 n rs') l1 l2 h.
Proof.
intros H. unfold batch_counts, keep_masked. simpl.
apply masked_counts_perm. by apply filter_perm.
Qed.

Lemma stats_rows_ext all_msa all_msa' l1 l2 h prefix idxs :
(forall i, iteration_counts all_msa l1 l2 h prefix i
           = iteration_counts all_msa' l1 l2 h prefix i) ->
stats_rows all_msa l1 l2 h prefix idxs
= stats_rows all_msa' l1 l2 h prefix idxs.
Proof.
intros H. induction idxs as [|i idxs IH]; cbn [stats_rows]; [done|].
by rewrite H, IH.
Qed.

End RowOrder.

(** X22.  The statistics do not depend on the order of the alignment
    rows: permuting the rows of a 2-D or a 3-D alignment tensor leaves
    the result of [get_msa_stats] unchanged. *)
Theorem get_msa_stats_row_order (seq_length_1 seq_length_2 : nat)
    (num_recycle : nat) (if_homo : bool) (prefix : string) :
  (forall n rs rs', rs ≡ₚ rs' ->
     MsaStats.get_msa_stats (T2 (mkT2 n rs)) seq_length_1 seq_length_2
       num_recycle if_homo prefix
     = MsaStats.get_msa_stats (T2 (mkT2 n rs')) seq_length_1 seq_length_2
         num_recycle if_homo prefix)
  /\ (forall n k rs rs', rs ≡ₚ rs' ->
        MsaStats.get_msa_stats (T3 (mkT3 n k rs)) seq_length_1 seq_length_2
          num_recycle if_homo prefix
        = MsaStats.get_msa_stats (T3 (mkT3 n k rs')) seq_length_1 seq_length_2
            num_recycle if_homo prefix).
Proof.
  split.
  - intros n rs rs' H. unfold MsaStats.get_msa_stats. f_equal.
    apply stats_rows_ext. intros i.
    unfold MsaStats.iteration_counts, MsaStats.select_batch.
    destruct (String.eqb prefix "total_"); simpl; [|done].
    by apply batch_counts_perm.
  - intros n k rs rs' H. unfold MsaStats.get_msa_stats. f_equal.
    apply stats_rows_ext. intros i.
    unfold MsaStats.iteration_counts, MsaStats.select_batch.
    destruct (String.eqb prefix "total_"); simpl.
    + (* the tensor taken whole *)
      unfold MsaStats.mask_whole. simpl. destruct (n =? k); simpl; [|done].
      apply masked_counts_perm. by apply Permutation_flat_map.
    + unfold slice_recycle. simpl. destruct (i <? k); simpl; [|done].
      apply batch_counts_perm. by apply Permutation_map.
Qed.

Lemma get_msa_stats_row_order_swap :
  MsaStats.get_msa_stats (T2 (mkT2 2 [[1; 21]; [21; 21]]%Z)) 1 1 1 false "total_"
  = MsaStats.get_msa_stats (T2 (mkT2 2 [[21; 21]; [1; 21]]%Z)) 1 1 1 false "total_".
Proof.
  apply (proj1 (get_msa_stats_row_order 1 1 1 false "total_") 2).
  apply Permutation_swap.
Defined.

(** X23.  Padding rows are not counted: a row of zeros added to a 2-D
    alignment tensor changes nothing in the result of
    [get_msa_stats]. *)
Theorem get_msa_stats_ignores_padding_rows (n : nat) (z : list Z)
    (rs : list (list Z)) (seq_length_1 seq_length_2 : nat)
    (num_recycle : nat) (if_homo : bool) (prefix : string) :
  Forall (fun x => x = 0%Z) z ->
  MsaStats.get_msa_stats (T2 (mkT2 n (z :: rs))) seq_length_1 seq_length_2
    num_recycle if_homo prefix
  = MsaStats.get_msa_stats (T2 (mkT2 n rs)) seq_length_1 seq_length_2
      num_recycle if_homo prefix.
Proof.
  intros Hz. unfold MsaStats.get_msa_stats. f_equal.
  apply stats_rows_ext. intros i.
  unfold MsaStats.iteration_counts, MsaStats.select_batch.
  destruct (String.eqb prefix "total_"); simpl; [|done].
  unfold MsaStats.batch_counts, MsaStats.keep_masked. simpl.
  replace (MsaStats.any_nonzero z) with false; [done|].
  symmetry. unfold MsaStats.any_nonzero.
  induction Hz as [|x z -> Hz IH]; simpl; [done | exact IH].
Qed.

Lemma get_msa_stats_ignores_padding_rows_one :
  MsaStats.get_msa_stats (T2 (mkT2 2 [[0; 0]; [1; 21]]%Z)) 1 1 1 false "total_"
  = MsaStats.get_msa_stats (T2 (mkT2 2 [[1; 21]]%Z)) 1 1 1 false "total_".
Proof.
  apply (get_msa_stats_ignores_padding_rows 2 [0; 0]%Z [[1; 21]%Z] 1 1 1 false
           "total_").
  repeat constructor.
Defined.

(** ** A cache miss *)

(** X24.  A cache miss that succeeds does, in order: the call for the
    assembly of the tag, one processor call on the scratch file, the
    padding call when tracing, and the store; the record returned is
    the one stored, and with tracing the bucket variable is left
    holding a multiple of [TRACING_INTERVAL]. *)
Theorem cache_miss_sequence (E : Ext) (args : Args) (alignment_dir : string)
    (dp : DataProcessor) (dir : string) (t : Target) (s s' : St)
    (fd : FeatureDict) :
  feature_dicts s !! tag t = None ->
  cached_feature_dict E args alignment_dir dp dir t s = (Ok fd, s') ->
  log s'
  = log s
    ++ [Called c_generate_feature_dict (tag t);
        Called (feature_processor_of args (seqs t)) (tmp_fasta_path E args)]
    ++ (if trace_model args then [Called c_pad_feature_dict_seq (tag t)] else [])
    ++ [Stored (tag t)]
  /\ feature_dicts s' = <[tag t := fd]> (feature_dicts s)
  /\ (if trace_model args
      then exists k, rounded_seqlen s' = Some (k * TRACING_INTERVAL)
      else rounded_seqlen s' = rounded_seqlen s).
Proof.
  intros Hmiss Hrun.
  rewrite (cached_feature_dict_miss _ _ _ _ _ _ _ Hmiss) in Hrun.
  destruct (build_feature_dict E args alignment_dir dp dir t s)
    as [[e|fd1] s1] eqn:Hb; [discriminate|].
  injection Hrun as <- <-. simpl.
  unfold build_feature_dict in Hb.
  unfold bind at 1, emit, modify in Hb. simpl in Hb.
  apply bind_Ok in Hb as (fd0 & s0 & Hgen & Hb).
  apply generate_feature_dict_returns in Hgen as (Hl0 & Hc0 & Hr0).
  simpl in Hl0, Hc0, Hr0.
  destruct (trace_model args).
  - unfold bind, modify, call in Hb. simpl in Hb.
    destruct (pad_feature_dict_seq E _ fd0 _) as [e|fd2]; [discriminate|].
    injection Hb as <- <-. simpl. rewrite Hl0, Hc0, <- !app_assoc.
    split; [done|]. split; [done|].
    exists ((aatype_len fd0 + (TRACING_INTERVAL - 1)) / TRACING_INTERVAL).
    reflexivity.
  - unfold ret in Hb. injection Hb as <- <-.
    rewrite Hl0, Hc0, Hr0, <- !app_assoc. done.
Qed.

Lemma cache_miss_sequence_pair :
  let E := Fixture.pair_ext (Fixture.fixed_size true) in
  let args := Fixture.multimer_args true "" in
  let s := with_dirs {[ "out" ]} Fixture.pair_batch in
  let r := cached_feature_dict E args "out/alignments"
             (DataPipelineMultimer (DataPipeline HmmsearchHitFeaturizer false))
             "out/model_1_multimer_v3/b" Fixture.target_b s in
  is_ok r.1 = true
  /\ log r.2
     = [Called c_generate_feature_dict "b1-b2";
        Called c_process_fasta "out/tmp_4242.fasta";
        Called c_pad_feature_dict_seq "b1-b2"; Stored "b1-b2"].
Proof.
  split; [vm_compute; reflexivity|].
  refine (proj1 (cache_miss_sequence (Fixture.pair_ext (Fixture.fixed_size true))
                   (Fixture.multimer_args true "") "out/alignments"
                   (DataPipelineMultimer
                      (DataPipeline HmmsearchHitFeaturizer false))
                   "out/model_1_multimer_v3/b" Fixture.target_b
                   (with_dirs {[ "out" ]} Fixture.pair_batch) _ _ _ _)).
  - vm_compute. reflexivity.
  - vm_compute. reflexivity.
Defined.
